(** * hal_flash: the flash access layer of hw/hal/src/hal_flash.c

    A shallow embedding of the engine in [hal_flash.c] and the properties
    of its bounds validation, region erase, constant-fill scan, write
    verification and device initialisation.

    Integers of the C code are [Z]; a [uint32_t] is a [Z] in [0, 2^32) and
    its arithmetic is written with the wrap-around spelled out ([add32]).
    The driver behind a descriptor is a record of functions over an abstract
    device state; the engine threads that state together with the log of the
    driver calls it has made. *)

From Stdlib Require Import ZArith List Bool Lia.
Import ListNotations.
Open Scope Z_scope.

(** ** Machine integers *)

Definition u32_max : Z := 4294967295.
Definition u32 (x : Z) : Prop := 0 <= x <= u32_max.
Definition u8 (x : Z) : Prop := 0 <= x <= 255.

(** [uint32_t] addition. *)
Definition add32 (a b : Z) : Z := (a + b) mod 4294967296.

(** Conversion to [uint8_t] (a return value or a loop counter). *)
Definition to_u8 (x : Z) : Z := x mod 256.

(** ** Outcomes of a call into the engine

    [Done r] is a normal return, [AssertFail] a failed [assert] (the program
    stops there), [OutOfFuel] a loop that was still running when the fuel
    given to it ran out. *)
Inductive outcome (A : Type) : Type :=
| Done (a : A)
| AssertFail
| OutOfFuel.
Arguments Done {A} a.
Arguments AssertFail {A}.
Arguments OutOfFuel {A}.

Section Engine.

(** State of the physical devices, owned by the drivers. *)
Variable St : Type.

(** ** Descriptors ([struct hal_flash], [struct hal_flash_funcs]) *)

(** Modelled from the spec: the header hal/hal_flash_int.h that declares the
    two structs is not part of the sources; the fields and the capability set
    are the ones hal_flash.c uses, with the types the specification gives
    them.  Every callback of the C code takes the descriptor it belongs to as
    first argument; here a callback is already the one of its descriptor.  A
    read returns the status and the bytes it stored in the destination
    buffer.  Sector geometry is a property of the device and does not depend
    on its contents. *)
Record hal_flash_funcs : Type := {
  hff_read : Z -> Z -> St -> (Z * list Z) * St;
  hff_write : Z -> list Z -> Z -> St -> Z * St;
  hff_erase_sector : Z -> St -> Z * St;
  hff_sector_info : Z -> Z * (Z * Z);
  hff_init : St -> Z * St;
  hff_is_empty : option (Z -> Z -> St -> Z * St)
}.

Record hal_flash : Type := {
  hf_itf : hal_flash_funcs;
  hf_base_addr : Z;
  hf_size : Z;
  hf_sector_cnt : Z;
  hf_align : Z
}.

(** ** Driver calls and the world the engine runs in *)
Inductive event : Type :=
| EvInit (hf : hal_flash) (rc : Z)
| EvRead (hf : hal_flash) (address num_bytes rc : Z)
| EvWrite (hf : hal_flash) (address : Z) (src : list Z) (num_bytes rc : Z)
| EvEraseSector (hf : hal_flash) (sector_address rc : Z)
| EvSectorInfo (hf : hal_flash) (idx rc : Z)
| EvIsEmpty (hf : hal_flash) (address num_bytes rc : Z).

Record world : Type := {
  w_dev : St;
  w_calls : list event
}.

Definition M (A : Type) : Type := world -> outcome A * world.

Definition ret {A} (a : A) : M A := fun w => (Done a, w).

Definition bind {A B} (m : M A) (f : A -> M B) : M B :=
  fun w =>
    match m w with
    | (Done a, w') => f a w'
    | (AssertFail, w') => (AssertFail, w')
    | (OutOfFuel, w') => (OutOfFuel, w')
    end.

Definition assert (b : bool) : M unit :=
  fun w => if b then (Done tt, w) else (AssertFail, w).

Definition out_of_fuel {A} : M A := fun w => (OutOfFuel, w).

Notation "x <- m ;; k" := (bind m (fun x => k))
  (at level 61, m at next level, right associativity).
Notation "m ;;; k" := (bind m (fun _ => k))
  (at level 61, right associativity).

Definition log (s : St) (e : event) (w : world) : world :=
  {| w_dev := s; w_calls := w_calls w ++ [e] |}.

Definition call_init (hf : hal_flash) : M Z :=
  fun w =>
    let '(rc, s) := hff_init (hf_itf hf) (w_dev w) in
    (Done rc, log s (EvInit hf rc) w).

Definition call_read (hf : hal_flash) (address num_bytes : Z)
    : M (Z * list Z) :=
  fun w =>
    let '((rc, buf), s) := hff_read (hf_itf hf) address num_bytes (w_dev w) in
    (Done (rc, buf), log s (EvRead hf address num_bytes rc) w).

Definition call_write (hf : hal_flash) (address : Z) (src : list Z)
    (num_bytes : Z) : M Z :=
  fun w =>
    let '(rc, s) := hff_write (hf_itf hf) address src num_bytes (w_dev w) in
    (Done rc, log s (EvWrite hf address src num_bytes rc) w).

Definition call_erase_sector (hf : hal_flash) (sector_address : Z) : M Z :=
  fun w =>
    let '(rc, s) := hff_erase_sector (hf_itf hf) sector_address (w_dev w) in
    (Done rc, log s (EvEraseSector hf sector_address rc) w).

Definition call_sector_info (hf : hal_flash) (idx : Z) : M (Z * (Z * Z)) :=
  fun w =>
    let r := hff_sector_info (hf_itf hf) idx in
    (Done r, log (w_dev w) (EvSectorInfo hf idx (fst r)) w).

Definition call_is_empty (hf : hal_flash) (f : Z -> Z -> St -> Z * St)
    (address num_bytes : Z) : M Z :=
  fun w =>
    let '(rc, s) := f address num_bytes (w_dev w) in
    (Done rc, log s (EvIsEmpty hf address num_bytes rc) w).

(** ** The board support package and the build configuration

    [hal_bsp_flash_dev] is the registry of hal/hal_bsp.h; the three
    [MYNEWT_VAL] settings come from the build. *)
Variable hal_bsp_flash_dev : Z -> option hal_flash.
Variable HAL_FLASH_VERIFY_WRITES : bool.
Variable HAL_FLASH_VERIFY_ERASES : bool.
Variable HAL_FLASH_VERIFY_BUF_SZ : Z.

(** ** hal_flash_init *)

(** The loop [for (i = 0; ; i++)] with [uint8_t i]; [rc] is the local of the
    same name. *)
Fixpoint hal_flash_init_loop (fuel : nat) (i rc : Z) : M Z :=
  match fuel with
  | O => out_of_fuel
  | S fuel' =>
      match hal_bsp_flash_dev i with
      | None => ret rc
      | Some hf =>
          r <- call_init hf ;;
          hal_flash_init_loop fuel' (to_u8 (i + 1)) (if r =? 0 then rc else -1)
      end
  end.

Definition hal_flash_init (fuel : nat) : M Z := hal_flash_init_loop fuel 0 0.

(** ** hal_flash_align *)

(** The result is a [uint8_t]. *)
Definition hal_flash_align (flash_id : Z) : Z :=
  match hal_bsp_flash_dev flash_id with
  | None => 1
  | Some hf => to_u8 (hf_align hf)
  end.

(** ** hal_flash_sector_size *)
Definition hal_flash_sector_size (hf : hal_flash) (sec_idx : Z) : M Z :=
  r <- call_sector_info hf sec_idx ;;
  let '(rc, (_, size)) := r in
  if rc =? 0 then ret size else ret 0.

(** ** hal_flash_check_addr *)
Definition hal_flash_check_addr (hf : hal_flash) (addr : Z) : Z :=
  if (addr <? hf_base_addr hf) || (addr >? add32 (hf_base_addr hf) (hf_size hf))
  then -1
  else 0.

(** The test every entry point makes on a request:
    [hal_flash_check_addr(hf, address) ||
     hal_flash_check_addr(hf, address + num_bytes)]. *)
Definition check_range (hf : hal_flash) (address num_bytes : Z) : bool :=
  negb (hal_flash_check_addr hf address =? 0)
  || negb (hal_flash_check_addr hf (add32 address num_bytes) =? 0).

(** ** hal_flash_read *)

(** The second component is what the call has stored in [dst]: nothing when
    the request is turned down. *)
Definition hal_flash_read (id address num_bytes : Z) : M (Z * list Z) :=
  match hal_bsp_flash_dev id with
  | None => ret (-1, [])
  | Some hf =>
      if check_range hf address num_bytes then ret (-1, [])
      else call_read hf address num_bytes
  end.

(** [buf[i]] for an index of a buffer a read has filled. *)
Definition byte_at (buf : list Z) (i : nat) : Z := nth i buf 0.

(** The inner loop [for (i = 0; i < n; i++) if (buf[i] != val)]: true when
    it runs to its end. *)
Definition all_bytes (buf : list Z) (n val : Z) : bool :=
  forallb (fun i => byte_at buf i =? val) (seq 0 (Z.to_nat n)).

(** [memcmp(buf, u8p + off, n) == 0]. *)
Definition memcmp_eq (buf src : list Z) (off n : Z) : bool :=
  forallb (fun i => byte_at buf i =? byte_at src (Z.to_nat off + i))
          (seq 0 (Z.to_nat n)).

(** The chunk size both verification loops compute from [rem];
    [HAL_FLASH_VERIFY_BUF_SZ] is [sizeof buf]. *)
Definition chunk_size (rem : Z) : Z :=
  if rem >=? HAL_FLASH_VERIFY_BUF_SZ then HAL_FLASH_VERIFY_BUF_SZ else rem.

(** ** hal_flash_cmp_erased *)
Fixpoint hal_flash_cmp_erased_loop (fuel : nat) (hf : hal_flash)
    (address num_bytes off : Z) : M Z :=
  match fuel with
  | O => out_of_fuel
  | S fuel' =>
      if off <? num_bytes then
        let rem := num_bytes - off in
        let chunk_sz := chunk_size rem in
        r <- call_read hf (add32 address off) chunk_sz ;;
        let '(rc, buf) := r in
        if negb (rc =? 0) then ret rc
        else if all_bytes buf chunk_sz 255 then
          hal_flash_cmp_erased_loop fuel' hf address num_bytes
            (add32 off HAL_FLASH_VERIFY_BUF_SZ)
        else ret (-1)
      else ret 0
  end.

Definition hal_flash_cmp_erased (fuel : nat) (hf : hal_flash)
    (address num_bytes : Z) : M Z :=
  hal_flash_cmp_erased_loop fuel hf address num_bytes 0.

(** ** hal_flash_cmp *)
Fixpoint hal_flash_cmp_loop (fuel : nat) (hf : hal_flash) (address : Z)
    (val : list Z) (num_bytes off : Z) : M Z :=
  match fuel with
  | O => out_of_fuel
  | S fuel' =>
      if off <? num_bytes then
        let rem := num_bytes - off in
        let chunk_sz := chunk_size rem in
        r <- call_read hf (add32 address off) chunk_sz ;;
        let '(rc, buf) := r in
        if negb (rc =? 0) then ret rc
        else if memcmp_eq buf val off chunk_sz then
          hal_flash_cmp_loop fuel' hf address val num_bytes
            (add32 off HAL_FLASH_VERIFY_BUF_SZ)
        else ret (-1)
      else ret 0
  end.

Definition hal_flash_cmp (fuel : nat) (hf : hal_flash) (address : Z)
    (val : list Z) (num_bytes : Z) : M Z :=
  hal_flash_cmp_loop fuel hf address val num_bytes 0.

(** ** hal_flash_write *)
Definition hal_flash_write (fuel : nat) (id address : Z) (src : list Z)
    (num_bytes : Z) : M Z :=
  match hal_bsp_flash_dev id with
  | None => ret (-1)
  | Some hf =>
      if check_range hf address num_bytes then ret (-1)
      else
        rc <- call_write hf address src num_bytes ;;
        if negb (rc =? 0) then ret rc
        else if HAL_FLASH_VERIFY_WRITES then
          c <- hal_flash_cmp fuel hf address src num_bytes ;;
          assert (c =? 0) ;;;
          ret 0
        else ret 0
  end.

(** ** hal_flash_erase_sector *)

(** The search for the sector bounds, under HAL_FLASH_VERIFY_ERASES:
    [n] counts the iterations that are left. *)
Fixpoint erase_sector_verify (fuel : nat) (hf : hal_flash)
    (sector_address : Z) (n : nat) (i : Z) : M unit :=
  match n with
  | O => ret tt
  | S n' =>
      r <- call_sector_info hf i ;;
      let '(rc, (start, size)) := r in
      assert (rc =? 0) ;;;
      if sector_address =? start then
        c <- hal_flash_cmp_erased fuel hf start size ;;
        assert (c =? 0)
      else erase_sector_verify fuel hf sector_address n' (i + 1)
  end.

Definition hal_flash_erase_sector (fuel : nat) (id sector_address : Z) : M Z :=
  match hal_bsp_flash_dev id with
  | None => ret (-1)
  | Some hf =>
      if negb (hal_flash_check_addr hf sector_address =? 0) then ret (-1)
      else
        rc <- call_erase_sector hf sector_address ;;
        if negb (rc =? 0) then ret rc
        else if HAL_FLASH_VERIFY_ERASES then
          erase_sector_verify fuel hf sector_address
            (Z.to_nat (hf_sector_cnt hf)) 0 ;;;
          ret 0
        else ret 0
  end.

(** ** hal_flash_erase *)

(** The test [address < end_area && end > start]. *)
Definition sector_hit (address end_ start size : Z) : bool :=
  (address <? add32 start size) && (end_ >? start).

(** The loop [for (i = 0; i < hf->hf_sector_cnt; i++)]: [n] counts the
    iterations that are left, [i] is the sector index. *)
Fixpoint hal_flash_erase_loop (fuel : nat) (hf : hal_flash)
    (address end_ : Z) (n : nat) (i : Z) : M Z :=
  match n with
  | O => ret 0
  | S n' =>
      r <- call_sector_info hf i ;;
      let '(rc, (start, size)) := r in
      assert (rc =? 0) ;;;
      if sector_hit address end_ start size then
        e <- call_erase_sector hf start ;;
        if negb (e =? 0) then ret (-1)
        else
          (if HAL_FLASH_VERIFY_ERASES then
             c <- hal_flash_cmp_erased fuel hf start size ;;
             assert (c =? 0)
           else ret tt) ;;;
          hal_flash_erase_loop fuel hf address end_ n' (i + 1)
      else hal_flash_erase_loop fuel hf address end_ n' (i + 1)
  end.

Definition hal_flash_erase (fuel : nat) (id address num_bytes : Z) : M Z :=
  match hal_bsp_flash_dev id with
  | None => ret (-1)
  | Some hf =>
      if check_range hf address num_bytes then ret (-1)
      else
        let end_ := add32 address num_bytes in
        if end_ <=? address then ret (-1)
        else
          hal_flash_erase_loop fuel hf address end_
            (Z.to_nat (hf_sector_cnt hf)) 0
  end.

(** ** hal_flash_is_setto *)

(** The loop [while (num_bytes)].  Every iteration that goes on takes at
    least one byte off [num_bytes], so [hal_flash_is_setto] below gives it
    more fuel than it can use ([is_setto_loop_total]). *)
Fixpoint hal_flash_is_setto_loop (fuel : nat) (hf : hal_flash)
    (address num_bytes val : Z) : M Z :=
  match fuel with
  | O => out_of_fuel
  | S fuel' =>
      if num_bytes =? 0 then ret 1
      else
        let blksz := if 32 >? num_bytes then num_bytes else 32 in
        r <- call_read hf address blksz ;;
        let '(rc, buf) := r in
        if negb (rc =? 0) then ret (-1)
        else if all_bytes buf blksz val then
          hal_flash_is_setto_loop fuel' hf address (num_bytes - blksz) val
        else ret 0
  end.

Definition hal_flash_is_setto (hf : hal_flash) (address num_bytes val : Z)
    : M Z :=
  hal_flash_is_setto_loop (S (Z.to_nat num_bytes)) hf address num_bytes val.

Definition hal_flash_is_ones (hf : hal_flash) (address num_bytes : Z) : M Z :=
  hal_flash_is_setto hf address num_bytes 255.

Definition hal_flash_is_zeroes (hf : hal_flash) (address num_bytes : Z) : M Z :=
  hal_flash_is_setto hf address num_bytes 0.

(** ** hal_flash_isempty *)
Definition hal_flash_isempty (id address num_bytes : Z) : M Z :=
  match hal_bsp_flash_dev id with
  | None => ret (-1)
  | Some hf =>
      if check_range hf address num_bytes then ret (-1)
      else
        match hff_is_empty (hf_itf hf) with
        | Some f => call_is_empty hf f address num_bytes
        | None => hal_flash_is_ones hf address num_bytes
        end
  end.

(** ** hal_flash_ioctl *)
Definition hal_flash_ioctl (id cmd : Z) : M Z := ret 0.

End Engine.

Arguments hff_read {St} _ _ _ _.
Arguments hff_write {St} _ _ _ _ _.
Arguments hff_erase_sector {St} _ _ _.
Arguments hff_sector_info {St} _ _.
Arguments hff_init {St} _ _.
Arguments hff_is_empty {St} _.
Arguments hf_itf {St} _.
Arguments hf_base_addr {St} _.
Arguments hf_size {St} _.
Arguments hf_sector_cnt {St} _.
Arguments hf_align {St} _.
Arguments EvInit {St} hf rc.
Arguments EvRead {St} hf address num_bytes rc.
Arguments EvWrite {St} hf address src num_bytes rc.
Arguments EvEraseSector {St} hf sector_address rc.
Arguments EvSectorInfo {St} hf idx rc.
Arguments EvIsEmpty {St} hf address num_bytes rc.
Arguments w_dev {St} _.
Arguments w_calls {St} _.
Arguments Build_world {St} _ _.
Arguments ret {St A} a _.
Arguments bind {St A B} m f _.
Arguments assert {St} b _.
Arguments log {St} s e w.
Arguments call_init {St} hf _.
Arguments call_read {St} hf address num_bytes _.
Arguments call_write {St} hf address src num_bytes _.
Arguments call_erase_sector {St} hf sector_address _.
Arguments call_sector_info {St} hf idx _.
Arguments call_is_empty {St} hf f address num_bytes _.
Arguments hal_flash_init_loop {St} hal_bsp_flash_dev fuel i rc _.
Arguments hal_flash_init {St} hal_bsp_flash_dev fuel _.
Arguments hal_flash_align {St} hal_bsp_flash_dev flash_id.
Arguments hal_flash_sector_size {St} hf sec_idx _.
Arguments hal_flash_check_addr {St} hf addr.
Arguments check_range {St} hf address num_bytes.
Arguments hal_flash_read {St} hal_bsp_flash_dev id address num_bytes _.
Arguments hal_flash_cmp_erased_loop {St} HAL_FLASH_VERIFY_BUF_SZ fuel hf
  address num_bytes off _.
Arguments hal_flash_cmp_erased {St} HAL_FLASH_VERIFY_BUF_SZ fuel hf
  address num_bytes _.
Arguments hal_flash_cmp_loop {St} HAL_FLASH_VERIFY_BUF_SZ fuel hf address val
  num_bytes off _.
Arguments hal_flash_cmp {St} HAL_FLASH_VERIFY_BUF_SZ fuel hf address val
  num_bytes _.
Arguments hal_flash_write {St} hal_bsp_flash_dev HAL_FLASH_VERIFY_WRITES
  HAL_FLASH_VERIFY_BUF_SZ fuel id address src num_bytes _.
Arguments erase_sector_verify {St} HAL_FLASH_VERIFY_BUF_SZ fuel hf
  sector_address n i _.
Arguments hal_flash_erase_sector {St} hal_bsp_flash_dev HAL_FLASH_VERIFY_ERASES
  HAL_FLASH_VERIFY_BUF_SZ fuel id sector_address _.
Arguments hal_flash_erase_loop {St} HAL_FLASH_VERIFY_ERASES
  HAL_FLASH_VERIFY_BUF_SZ fuel hf address end_ n i _.
Arguments hal_flash_erase {St} hal_bsp_flash_dev HAL_FLASH_VERIFY_ERASES
  HAL_FLASH_VERIFY_BUF_SZ fuel id address num_bytes _.
Arguments hal_flash_is_setto_loop {St} fuel hf address num_bytes val _.
Arguments hal_flash_is_setto {St} hf address num_bytes val _.
Arguments hal_flash_is_ones {St} hf address num_bytes _.
Arguments hal_flash_is_zeroes {St} hf address num_bytes _.
Arguments hal_flash_isempty {St} hal_bsp_flash_dev id address num_bytes _.

(** ** Reading the call log *)

(** The sector indices [0 .. n-1] a scan goes through. *)
Definition sector_indices (n : Z) : list Z :=
  map Z.of_nat (seq 0 (Z.to_nat n)).

(** The calls of a sector scan: geometry queries and sector erases. *)
Definition is_scan_call {St} (e : event St) : bool :=
  match e with
  | EvSectorInfo _ _ _ | EvEraseSector _ _ _ => true
  | _ => false
  end.

Definition is_write_call {St} (e : event St) : bool :=
  match e with
  | EvWrite _ _ _ _ _ => true
  | _ => false
  end.

Definition is_read_call {St} (e : event St) : bool :=
  match e with
  | EvRead _ _ _ _ => true
  | _ => false
  end.

(** False on the erase-sector calls that the driver failed. *)
Definition erase_done {St} (e : event St) : bool :=
  match e with
  | EvEraseSector _ _ rc => rc =? 0
  | _ => true
  end.

(** The sector addresses handed to the erase-sector capability, in order. *)
Definition erased_sectors {St} (tr : list (event St)) : list Z :=
  flat_map (fun e => match e with
                     | EvEraseSector _ a _ => [a]
                     | _ => []
                     end) tr.

(** The sector indices queried, in order. *)
Definition queried_sectors {St} (tr : list (event St)) : list Z :=
  flat_map (fun e => match e with
                     | EvSectorInfo _ i _ => [i]
                     | _ => []
                     end) tr.

(** What one turn of a scan for the range [address, end_) asks of the driver
    of [hf] at the sector index [i]: the geometry query and, when the sector
    meets the range, one erase at the sector's start. *)
Definition plan_turn {St} (hf : hal_flash St) (address end_ i : Z)
    : list (event St) :=
  let '(_, (start, size)) := hff_sector_info (hf_itf hf) i in
  EvSectorInfo hf i 0 ::
  (if (address <? add32 start size) && (start <? end_)
   then [EvEraseSector hf start 0] else []).

(** What a complete scan asks: the turns of the indices in ascending order. *)
Definition erase_plan {St} (hf : hal_flash St) (address end_ : Z)
    : list (event St) :=
  flat_map (plan_turn hf address end_) (sector_indices (hf_sector_cnt hf)).

(** The state the devices are in after the driver calls of a log have run
    from [s], one after the other. *)
Definition replay_call {St} (s : St) (e : event St) : St :=
  match e with
  | EvInit hf _ => snd (hff_init (hf_itf hf) s)
  | EvRead hf a n _ => snd (hff_read (hf_itf hf) a n s)
  | EvWrite hf a src n _ => snd (hff_write (hf_itf hf) a src n s)
  | EvEraseSector hf a _ => snd (hff_erase_sector (hf_itf hf) a s)
  | EvSectorInfo _ _ _ => s
  | EvIsEmpty hf a n _ =>
      match hff_is_empty (hf_itf hf) with
      | Some f => snd (f a n s)
      | None => s
      end
  end.

Definition replay {St} (tr : list (event St)) (s : St) : St :=
  fold_left replay_call tr s.

(** [w'] is [w] after the driver calls [tr], and nothing else, have been
    made: the log has grown by [tr] and the devices are in the state the
    calls of [tr] leave them in. *)
Definition extends {St} (w w' : world St) (tr : list (event St)) : Prop :=
  w_calls w' = w_calls w ++ tr /\ w_dev w' = replay tr (w_dev w).

(** The init calls of a list of devices with the status each returned. *)
Definition init_calls {St} (devs : list (hal_flash St)) (rcs : list Z)
    : list (event St) :=
  map (fun p => EvInit (fst p) (snd p)) (combine devs rcs).

(** The status each init returns when the devices of a list are initialised
    one after the other from the state [s]. *)
Fixpoint init_results {St} (devs : list (hal_flash St)) (s : St) : list Z :=
  match devs with
  | [] => []
  | hf :: rest =>
      fst (hff_init (hf_itf hf) s)
      :: init_results rest (snd (hff_init (hf_itf hf) s))
  end.

(** A driver whose read hands back the contents [mem] of the device and
    leaves the device as it is; the read may also fail. *)
Definition reads_contents {St} (hf : hal_flash St) (mem : St -> Z -> Z)
    : Prop :=
  forall a n s,
    snd (hff_read (hf_itf hf) a n s) = s /\
    (fst (fst (hff_read (hf_itf hf) a n s)) = 0 ->
     forall j, (j < Z.to_nat n)%nat ->
       byte_at (snd (fst (hff_read (hf_itf hf) a n s))) j
       = mem s (add32 a (Z.of_nat j))).

(** ** Example devices

    A device kept in memory: the state maps an address to the byte stored
    there.  [0x8000 .. 0x9000) in four sectors of [0x400] bytes. *)
Definition ram : Type := Z -> Z.

Definition ram_bytes (s : ram) (a n : Z) : list Z :=
  map (fun j => s (add32 a (Z.of_nat j))) (seq 0 (Z.to_nat n)).

Definition ram_read (a n : Z) (s : ram) : (Z * list Z) * ram :=
  ((0, ram_bytes s a n), s).

Definition ram_write (a : Z) (src : list Z) (n : Z) (s : ram) : Z * ram :=
  (0, fun x => if (a <=? x) && (x <? a + n)
               then byte_at src (Z.to_nat (x - a)) else s x).

Definition ram_erase_sector (a : Z) (s : ram) : Z * ram :=
  (0, fun x => if (a <=? x) && (x <? a + 1024) then 255 else s x).

Definition ram_sector_info (i : Z) : Z * (Z * Z) :=
  if (0 <=? i) && (i <? 4) then (0, (32768 + 1024 * i, 1024))
  else (-1, (0, 0)).

Definition ram_init (s : ram) : Z * ram := (0, s).

Definition ram_itf : hal_flash_funcs ram :=
  {| hff_read := ram_read;
     hff_write := ram_write;
     hff_erase_sector := ram_erase_sector;
     hff_sector_info := ram_sector_info;
     hff_init := ram_init;
     hff_is_empty := None |}.

Definition ram_flash : hal_flash ram :=
  {| hf_itf := ram_itf;
     hf_base_addr := 32768;
     hf_size := 4096;
     hf_sector_cnt := 4;
     hf_align := 1 |}.

(** The same device with a sector at [0x8400] that cannot be erased. *)
Definition worn_erase_sector (a : Z) (s : ram) : Z * ram :=
  if a =? 33792 then (-5, s) else ram_erase_sector a s.

Definition worn_flash : hal_flash ram :=
  {| hf_itf :=
       {| hff_read := ram_read;
          hff_write := ram_write;
          hff_erase_sector := worn_erase_sector;
          hff_sector_info := ram_sector_info;
          hff_init := ram_init;
          hff_is_empty := None |};
     hf_base_addr := 32768;
     hf_size := 4096;
     hf_sector_cnt := 4;
     hf_align := 1 |}.

(** The same device with a write that reports success and stores nothing. *)
Definition stuck_flash : hal_flash ram :=
  {| hf_itf :=
       {| hff_read := ram_read;
          hff_write := fun _ _ _ s => (0, s);
          hff_erase_sector := ram_erase_sector;
          hff_sector_info := ram_sector_info;
          hff_init := ram_init;
          hff_is_empty := None |};
     hf_base_addr := 32768;
     hf_size := 4096;
     hf_sector_cnt := 4;
     hf_align := 1 |}.

(** The same device with an init that fails. *)
Definition dead_flash : hal_flash ram :=
  {| hf_itf :=
       {| hff_read := ram_read;
          hff_write := ram_write;
          hff_erase_sector := ram_erase_sector;
          hff_sector_info := ram_sector_info;
          hff_init := fun s => (-3, s);
          hff_is_empty := None |};
     hf_base_addr := 32768;
     hf_size := 4096;
     hf_sector_cnt := 4;
     hf_align := 1 |}.

(** The same device with an is-empty capability of its own. *)
Definition smart_flash : hal_flash ram :=
  {| hf_itf :=
       {| hff_read := ram_read;
          hff_write := ram_write;
          hff_erase_sector := ram_erase_sector;
          hff_sector_info := ram_sector_info;
          hff_init := ram_init;
          hff_is_empty := Some (fun _ _ s => (7, s)) |};
     hf_base_addr := 32768;
     hf_size := 4096;
     hf_sector_cnt := 4;
     hf_align := 1 |}.

(** A device that ends with the address space: [0xFFFFF000 .. 2^32). *)
Definition top_flash : hal_flash ram :=
  {| hf_itf := ram_itf;
     hf_base_addr := 4294963200;
     hf_size := 4096;
     hf_sector_cnt := 4;
     hf_align := 1 |}.

(** Registries. *)
Definition one_dev (hf : hal_flash ram) (id : Z) : option (hal_flash ram) :=
  if id =? 0 then Some hf else None.

Definition three_devs (id : Z) : option (hal_flash ram) :=
  if id =? 0 then Some ram_flash
  else if id =? 1 then Some dead_flash
  else if id =? 2 then Some smart_flash
  else None.

(** Device contents. *)
Definition zeroed : ram := fun _ => 0.

(** All [0xFF] but for the byte at [0x8020]. *)
Definition one_byte_programmed : ram := fun x => if x =? 32800 then 0 else 255.

Definition boot {St} (s : St) : world St := {| w_dev := s; w_calls := [] |}.

(** The ways one turn of the sector scan of [hal_flash_erase] can go, for the
    sector index [i] with [n] more turns to follow: the geometry query fails
    (assertion), the sector is off the range, the erase fails, the sector is
    erased (and verified) and the scan goes on, or the verification stops
    the program. *)
Inductive scan_turn {St} (VE : bool) (BUF : Z) (fuel : nat)
    (hf : hal_flash St) (address end_ : Z) (n : nat) (i : Z)
    (w : world St) (o : outcome Z) (w' : world St) : Prop :=
| turn_no_geometry rc :
    rc = fst (hff_sector_info (hf_itf hf) i) -> rc <> 0 ->
    extends w w' [EvSectorInfo hf i rc] ->
    o = AssertFail ->
    scan_turn VE BUF fuel hf address end_ n i w o w'
| turn_skip start size w1 :
    hff_sector_info (hf_itf hf) i = (0, (start, size)) ->
    sector_hit address end_ start size = false ->
    extends w w1 [EvSectorInfo hf i 0] ->
    hal_flash_erase_loop VE BUF fuel hf address end_ n (i + 1) w1 = (o, w') ->
    scan_turn VE BUF fuel hf address end_ n i w o w'
| turn_erase_failed start size w1 e :
    hff_sector_info (hf_itf hf) i = (0, (start, size)) ->
    sector_hit address end_ start size = true ->
    extends w w1 [EvSectorInfo hf i 0] ->
    e = fst (hff_erase_sector (hf_itf hf) start (w_dev w1)) -> e <> 0 ->
    extends w1 w' [EvEraseSector hf start e] ->
    o = Done (-1) ->
    scan_turn VE BUF fuel hf address end_ n i w o w'
| turn_erased start size w1 w2 w3 tr :
    hff_sector_info (hf_itf hf) i = (0, (start, size)) ->
    sector_hit address end_ start size = true ->
    extends w w1 [EvSectorInfo hf i 0] ->
    fst (hff_erase_sector (hf_itf hf) start (w_dev w1)) = 0 ->
    extends w1 w2 [EvEraseSector hf start 0] ->
    extends w2 w3 tr -> Forall (fun e => is_read_call e = true) tr ->
    (VE = false -> tr = []) ->
    hal_flash_erase_loop VE BUF fuel hf address end_ n (i + 1) w3 = (o, w') ->
    scan_turn VE BUF fuel hf address end_ n i w o w'
| turn_verify_stopped start size w1 w2 tr :
    VE = true ->
    hff_sector_info (hf_itf hf) i = (0, (start, size)) ->
    sector_hit address end_ start size = true ->
    extends w w1 [EvSectorInfo hf i 0] ->
    extends w1 w2 [EvEraseSector hf start 0] ->
    extends w2 w' tr -> Forall (fun e => is_read_call e = true) tr ->
    o = AssertFail \/ o = OutOfFuel ->
    scan_turn VE BUF fuel hf address end_ n i w o w'.

(** ** Contracts of a driver and more devices *)

(** A driver whose reads all succeed. *)
Definition reads_succeed {St} (hf : hal_flash St) : Prop :=
  forall a n s, fst (fst (hff_read (hf_itf hf) a n s)) = 0.

(** A driver whose write, when it reports success, has stored the source:
    the bytes of the range then read as the source. *)
Definition write_stores {St} (hf : hal_flash St) (mem : St -> Z -> Z)
    : Prop :=
  forall a src n s,
    fst (hff_write (hf_itf hf) a src n s) = 0 ->
    forall i, 0 <= i < n ->
      mem (snd (hff_write (hf_itf hf) a src n s)) (add32 a i)
      = byte_at src (Z.to_nat i).

(** A driver whose erase, when it reports success at the start of a sector,
    leaves every byte of that sector at [0xFF], and keeps at [0xFF] the
    bytes that were. *)
Definition erase_sets_ones {St} (hf : hal_flash St) (mem : St -> Z -> Z)
    : Prop :=
  forall a s,
    fst (hff_erase_sector (hf_itf hf) a s) = 0 ->
    forall x,
      (mem s x = 255 -> mem (snd (hff_erase_sector (hf_itf hf) a s)) x = 255)
      /\
      (forall i size,
         hff_sector_info (hf_itf hf) i = (0, (a, size)) ->
         a <= x < a + size ->
         mem (snd (hff_erase_sector (hf_itf hf) a s)) x = 255).

(** The byte at [x] lies in the sector of index [i], whose end is still a
    32-bit address. *)
Definition in_sector {St} (hf : hal_flash St) (i x : Z) : Prop :=
  exists start size,
    hff_sector_info (hf_itf hf) i = (0, (start, size)) /\
    start <= x < start + size /\ start + size <= u32_max.

(** Every byte of the range lies in one of the sectors of the device. *)
Definition sectors_cover {St} (hf : hal_flash St) (address num_bytes : Z)
    : Prop :=
  forall x, address <= x < address + num_bytes ->
    exists i, 0 <= i < hf_sector_cnt hf /\ in_sector hf i x.

(** A read of at most 32 bytes made at [address] through [hf]. *)
Definition is_chunk_read {St} (hf : hal_flash St) (address : Z)
    (e : event St) : Prop :=
  match e with
  | EvRead hf' a n _ => hf' = hf /\ a = address /\ 0 < n <= 32
  | _ => False
  end.

(** The status a logged call returned. *)
Definition call_status {St} (e : event St) : Z :=
  match e with
  | EvInit _ rc | EvRead _ _ _ rc | EvWrite _ _ _ _ rc
  | EvEraseSector _ _ rc | EvSectorInfo _ _ rc | EvIsEmpty _ _ _ rc => rc
  end.

(** A device at the bottom of the address space: [0 .. 0x1000) in four
    sectors of [0x400] bytes. *)
Definition low_sector_info (i : Z) : Z * (Z * Z) :=
  if (0 <=? i) && (i <? 4) then (0, (1024 * i, 1024)) else (-1, (0, 0)).

Definition low_flash : hal_flash ram :=
  {| hf_itf :=
       {| hff_read := ram_read;
          hff_write := ram_write;
          hff_erase_sector := ram_erase_sector;
          hff_sector_info := low_sector_info;
          hff_init := ram_init;
          hff_is_empty := None |};
     hf_base_addr := 0;
     hf_size := 4096;
     hf_sector_cnt := 4;
     hf_align := 1 |}.

(** The example device with an erase that reports success and leaves the
    sector as it is. *)
Definition lazy_flash : hal_flash ram :=
  {| hf_itf :=
       {| hff_read := ram_read;
          hff_write := ram_write;
          hff_erase_sector := fun _ s => (0, s);
          hff_sector_info := ram_sector_info;
          hff_init := ram_init;
          hff_is_empty := None |};
     hf_base_addr := 32768;
     hf_size := 4096;
     hf_sector_cnt := 4;
     hf_align := 1 |}.

(** The example device with a write that the driver fails. *)
Definition locked_flash : hal_flash ram :=
  {| hf_itf :=
       {| hff_read := ram_read;
          hff_write := fun _ _ _ s => (-7, s);
          hff_erase_sector := ram_erase_sector;
          hff_sector_info := ram_sector_info;
          hff_init := ram_init;
          hff_is_empty := None |};
     hf_base_addr := 32768;
     hf_size := 4096;
     hf_sector_cnt := 4;
     hf_align := 1 |}.

(** The example device with a driver that cannot tell its geometry. *)
Definition blind_flash : hal_flash ram :=
  {| hf_itf :=
       {| hff_read := ram_read;
          hff_write := ram_write;
          hff_erase_sector := ram_erase_sector;
          hff_sector_info := fun _ => (-2, (0, 0));
          hff_init := ram_init;
          hff_is_empty := None |};
     hf_base_addr := 32768;
     hf_size := 4096;
     hf_sector_cnt := 4;
     hf_align := 1 |}.

(** A device that holds [0xFF] everywhere. *)
Definition blank : ram := fun _ => 255.

(** * Properties *)

(** ** Arithmetic of the machine integers *)

Lemma add32_small (a b : Z) :
  0 <= a + b <= u32_max -> add32 a b = a + b.
Proof.
  unfold add32, u32_max. intros H. apply Z.mod_small. lia.
Qed.

Lemma add32_wrap (a b : Z) :
  u32 a -> u32 b -> u32_max < a + b -> add32 a b = a + b - 4294967296.
Proof.
  unfold add32, u32, u32_max. intros Ha Hb H.
  symmetry. apply (Z.mod_unique (a + b) 4294967296 1); lia.
Qed.

Lemma to_u8_range (x : Z) : u8 (to_u8 x).
Proof.
  unfold to_u8, u8. pose proof (Z.mod_pos_bound x 256). lia.
Qed.

Lemma to_u8_small (x : Z) : u8 x -> to_u8 x = x.
Proof.
  unfold to_u8, u8. intros H. apply Z.mod_small. lia.
Qed.

(** ** Bounds validation *)

Lemma check_addr_ok_iff {St} (hf : hal_flash St) (a : Z) :
  hal_flash_check_addr hf a = 0 <->
  hf_base_addr hf <= a <= add32 (hf_base_addr hf) (hf_size hf).
Proof.
  unfold hal_flash_check_addr. rewrite Z.gtb_ltb.
  destruct (Z.ltb_spec a (hf_base_addr hf));
    destruct (Z.ltb_spec (add32 (hf_base_addr hf) (hf_size hf)) a); simpl;
    split; intros; (discriminate || lia || reflexivity).
Qed.

Lemma check_addr_cases {St} (hf : hal_flash St) (a : Z) :
  hal_flash_check_addr hf a = 0 \/ hal_flash_check_addr hf a = -1.
Proof.
  unfold hal_flash_check_addr.
  destruct (_ || _); [right | left]; reflexivity.
Qed.

Lemma check_addr_fail_iff {St} (hf : hal_flash St) (a : Z) :
  hal_flash_check_addr hf a = -1 <->
  a < hf_base_addr hf \/ add32 (hf_base_addr hf) (hf_size hf) < a.
Proof.
  pose proof (check_addr_ok_iff hf a) as H.
  destruct (check_addr_cases hf a) as [E | E]; rewrite E in *;
    split; intros; try discriminate; try reflexivity.
  - assert (0 = 0) as H1 by reflexivity. apply H in H1. lia.
  - destruct (Z.lt_ge_cases a (hf_base_addr hf)); [lia |].
    destruct (Z.lt_ge_cases (add32 (hf_base_addr hf) (hf_size hf)) a);
      [lia |].
    assert (-1 = 0) by (apply H; lia). discriminate.
Qed.

Lemma check_range_false {St} (hf : hal_flash St) (address num_bytes : Z) :
  check_range hf address num_bytes = false <->
  hal_flash_check_addr hf address = 0 /\
  hal_flash_check_addr hf (add32 address num_bytes) = 0.
Proof.
  unfold check_range. rewrite orb_false_iff, !negb_false_iff, !Z.eqb_eq.
  reflexivity.
Qed.

Lemma check_range_true {St} (hf : hal_flash St) (address num_bytes : Z) :
  check_range hf address num_bytes = true <->
  hal_flash_check_addr hf address <> 0 \/
  hal_flash_check_addr hf (add32 address num_bytes) <> 0.
Proof.
  unfold check_range. rewrite orb_true_iff, !negb_true_iff, !Z.eqb_neq.
  reflexivity.
Qed.

(** C1 (as amended).  An address passes [hal_flash_check_addr] exactly when
    it lies between the base and the 32-bit sum of base and size, both
    included.  When base + size does not leave the 32-bit range, the base and
    base + size pass; base - 1 (for a base above 0) and base + size + 1
    (while it is a 32-bit address) are rejected with -1. *)
Theorem hal_flash_check_addr_in_range {St} (hf : hal_flash St) (a : Z) :
  u32 (hf_base_addr hf) -> u32 (hf_size hf) -> u32 a ->
  (hal_flash_check_addr hf a = 0 <->
   hf_base_addr hf <= a <= add32 (hf_base_addr hf) (hf_size hf)) /\
  (hal_flash_check_addr hf a <> 0 -> hal_flash_check_addr hf a = -1) /\
  (hf_base_addr hf + hf_size hf <= u32_max ->
   hal_flash_check_addr hf (hf_base_addr hf) = 0 /\
   hal_flash_check_addr hf (hf_base_addr hf + hf_size hf) = 0) /\
  (0 < hf_base_addr hf ->
   hal_flash_check_addr hf (hf_base_addr hf - 1) = -1) /\
  (hf_base_addr hf + hf_size hf + 1 <= u32_max ->
   hal_flash_check_addr hf (hf_base_addr hf + hf_size hf + 1) = -1).
Proof.
  intros Hb Hs Ha. unfold u32 in *.
  split; [apply check_addr_ok_iff |].
  split; [destruct (check_addr_cases hf a); intros; congruence |].
  split; [| split].
  - intros Hfit. rewrite !check_addr_ok_iff, add32_small by lia. lia.
  - intros Hpos. rewrite check_addr_fail_iff. lia.
  - intros Hfit. rewrite check_addr_fail_iff, add32_small by lia. lia.
Qed.

(** The example device: [0x8000], [0x9000] pass, [0x7FFF], [0x9001] do not. *)
Lemma hal_flash_check_addr_in_range_ram :
  hal_flash_check_addr ram_flash 32768 = 0 /\
  hal_flash_check_addr ram_flash 36864 = 0 /\
  hal_flash_check_addr ram_flash 32767 = -1 /\
  hal_flash_check_addr ram_flash 36865 = -1.
Proof.
  destruct (hal_flash_check_addr_in_range ram_flash 32768)
    as (_ & _ & Hin & Hlo & Hhi);
    [unfold u32, u32_max; simpl; lia ..|].
  destruct Hin as [H1 H2]; [unfold u32_max; simpl; lia |].
  split; [exact H1 |]. split; [exact H2 |].
  split; [apply Hlo; simpl; lia | apply Hhi; unfold u32_max; simpl; lia].
Defined.

(** C1 as stated fails: for a device whose last byte is the last byte of the
    address space the sum base + size wraps to 0, and the base itself is
    rejected. *)
Lemma hal_flash_check_addr_top_flash_base :
  u32 (hf_base_addr top_flash) /\ u32 (hf_size top_flash) /\
  hal_flash_check_addr top_flash (hf_base_addr top_flash) = -1.
Proof.
  unfold u32, u32_max. simpl. split; [lia |]. split; [lia |]. reflexivity.
Qed.

(** ** The monad *)

Lemma bind_done {St A B} (m : world St -> outcome A * world St)
    (f : A -> world St -> outcome B * world St) w a w1 :
  m w = (Done a, w1) -> bind m f w = f a w1.
Proof. unfold bind. intros ->. reflexivity. Qed.

Lemma bind_out_of_fuel {St A B} (m : world St -> outcome A * world St)
    (f : A -> world St -> outcome B * world St) w w1 :
  m w = (OutOfFuel, w1) -> bind m f w = (OutOfFuel, w1).
Proof. unfold bind. intros ->. reflexivity. Qed.

Lemma extends_nil {St} (w : world St) : extends w w [].
Proof. split; [symmetry; apply app_nil_r | reflexivity]. Qed.

Lemma extends_app {St} (w w1 w2 : world St) tr1 tr2 :
  extends w w1 tr1 -> extends w1 w2 tr2 -> extends w w2 (tr1 ++ tr2).
Proof.
  intros [H1 H1'] [H2 H2']. split.
  - rewrite H2, H1, app_assoc. reflexivity.
  - unfold replay in *. rewrite fold_left_app, <- H1'. exact H2'.
Qed.

(** Each driver call returns, logs itself and moves the devices as the
    driver says. *)
Lemma call_init_run {St} (hf : hal_flash St) w :
  exists rc w', call_init hf w = (Done rc, w') /\
    rc = fst (hff_init (hf_itf hf) (w_dev w)) /\ extends w w' [EvInit hf rc].
Proof.
  unfold call_init. destruct (hff_init _ _) as [rc s] eqn:E.
  eexists _, _. split; [reflexivity |]. split; [reflexivity |].
  split; simpl; [reflexivity | rewrite E; reflexivity].
Qed.

Lemma call_read_run {St} (hf : hal_flash St) a n w :
  exists rc buf w', call_read hf a n w = (Done (rc, buf), w') /\
    (rc, buf) = fst (hff_read (hf_itf hf) a n (w_dev w)) /\
    extends w w' [EvRead hf a n rc].
Proof.
  unfold call_read. destruct (hff_read _ _ _ _) as [[rc buf] s] eqn:E.
  eexists _, _, _. split; [reflexivity |]. split; [reflexivity |].
  split; simpl; [reflexivity | rewrite E; reflexivity].
Qed.

Lemma call_write_run {St} (hf : hal_flash St) a src n w :
  exists rc w', call_write hf a src n w = (Done rc, w') /\
    rc = fst (hff_write (hf_itf hf) a src n (w_dev w)) /\
    extends w w' [EvWrite hf a src n rc].
Proof.
  unfold call_write. destruct (hff_write _ _ _ _ _) as [rc s] eqn:E.
  eexists _, _. split; [reflexivity |]. split; [reflexivity |].
  split; simpl; [reflexivity | rewrite E; reflexivity].
Qed.

Lemma call_erase_sector_run {St} (hf : hal_flash St) a w :
  exists rc w', call_erase_sector hf a w = (Done rc, w') /\
    rc = fst (hff_erase_sector (hf_itf hf) a (w_dev w)) /\
    extends w w' [EvEraseSector hf a rc].
Proof.
  unfold call_erase_sector. destruct (hff_erase_sector _ _ _) as [rc s] eqn:E.
  eexists _, _. split; [reflexivity |]. split; [reflexivity |].
  split; simpl; [reflexivity | rewrite E; reflexivity].
Qed.

Lemma call_sector_info_run {St} (hf : hal_flash St) i w :
  exists w', call_sector_info hf i w
             = (Done (hff_sector_info (hf_itf hf) i), w') /\
    extends w w' [EvSectorInfo hf i (fst (hff_sector_info (hf_itf hf) i))].
Proof.
  unfold call_sector_info. eexists. split; [reflexivity |].
  split; reflexivity.
Qed.

(** ** hal_flash_align *)

(** C10.  [hal_flash_align] is a total function into the 8-bit range: it
    gives the alignment of the descriptor when the registry knows the id and
    1 when it does not, so that an unknown id looks like a device with
    alignment 1. *)
Theorem hal_flash_align_never_fails {St}
    (hal_bsp_flash_dev : Z -> option (hal_flash St)) (flash_id : Z) :
  u8 (hal_flash_align hal_bsp_flash_dev flash_id) /\
  (forall hf, hal_bsp_flash_dev flash_id = Some hf -> u8 (hf_align hf) ->
     hal_flash_align hal_bsp_flash_dev flash_id = hf_align hf) /\
  (hal_bsp_flash_dev flash_id = None ->
     hal_flash_align hal_bsp_flash_dev flash_id = 1) /\
  (forall other hf, hal_bsp_flash_dev flash_id = None ->
     hal_bsp_flash_dev other = Some hf -> hf_align hf = 1 ->
     hal_flash_align hal_bsp_flash_dev flash_id
     = hal_flash_align hal_bsp_flash_dev other).
Proof.
  unfold hal_flash_align. repeat split.
  - destruct (hal_bsp_flash_dev flash_id); [apply to_u8_range | lia].
  - destruct (hal_bsp_flash_dev flash_id); [apply to_u8_range | lia].
  - intros hf -> Hu. apply to_u8_small, Hu.
  - intros ->. reflexivity.
  - intros other hf -> -> ->. reflexivity.
Qed.

(** On the registry with the single device 0: id 0 and the unknown id 9 both
    give 1. *)
Lemma hal_flash_align_never_fails_one_dev :
  hal_flash_align (one_dev ram_flash) 0 = 1 /\
  hal_flash_align (one_dev ram_flash) 9 = 1 /\
  hal_flash_align (one_dev ram_flash) 9 = hal_flash_align (one_dev ram_flash) 0.
Proof.
  destruct (hal_flash_align_never_fails (one_dev ram_flash) 9)
    as (_ & _ & Hnone & Hsame).
  destruct (hal_flash_align_never_fails (one_dev ram_flash) 0)
    as (_ & Hsome & _).
  split; [apply (Hsome ram_flash); [reflexivity | unfold u8; simpl; lia] |].
  split; [apply Hnone; reflexivity |].
  apply (Hsame 0 ram_flash); reflexivity.
Defined.

(** ** The verification scans only read *)

Lemma cmp_erased_loop_reads {St} BUF fuel (hf : hal_flash St) address
    num_bytes :
  forall off w o w',
    hal_flash_cmp_erased_loop BUF fuel hf address num_bytes off w = (o, w') ->
    exists tr, extends w w' tr /\ Forall (fun e => is_read_call e = true) tr.
Proof.
  induction fuel as [| fuel IH]; intros off w o w' H; simpl in H.
  - inversion H; subst. exists []. split; [apply extends_nil | constructor].
  - destruct (off <? num_bytes).
    + destruct (call_read_run hf (add32 address off)
                  (chunk_size BUF (num_bytes - off)) w)
        as (rc & buf & w1 & Hr & _ & Hx).
      rewrite (bind_done _ _ _ _ _ Hr) in H.
      assert (Forall (fun e : event St => is_read_call e = true)
                [EvRead hf (add32 address off)
                   (chunk_size BUF (num_bytes - off)) rc]) as Hrd
        by (repeat constructor).
      destruct (negb (rc =? 0)).
      * inversion H; subst. eauto.
      * destruct (all_bytes buf _ 255).
        -- apply IH in H. destruct H as (tr & Hx' & Hf).
           exists ([EvRead hf (add32 address off)
                      (chunk_size BUF (num_bytes - off)) rc] ++ tr).
           split; [eapply extends_app; eauto |].
           apply Forall_app. auto.
        -- inversion H; subst. eauto.
    + inversion H; subst. exists []. split; [apply extends_nil | constructor].
Qed.

Lemma cmp_erased_reads {St} BUF fuel (hf : hal_flash St) address num_bytes
    w o w' :
  hal_flash_cmp_erased BUF fuel hf address num_bytes w = (o, w') ->
  exists tr, extends w w' tr /\ Forall (fun e => is_read_call e = true) tr.
Proof. apply cmp_erased_loop_reads. Qed.

Lemma reads_not_scan {St} (tr : list (event St)) :
  Forall (fun e => is_read_call e = true) tr ->
  filter is_scan_call tr = [] /\
  Forall (fun e => is_write_call e = false) tr /\
  Forall (fun e => erase_done e = true) tr.
Proof.
  induction 1 as [| e tr He _ (IH1 & IH2 & IH3)]; [repeat split; constructor |].
  destruct e; simpl in He; try discriminate.
  simpl. repeat split; auto.
Qed.

(** ** The sector scan of [hal_flash_erase], turn by turn *)

Lemma erase_loop_turn {St} VE BUF fuel (hf : hal_flash St) address end_ n i
    w o w' :
  hal_flash_erase_loop VE BUF fuel hf address end_ (S n) i w = (o, w') ->
  scan_turn VE BUF fuel hf address end_ n i w o w'.
Proof.
  intros H. simpl in H.
  destruct (call_sector_info_run hf i w) as (w1 & Hq & Hx1).
  rewrite (bind_done _ _ _ _ _ Hq) in H.
  destruct (hff_sector_info (hf_itf hf) i) as [rc [start size]] eqn:Eg.
  simpl in Hx1.
  unfold bind at 1, assert at 1 in H.
  destruct (Z.eqb_spec rc 0) as [-> | Hrc].
  2:{ inversion H; subst o w'.
      apply (turn_no_geometry _ _ _ _ _ _ _ _ _ _ _ rc); rewrite ?Eg; auto. }
  destruct (sector_hit address end_ start size) eqn:Eh.
  2:{ eapply turn_skip; eauto. }
  destruct (call_erase_sector_run hf start w1) as (e & w2 & He & Hev & Hx2).
  rewrite (bind_done _ _ _ _ _ He) in H.
  destruct (Z.eqb_spec e 0) as [-> | Hne]; simpl in H.
  2:{ inversion H; subst o w'. eapply turn_erase_failed; eauto. }
  destruct VE.
  - unfold bind at 1 in H.
    unfold bind at 1 in H.
    destruct (hal_flash_cmp_erased BUF fuel hf start size w2) as [c w3] eqn:Ec.
    destruct (cmp_erased_reads _ _ _ _ _ _ _ _ Ec) as (tr & Hx3 & Hrd).
    destruct c as [c | |].
    + unfold assert in H. destruct (c =? 0).
      * eapply turn_erased; eauto. discriminate.
      * inversion H; subst. eapply turn_verify_stopped; eauto.
    + inversion H; subst. eapply turn_verify_stopped; eauto.
    + inversion H; subst. eapply turn_verify_stopped; eauto.
  - unfold bind at 1, ret at 1 in H.
    eapply turn_erased; eauto using extends_nil.
Qed.

Lemma sector_hit_plan (address end_ start size : Z) :
  sector_hit address end_ start size
  = (address <? add32 start size) && (start <? end_).
Proof. unfold sector_hit. rewrite Z.gtb_ltb. reflexivity. Qed.

Lemma filter_scan_app {St} (l1 l2 : list (event St)) :
  filter is_scan_call (l1 ++ l2)
  = filter is_scan_call l1 ++ filter is_scan_call l2.
Proof. apply filter_app. Qed.

(** A scan that returns 0 has made the calls of the plan, turn by turn. *)
Lemma erase_loop_plan {St} VE BUF fuel (hf : hal_flash St) address end_ :
  forall n k w w',
    hal_flash_erase_loop VE BUF fuel hf address end_ n (Z.of_nat k) w
    = (Done 0, w') ->
    exists tr, extends w w' tr /\
      filter is_scan_call tr
      = flat_map (plan_turn hf address end_) (map Z.of_nat (seq k n)).
Proof.
  induction n as [| n IH]; intros k w w' H.
  - simpl in H. inversion H; subst. exists []. split; [apply extends_nil |].
    reflexivity.
  - apply erase_loop_turn in H.
    simpl seq. simpl map. simpl flat_map. unfold plan_turn at 1.
    destruct H as [rc ? ? ? Ho
                  | start size w1 Eg Eh Hx1 Hl
                  | start size w1 e Eg Eh Hx1 ? ? ? Ho
                  | start size w1 w2 w3 rd Eg Eh Hx1 He Hx2 Hx3 Hrd _ Hl
                  | start size w1 w2 rd _ Eg Eh Hx1 Hx2 Hx3 Hrd Ho];
      try discriminate; try (destruct Ho; discriminate);
      replace (Z.of_nat k + 1) with (Z.of_nat (S k)) in Hl by lia.
    + apply IH in Hl. destruct Hl as (tr & Hx & Hf).
      exists ([EvSectorInfo hf (Z.of_nat k) 0] ++ tr).
      split; [eapply extends_app; eauto |].
      rewrite Eg, <- sector_hit_plan, Eh. simpl. rewrite Hf. reflexivity.
    + apply IH in Hl. destruct Hl as (tr & Hx & Hf).
      destruct (reads_not_scan _ Hrd) as (Hrd0 & _).
      exists ([EvSectorInfo hf (Z.of_nat k) 0]
              ++ [EvEraseSector hf start 0] ++ rd ++ tr).
      split; [repeat (eapply extends_app; eauto) |].
      rewrite Eg, <- sector_hit_plan, Eh.
      rewrite !filter_scan_app, Hrd0, Hf. reflexivity.
Qed.

(** What a scan leaves in the log, however it ends: no write; either every
    erase it asked for was done and it did not return -1, or it returned -1
    and the failed erase is the last call it made. *)
Lemma erase_loop_shape {St} VE BUF fuel (hf : hal_flash St) address end_ :
  forall n i w o w',
    hal_flash_erase_loop VE BUF fuel hf address end_ n i w = (o, w') ->
    exists tr, extends w w' tr /\
      Forall (fun e => is_write_call e = false) tr /\
      ((Forall (fun e => erase_done e = true) tr /\ o <> Done (-1)) \/
       (exists pre s rc,
          tr = pre ++ [EvEraseSector hf s rc] /\ rc <> 0 /\
          Forall (fun e => erase_done e = true) pre /\ o = Done (-1))).
Proof.
  induction n as [| n IH]; intros i w o w' H.
  - simpl in H. inversion H; subst. exists []. split; [apply extends_nil |].
    split; [constructor |]. left. split; [constructor | discriminate].
  - apply erase_loop_turn in H.
    destruct H as [rc ? ? Hx1 Ho
                  | start size w1 Eg Eh Hx1 Hl
                  | start size w1 e Eg Eh Hx1 ? Hne Hx2 Ho
                  | start size w1 w2 w3 rd Eg Eh Hx1 He Hx2 Hx3 Hrd _ Hl
                  | start size w1 w2 rd _ Eg Eh Hx1 Hx2 Hx3 Hrd Ho].
    + exists [EvSectorInfo hf i rc]. split; [assumption |].
      split; [repeat constructor |]. left.
      split; [repeat constructor | subst; discriminate].
    + apply IH in Hl. destruct Hl as (tr & Hx & Hw & Hs).
      exists ([EvSectorInfo hf i 0] ++ tr).
      split; [eapply extends_app; eauto |].
      split; [constructor; [reflexivity | assumption] |].
      destruct Hs as [[Hd Ho] | (pre & s & rc & -> & Hrc & Hd & Ho)].
      * left. split; [constructor; [reflexivity | assumption] | assumption].
      * right. exists ([EvSectorInfo hf i 0] ++ pre), s, rc.
        split; [reflexivity |]. split; [assumption |].
        split; [constructor; [reflexivity | assumption] | assumption].
    + exists ([EvSectorInfo hf i 0] ++ [EvEraseSector hf start e]).
      split; [eapply extends_app; eauto |].
      split; [repeat constructor |]. right.
      exists [EvSectorInfo hf i 0], start, e.
      split; [reflexivity |]. split; [assumption |].
      split; [repeat constructor | assumption].
    + apply IH in Hl. destruct Hl as (tr & Hx & Hw & Hs).
      destruct (reads_not_scan _ Hrd) as (_ & Hrw & Hrdone).
      assert (Forall (fun e : event St => erase_done e = true)
                ([EvSectorInfo hf i 0] ++ [EvEraseSector hf start 0] ++ rd))
        as Hhead by (repeat (constructor; [reflexivity |]); assumption).
      exists (([EvSectorInfo hf i 0] ++ [EvEraseSector hf start 0] ++ rd)
              ++ tr).
      split; [repeat (eapply extends_app; eauto) |].
      split.
      { apply Forall_app. split; [| assumption].
        repeat (constructor; [reflexivity |]). assumption. }
      destruct Hs as [[Hd Ho] | (pre & s & rc & -> & Hrc & Hd & Ho)].
      * left. split; [apply Forall_app; auto | assumption].
      * right.
        exists (([EvSectorInfo hf i 0] ++ [EvEraseSector hf start 0] ++ rd)
                ++ pre), s, rc.
        split; [rewrite app_assoc; reflexivity |]. split; [assumption |].
        split; [apply Forall_app; auto | assumption].
    + destruct (reads_not_scan _ Hrd) as (_ & Hrw & Hrdone).
      exists ([EvSectorInfo hf i 0] ++ [EvEraseSector hf start 0] ++ rd).
      split; [repeat (eapply extends_app; eauto) |].
      split; [repeat (constructor; [reflexivity |]); assumption |].
      left. split; [repeat (constructor; [reflexivity |]); assumption |].
      destruct Ho; subst; discriminate.
Qed.

(** With the verification of erases off, a scan over sectors whose geometry
    the driver knows and whose erases succeed returns 0. *)
Lemma erase_loop_completes {St} BUF fuel (hf : hal_flash St) address end_ :
  (forall a s, fst (hff_erase_sector (hf_itf hf) a s) = 0) ->
  forall n k w,
    (forall j, Z.of_nat k <= j < Z.of_nat k + Z.of_nat n ->
       fst (hff_sector_info (hf_itf hf) j) = 0) ->
    exists w',
      hal_flash_erase_loop false BUF fuel hf address end_ n (Z.of_nat k) w
      = (Done 0, w').
Proof.
  intros Hok. induction n as [| n IH]; intros k w Hgeo.
  - eexists. reflexivity.
  - simpl.
    destruct (call_sector_info_run hf (Z.of_nat k) w) as (w1 & Hq & _).
    rewrite (bind_done _ _ _ _ _ Hq).
    pose proof (Hgeo (Z.of_nat k) ltac:(lia)) as Hrc.
    destruct (hff_sector_info (hf_itf hf) (Z.of_nat k)) as [rc [start size]].
    simpl in Hrc. subst rc. unfold bind at 1, assert at 1. simpl.
    assert (forall j, Z.of_nat (S k) <= j < Z.of_nat (S k) + Z.of_nat n ->
              fst (hff_sector_info (hf_itf hf) j) = 0) as Hgeo'
      by (intros j Hj; apply Hgeo; lia).
    destruct (sector_hit address end_ start size).
    + destruct (call_erase_sector_run hf start w1) as (e & w2 & He & Hev & _).
      rewrite (bind_done _ _ _ _ _ He).
      rewrite Hok in Hev. subst e.
      change (negb (0 =? 0)) with false. cbv iota.
      unfold bind at 1, ret at 1.
      replace (Z.of_nat k + 1) with (Z.of_nat (S k)) by lia.
      apply IH, Hgeo'.
    + replace (Z.of_nat k + 1) with (Z.of_nat (S k)) by lia.
      apply IH, Hgeo'.
Qed.

Lemma scan_calls_keep {St} (tr : list (event St)) :
  erased_sectors (filter is_scan_call tr) = erased_sectors tr /\
  queried_sectors (filter is_scan_call tr) = queried_sectors tr.
Proof.
  induction tr as [| e tr [IH1 IH2]]; [split; reflexivity |].
  destruct e; simpl; rewrite ?IH1, ?IH2; split; auto.
Qed.

(** A failed erase after calls that were all done is found at one place. *)
Lemma failed_erase_is_last {St} (pre0 : list (event St)) x0 :
  Forall (fun e => erase_done e = true) pre0 ->
  forall pre x post,
    pre0 ++ [x0] = pre ++ x :: post -> erase_done x = false ->
    pre = pre0 /\ x = x0 /\ post = [].
Proof.
  induction 1 as [| e pre0 He _ IH]; intros pre x post Heq Hx.
  - destruct pre as [| p pre]; simpl in Heq.
    + inversion Heq; subst. auto.
    + inversion Heq as [[Hp Hnil]]. destruct pre; discriminate.
  - destruct pre as [| p pre]; simpl in Heq.
    + inversion Heq; subst. congruence.
    + inversion Heq as [[Hp Hrest]]. subst p.
      destruct (IH _ _ _ Hrest Hx) as (-> & -> & ->). auto.
Qed.

Lemma extends_self {St} (w : world St) tr : extends w w tr -> tr = [].
Proof.
  intros [H _]. rewrite <- (app_nil_r (w_calls w)) in H at 1.
  apply app_inv_head in H. auto.
Qed.

Lemma erased_sectors_app {St} (l1 l2 : list (event St)) :
  erased_sectors (l1 ++ l2) = erased_sectors l1 ++ erased_sectors l2.
Proof. apply flat_map_app. Qed.

Lemma queried_sectors_app {St} (l1 l2 : list (event St)) :
  queried_sectors (l1 ++ l2) = queried_sectors l1 ++ queried_sectors l2.
Proof. apply flat_map_app. Qed.

Lemma reads_not_listed {St} (tr : list (event St)) :
  Forall (fun e => is_read_call e = true) tr ->
  queried_sectors tr = [] /\ erased_sectors tr = [].
Proof.
  intros H. destruct (reads_not_scan _ H) as (Hf & _).
  destruct (scan_calls_keep tr) as [He Hq].
  rewrite <- He, <- Hq, Hf. split; reflexivity.
Qed.

(** However a scan ends, the sectors it has queried are the first of the
    indices it was to go through, in their order, and the sectors it has
    asked the driver to erase are the first of those the plan erases. *)
Lemma erase_loop_prefix {St} VE BUF fuel (hf : hal_flash St) address end_ :
  forall n k w o w',
    hal_flash_erase_loop VE BUF fuel hf address end_ n (Z.of_nat k) w
    = (o, w') ->
    exists tr, extends w w' tr /\
      (exists rest, queried_sectors tr ++ rest = map Z.of_nat (seq k n)) /\
      (exists rest,
         erased_sectors tr ++ rest
         = erased_sectors
             (flat_map (plan_turn hf address end_) (map Z.of_nat (seq k n)))).
Proof.
  induction n as [| n IH]; intros k w o w' H.
  - simpl in H. inversion H; subst. exists [].
    split; [apply extends_nil |]. split; exists []; reflexivity.
  - apply erase_loop_turn in H.
    simpl seq. simpl map. simpl flat_map. unfold plan_turn at 1.
    destruct H as [rc Hrc ? Hx1 Ho
                  | start size w1 Eg Eh Hx1 Hl
                  | start size w1 e Eg Eh Hx1 ? Hne Hx2 Ho
                  | start size w1 w2 w3 rd Eg Eh Hx1 He Hx2 Hx3 Hrd _ Hl
                  | start size w1 w2 rd _ Eg Eh Hx1 Hx2 Hx3 Hrd Ho];
      try (replace (Z.of_nat k + 1) with (Z.of_nat (S k)) in Hl by lia;
           apply IH in Hl; destruct Hl as (tr & Hx & [r1 Hq] & [r2 He']));
      try (destruct (reads_not_listed _ Hrd) as [Hrq Hre]);
      try rewrite Eg; rewrite <- ?sector_hit_plan, ?Eh.
    + exists [EvSectorInfo hf (Z.of_nat k) rc]. split; [exact Hx1 |].
      split; eexists; reflexivity.
    + exists ([EvSectorInfo hf (Z.of_nat k) 0] ++ tr).
      split; [eapply extends_app; eauto |].
      split; [exists r1 | exists r2]; simpl; rewrite ?Hq, ?He'; reflexivity.
    + exists ([EvSectorInfo hf (Z.of_nat k) 0] ++ [EvEraseSector hf start e]).
      split; [eapply extends_app; eauto |].
      split; eexists; reflexivity.
    + exists ([EvSectorInfo hf (Z.of_nat k) 0]
              ++ [EvEraseSector hf start 0] ++ rd ++ tr).
      split; [repeat (eapply extends_app; eauto) |].
      split; [exists r1 | exists r2]; simpl;
        rewrite ?queried_sectors_app, ?erased_sectors_app, ?Hrq, ?Hre; simpl;
        rewrite ?Hq, ?He'; reflexivity.
    + exists ([EvSectorInfo hf (Z.of_nat k) 0]
              ++ [EvEraseSector hf start 0] ++ rd).
      split; [repeat (eapply extends_app; eauto) |].
      split; eexists; simpl; rewrite ?Hrq, ?Hre; simpl; reflexivity.
Qed.

(** A scan with a turn to make starts with the geometry query of its
    index. *)
Lemma erase_loop_first_query {St} VE BUF fuel (hf : hal_flash St) address
    end_ n i w o w' :
  hal_flash_erase_loop VE BUF fuel hf address end_ (S n) i w = (o, w') ->
  exists tr,
    w_calls w' = w_calls w
                 ++ EvSectorInfo hf i (fst (hff_sector_info (hf_itf hf) i))
                 :: tr.
Proof.
  intros H. apply erase_loop_turn in H.
  destruct H as [rc Hrc ? Hx1 Ho
                | start size w1 Eg Eh Hx1 Hl
                | start size w1 e Eg Eh Hx1 ? Hne Hx2 Ho
                | start size w1 w2 w3 rd Eg Eh Hx1 He Hx2 Hx3 Hrd _ Hl
                | start size w1 w2 rd _ Eg Eh Hx1 Hx2 Hx3 Hrd Ho];
    try rewrite Eg; simpl fst.
  - exists []. subst rc. apply Hx1.
  - apply erase_loop_shape in Hl. destruct Hl as (tr & Hx & _).
    exists tr. apply (extends_app _ _ _ _ _ Hx1 Hx).
  - eexists. apply (extends_app _ _ _ _ _ Hx1 Hx2).
  - apply erase_loop_shape in Hl. destruct Hl as (tr & Hx & _).
    eexists.
    apply (extends_app _ _ _ _ _ Hx1
             (extends_app _ _ _ _ _ Hx2 (extends_app _ _ _ _ _ Hx3 Hx))).
  - eexists.
    apply (extends_app _ _ _ _ _ Hx1 (extends_app _ _ _ _ _ Hx2 Hx3)).
Qed.

(** ** hal_flash_erase *)

Section Erase.

Context {St : Type}.
Variable hal_bsp_flash_dev : Z -> option (hal_flash St).
Variable HAL_FLASH_VERIFY_ERASES : bool.
Variable HAL_FLASH_VERIFY_BUF_SZ : Z.

Variable fuel : nat.

(** A request that passes the validation and is neither empty nor wrapping
    goes to the scan. *)
Lemma erase_valid_goes_to_scan id hf address num_bytes w :
  hal_bsp_flash_dev id = Some hf ->
  u32 address -> u32 num_bytes ->
  hal_flash_check_addr hf address = 0 ->
  hal_flash_check_addr hf (add32 address num_bytes) = 0 ->
  0 < num_bytes -> address + num_bytes <= u32_max ->
  hal_flash_erase hal_bsp_flash_dev HAL_FLASH_VERIFY_ERASES
    HAL_FLASH_VERIFY_BUF_SZ fuel id address num_bytes w
  = hal_flash_erase_loop HAL_FLASH_VERIFY_ERASES HAL_FLASH_VERIFY_BUF_SZ
      fuel hf address (address + num_bytes)
      (Z.to_nat (hf_sector_cnt hf)) 0 w.
Proof.
  intros Hdev Ha Hn Hc1 Hc2 Hpos Hfit.
  unfold hal_flash_erase. rewrite Hdev.
  assert (check_range hf address num_bytes = false) as ->
    by (apply check_range_false; auto).
  unfold u32 in *. rewrite add32_small by lia.
  destruct (Z.leb_spec (address + num_bytes) address); [lia | reflexivity].
Qed.

(** C2 (as amended).  For a request that passes the validation, is not
    empty and does not wrap.  However [hal_flash_erase] ends, the sector
    indices it has queried are the first of 0 .. sector_cnt - 1, in ascending
    order, and the sectors it has asked the driver to erase are the first of
    those the plan erases.  When it returns 0, its geometry queries and
    sector erases are those of the whole plan: every index 0 ..
    sector_cnt - 1 in ascending order, each queried once and followed by one
    erase at the sector's start exactly when address < start + size (a
    32-bit sum) and address + num_bytes > start.  It does return 0 when the
    verification of erases is off, the driver knows the geometry of each of
    these sectors and none of its erases fails. *)
Theorem hal_flash_erase_follows_plan id hf address num_bytes w :
  hal_bsp_flash_dev id = Some hf ->
  u32 address -> u32 num_bytes ->
  hal_flash_check_addr hf address = 0 ->
  hal_flash_check_addr hf (add32 address num_bytes) = 0 ->
  0 < num_bytes -> address + num_bytes <= u32_max ->
  (forall o w',
     hal_flash_erase hal_bsp_flash_dev HAL_FLASH_VERIFY_ERASES
       HAL_FLASH_VERIFY_BUF_SZ fuel id address num_bytes w = (o, w') ->
     exists tr, extends w w' tr /\
       (exists rest,
          queried_sectors tr ++ rest = sector_indices (hf_sector_cnt hf)) /\
       (exists rest,
          erased_sectors tr ++ rest
          = erased_sectors (erase_plan hf address (address + num_bytes)))) /\
  (forall w',
     hal_flash_erase hal_bsp_flash_dev HAL_FLASH_VERIFY_ERASES
       HAL_FLASH_VERIFY_BUF_SZ fuel id address num_bytes w = (Done 0, w') ->
     exists tr, extends w w' tr /\
       filter is_scan_call tr = erase_plan hf address (address + num_bytes)) /\
  (HAL_FLASH_VERIFY_ERASES = false ->
   (forall i, 0 <= i < hf_sector_cnt hf ->
      fst (hff_sector_info (hf_itf hf) i) = 0) ->
   (forall a s, fst (hff_erase_sector (hf_itf hf) a s) = 0) ->
   exists w',
     hal_flash_erase hal_bsp_flash_dev HAL_FLASH_VERIFY_ERASES
       HAL_FLASH_VERIFY_BUF_SZ fuel id address num_bytes w = (Done 0, w')).
Proof.
  intros Hdev Ha Hn Hc1 Hc2 Hpos Hfit.
  rewrite (erase_valid_goes_to_scan id hf address num_bytes w) by auto.
  split; [| split].
  - intros o w' H. apply (erase_loop_prefix _ _ _ _ _ _ _ 0%nat) in H.
    exact H.
  - intros w' H. apply (erase_loop_plan _ _ _ _ _ _ _ 0%nat) in H. exact H.
  - intros Hve Hgeo Hok. rewrite Hve.
    apply (erase_loop_completes _ _ _ _ _ Hok _ 0%nat).
    intros j Hj. apply Hgeo. lia.
Qed.

(** C3 (as amended).  For a request on a known device that passes the
    validation, [hal_flash_erase] returns -1 with no driver call made exactly
    when address + num_bytes leaves the 32-bit range or num_bytes is 0;
    every other such request goes to the sector scan, which starts, on a
    device with sectors, with the geometry query of sector 0. *)
Theorem hal_flash_erase_rejects_wrap_or_empty id hf address num_bytes w :
  hal_bsp_flash_dev id = Some hf ->
  u32 address -> u32 num_bytes ->
  hal_flash_check_addr hf address = 0 ->
  hal_flash_check_addr hf (add32 address num_bytes) = 0 ->
  (hal_flash_erase hal_bsp_flash_dev HAL_FLASH_VERIFY_ERASES
     HAL_FLASH_VERIFY_BUF_SZ fuel id address num_bytes w = (Done (-1), w) <->
   u32_max < address + num_bytes \/ num_bytes = 0) /\
  (address + num_bytes <= u32_max -> num_bytes <> 0 ->
   hal_flash_erase hal_bsp_flash_dev HAL_FLASH_VERIFY_ERASES
     HAL_FLASH_VERIFY_BUF_SZ fuel id address num_bytes w
   = hal_flash_erase_loop HAL_FLASH_VERIFY_ERASES HAL_FLASH_VERIFY_BUF_SZ
       fuel hf address (address + num_bytes)
       (Z.to_nat (hf_sector_cnt hf)) 0 w /\
   (0 < hf_sector_cnt hf ->
    exists tr,
      w_calls (snd (hal_flash_erase hal_bsp_flash_dev HAL_FLASH_VERIFY_ERASES
                      HAL_FLASH_VERIFY_BUF_SZ fuel id address num_bytes w))
      = w_calls w
        ++ EvSectorInfo hf 0 (fst (hff_sector_info (hf_itf hf) 0)) :: tr)).
Proof.
  intros Hdev Ha Hn Hc1 Hc2.
  assert (address + num_bytes <= u32_max -> num_bytes <> 0 ->
          hal_flash_erase hal_bsp_flash_dev HAL_FLASH_VERIFY_ERASES
            HAL_FLASH_VERIFY_BUF_SZ fuel id address num_bytes w
          = hal_flash_erase_loop HAL_FLASH_VERIFY_ERASES
              HAL_FLASH_VERIFY_BUF_SZ fuel hf address (address + num_bytes)
              (Z.to_nat (hf_sector_cnt hf)) 0 w) as Hscan.
  { intros Hfit Hnz. apply erase_valid_goes_to_scan; auto.
    unfold u32 in *. lia. }
  split; [split |].
  - intros H.
    destruct (Z.lt_ge_cases u32_max (address + num_bytes)) as [| Hfit];
      [left; assumption |].
    destruct (Z.eq_dec num_bytes 0) as [| Hnz]; [right; assumption |].
    exfalso. rewrite Hscan in H by assumption.
    apply erase_loop_shape in H.
    destruct H as (tr & Hx & _ & [[_ Ho] | (pre & s & rc & -> & _)]).
    + apply Ho. reflexivity.
    + apply extends_self in Hx. destruct pre; discriminate.
  - intros Hcase. unfold hal_flash_erase. rewrite Hdev.
    assert (check_range hf address num_bytes = false) as ->
      by (apply check_range_false; auto).
    assert (add32 address num_bytes <= address) as Hle.
    { unfold u32 in *. destruct Hcase as [Hwrap | ->].
      - rewrite add32_wrap by (unfold u32; lia). unfold u32_max in *. lia.
      - rewrite add32_small by lia. lia. }
    destruct (Z.leb_spec (add32 address num_bytes) address);
      [reflexivity | lia].
  - intros Hfit Hnz. split; [apply Hscan; assumption |].
    intros Hcnt. rewrite Hscan by assumption.
    destruct (Z.to_nat (hf_sector_cnt hf)) as [| n] eqn:En; [lia |].
    destruct (hal_flash_erase_loop _ _ _ _ _ _ _ _ _) as [o w'] eqn:El.
    apply erase_loop_first_query in El. exact El.
Qed.

(** C6.  Whenever the log of a run of [hal_flash_erase] holds an erase that
    the driver failed, the run has returned -1, the failed erase is the last
    driver call of the run, the calls before it hold no write and no other
    failed erase, and the devices are in the state the failed erase left
    them in after the calls before it. *)
Theorem hal_flash_erase_stops_at_failed_erase id address num_bytes
    w o w' pre hf s rc post :
  hal_flash_erase hal_bsp_flash_dev HAL_FLASH_VERIFY_ERASES
    HAL_FLASH_VERIFY_BUF_SZ fuel id address num_bytes w = (o, w') ->
  w_calls w' = w_calls w ++ pre ++ EvEraseSector hf s rc :: post ->
  rc <> 0 ->
  o = Done (-1) /\ post = [] /\
  Forall (fun e => is_write_call e = false) pre /\
  Forall (fun e => erase_done e = true) pre /\
  w_dev w' = snd (hff_erase_sector (hf_itf hf) s (replay pre (w_dev w))).
Proof.
  intros Hrun Hlog Hrc.
  assert (erase_done (EvEraseSector hf s rc) = false) as Hfailed
    by (simpl; apply Z.eqb_neq; exact Hrc).
  assert (forall r, (Done r, w) = (o, w') -> False) as Hearly.
  { intros r H. inversion H; subst.
    rewrite <- (app_nil_r (w_calls w')) in Hlog at 1.
    apply app_inv_head in Hlog. destruct pre; discriminate. }
  unfold hal_flash_erase in Hrun.
  destruct (hal_bsp_flash_dev id) as [hf0 |];
    [| exfalso; eapply Hearly; exact Hrun].
  destruct (check_range hf0 address num_bytes);
    [exfalso; eapply Hearly; exact Hrun |].
  destruct (add32 address num_bytes <=? address);
    [exfalso; eapply Hearly; exact Hrun |].
  apply erase_loop_shape in Hrun.
  destruct Hrun as (tr & [Hcalls Hdev] & Hw & Hshape).
  rewrite Hcalls in Hlog. apply app_inv_head in Hlog. subst tr.
  destruct Hshape as [[Hd _] | (pre0 & s0 & rc0 & Heq & _ & Hd & Ho)].
  - apply Forall_app in Hd. destruct Hd as [_ Hd].
    inversion Hd; subst. congruence.
  - symmetry in Heq.
    destruct (failed_erase_is_last _ _ Hd _ _ _ Heq Hfailed)
      as (-> & Hx & ->).
    apply Forall_app in Hw. destruct Hw as [Hw _].
    repeat split; auto.
    rewrite Hdev. unfold replay. rewrite fold_left_app. reflexivity.
Qed.

End Erase.

(** The example of the specification: on the device at [0x8000] with four
    sectors of [0x400] bytes, erasing [0x200] bytes from [0x8300] queries the
    four sectors in order and erases the sectors at [0x8000] and [0x8400]. *)
Lemma hal_flash_erase_follows_plan_ram :
  exists w',
    hal_flash_erase (one_dev ram_flash) false 16 0 0 33536 512 (boot zeroed)
    = (Done 0, w') /\
    queried_sectors (w_calls w') = [0; 1; 2; 3] /\
    erased_sectors (w_calls w') = [32768; 33792].
Proof.
  destruct (hal_flash_erase_follows_plan (one_dev ram_flash) false 16 0%nat
              0 ram_flash 33536 512 (boot zeroed)) as (_ & Hplan & Hdone);
    try reflexivity; try (unfold u32, u32_max; lia).
  destruct Hdone as [w' Hrun]; [reflexivity | | intros; reflexivity |].
  { intros i Hi. simpl in Hi. unfold ram_flash, ram_itf, ram_sector_info.
    simpl. destruct (Z.leb_spec 0 i); [| lia].
    destruct (Z.ltb_spec i 4); [reflexivity | lia]. }
  exists w'. split; [exact Hrun |].
  destruct (Hplan w' Hrun) as (tr & [Hcalls _] & Hscan).
  simpl in Hcalls. rewrite Hcalls.
  destruct (scan_calls_keep tr) as [He Hq].
  rewrite <- He, <- Hq, Hscan. split; reflexivity.
Defined.

(** C2 as stated fails: a request over the sectors 0, 1 and 2 of a device
    whose sector at [0x8400] cannot be erased passes the validation, stops at
    the failed erase and never visits sector 2, which the range meets. *)
Lemma hal_flash_erase_worn_flash_stops_early :
  hal_flash_check_addr worn_flash 33536 = 0 /\
  hal_flash_check_addr worn_flash (add32 33536 1536) = 0 /\
  33536 < 33536 + 1536 <= u32_max /\
  hff_sector_info (hf_itf worn_flash) 2 = (0, (34816, 1024)) /\
  sector_hit 33536 (33536 + 1536) 34816 1024 = true /\
  fst (hal_flash_erase (one_dev worn_flash) false 16 0 0 33536 1536
         (boot zeroed)) = Done (-1) /\
  queried_sectors
    (w_calls (snd (hal_flash_erase (one_dev worn_flash) false 16 0 0 33536
                     1536 (boot zeroed)))) = [0; 1] /\
  ~ In 34816
      (erased_sectors
         (w_calls (snd (hal_flash_erase (one_dev worn_flash) false 16 0 0
                          33536 1536 (boot zeroed))))).
Proof.
  repeat split; try reflexivity; try (unfold u32_max; lia).
  vm_compute. intros [H | [H | []]]; discriminate.
Qed.

(** On the example device the empty request at [0x8000] is turned down
    before any driver call, and the request of [0x200] bytes at [0x8300]
    starts its scan with the query of sector 0. *)
Lemma hal_flash_erase_rejects_wrap_or_empty_ram :
  hal_flash_erase (one_dev ram_flash) false 16 0 0 32768 0 (boot zeroed)
  = (Done (-1), boot zeroed) /\
  exists tr,
    w_calls (snd (hal_flash_erase (one_dev ram_flash) false 16 0 0 33536 512
                    (boot zeroed)))
    = EvSectorInfo ram_flash 0 0 :: tr.
Proof.
  split.
  - apply (hal_flash_erase_rejects_wrap_or_empty (one_dev ram_flash) false
             16 0%nat 0 ram_flash 32768 0 (boot zeroed)).
    + reflexivity.
    + unfold u32, u32_max. lia.
    + unfold u32, u32_max. lia.
    + reflexivity.
    + reflexivity.
    + right. reflexivity.
  - destruct (hal_flash_erase_rejects_wrap_or_empty (one_dev ram_flash) false
                16 0%nat 0 ram_flash 33536 512 (boot zeroed))
      as [_ Hscan].
    + reflexivity.
    + unfold u32, u32_max. lia.
    + unfold u32, u32_max. lia.
    + reflexivity.
    + reflexivity.
    + destruct Hscan as [_ Hfirst]; [unfold u32_max; lia | lia |].
      destruct Hfirst as [tr Htr]; [simpl; lia |].
      exists tr. exact Htr.
Defined.

(** C3 as stated fails: a request of no bytes passes the validation and does
    not wrap, and is turned down all the same. *)
Lemma hal_flash_erase_empty_request_fails :
  hal_flash_check_addr ram_flash 32768 = 0 /\
  hal_flash_check_addr ram_flash (add32 32768 0) = 0 /\
  32768 + 0 <= u32_max /\
  hal_flash_erase (one_dev ram_flash) false 16 0 0 32768 0 (boot zeroed)
  = (Done (-1), boot zeroed).
Proof.
  repeat split; try reflexivity. unfold u32_max. lia.
Qed.

(** On the worn device the scan stops at the erase of [0x8400]; the sector at
    [0x8000] has been erased and stays so. *)
Lemma hal_flash_erase_stops_at_failed_erase_worn :
  fst (hal_flash_erase (one_dev worn_flash) false 16 0 0 33536 1536
         (boot zeroed)) = Done (-1) /\
  w_calls (snd (hal_flash_erase (one_dev worn_flash) false 16 0 0 33536 1536
                  (boot zeroed)))
  = [EvSectorInfo worn_flash 0 0; EvEraseSector worn_flash 32768 0;
     EvSectorInfo worn_flash 1 0; EvEraseSector worn_flash 33792 (-5)] /\
  w_dev (snd (hal_flash_erase (one_dev worn_flash) false 16 0 0 33536 1536
                (boot zeroed))) 32768 = 255.
Proof.
  destruct (hal_flash_erase_stops_at_failed_erase (one_dev worn_flash) false
              16 0%nat 0 33536 1536 (boot zeroed)
              (fst (hal_flash_erase (one_dev worn_flash) false 16 0 0 33536
                      1536 (boot zeroed)))
              (snd (hal_flash_erase (one_dev worn_flash) false 16 0 0 33536
                      1536 (boot zeroed)))
              [EvSectorInfo worn_flash 0 0; EvEraseSector worn_flash 32768 0;
               EvSectorInfo worn_flash 1 0]
              worn_flash 33792 (-5) [])
    as (Ho & _ & _ & _ & Hdev).
  - apply surjective_pairing.
  - reflexivity.
  - discriminate.
  - split; [exact Ho |]. split; [reflexivity |].
    rewrite Hdev. reflexivity.
Defined.

(** ** hal_flash_write: requests that are turned down *)

(** C5.  A write to an unknown id, or one whose address or (32-bit)
    address + num_bytes fails [hal_flash_check_addr], in particular one whose
    address + num_bytes is above base + size, returns -1 and leaves the world
    as it was: no driver call is logged and the devices have not moved. *)
Theorem hal_flash_write_rejects_before_driver {St}
    (hal_bsp_flash_dev : Z -> option (hal_flash St))
    (HAL_FLASH_VERIFY_WRITES : bool) (HAL_FLASH_VERIFY_BUF_SZ : Z)
    (fuel : nat) (id address : Z) (src : list Z) (num_bytes : Z)
    (w : world St) :
  hal_bsp_flash_dev id = None \/
  (exists hf, hal_bsp_flash_dev id = Some hf /\
     (hal_flash_check_addr hf address <> 0 \/
      hal_flash_check_addr hf (add32 address num_bytes) <> 0 \/
      add32 (hf_base_addr hf) (hf_size hf) < add32 address num_bytes)) ->
  hal_flash_write hal_bsp_flash_dev HAL_FLASH_VERIFY_WRITES
    HAL_FLASH_VERIFY_BUF_SZ fuel id address src num_bytes w
  = (Done (-1), w).
Proof.
  intros [Hnone | (hf & Hdev & Hbad)]; unfold hal_flash_write.
  - rewrite Hnone. reflexivity.
  - rewrite Hdev.
    assert (check_range hf address num_bytes = true) as ->; [| reflexivity].
    apply check_range_true.
    destruct Hbad as [H | [H | H]]; [left; exact H | right; exact H |].
    right. assert (hal_flash_check_addr hf (add32 address num_bytes) = -1)
      as -> by (apply check_addr_fail_iff; right; exact H).
    discriminate.
Qed.

(** A write of [0x200] bytes at [0x8F00] of the example device would end at
    [0x9100]: it is turned down and the log stays empty; so is a write to the
    unknown id 3. *)
Lemma hal_flash_write_rejects_before_driver_ram :
  hal_flash_write (one_dev ram_flash) true 16 40 0 36608 (repeat 1 512) 512
    (boot zeroed)
  = (Done (-1), boot zeroed) /\
  hal_flash_write (one_dev ram_flash) true 16 40 3 32768 [1; 2; 3] 3
    (boot zeroed)
  = (Done (-1), boot zeroed).
Proof.
  split.
  - apply hal_flash_write_rejects_before_driver.
    right. exists ram_flash. split; [reflexivity |].
    right. right. vm_compute. reflexivity.
  - apply hal_flash_write_rejects_before_driver.
    left. reflexivity.
Defined.

(** ** hal_flash_isempty *)

(** C8.  For a request on a known device that passes the validation,
    [hal_flash_isempty] is the one call of the driver's is-empty capability,
    whose status it returns, when the driver has one, and is
    [hal_flash_is_ones], that is [hal_flash_is_setto] with 0xFF, over the
    same range when it has none. *)
Theorem hal_flash_isempty_driver_or_is_ones {St}
    (hal_bsp_flash_dev : Z -> option (hal_flash St))
    (id : Z) (hf : hal_flash St) (address num_bytes : Z) (w : world St) :
  hal_bsp_flash_dev id = Some hf ->
  hal_flash_check_addr hf address = 0 ->
  hal_flash_check_addr hf (add32 address num_bytes) = 0 ->
  (forall f, hff_is_empty (hf_itf hf) = Some f ->
     hal_flash_isempty hal_bsp_flash_dev id address num_bytes w
     = (Done (fst (f address num_bytes (w_dev w))),
        log (snd (f address num_bytes (w_dev w)))
            (EvIsEmpty hf address num_bytes
               (fst (f address num_bytes (w_dev w)))) w)) /\
  (hff_is_empty (hf_itf hf) = None ->
     hal_flash_isempty hal_bsp_flash_dev id address num_bytes w
     = hal_flash_is_ones hf address num_bytes w /\
     hal_flash_is_ones hf address num_bytes w
     = hal_flash_is_setto hf address num_bytes 255 w).
Proof.
  intros Hdev Hc1 Hc2. unfold hal_flash_isempty. rewrite Hdev.
  assert (check_range hf address num_bytes = false) as ->
    by (apply check_range_false; auto).
  split.
  - intros f ->. unfold call_is_empty.
    destruct (f address num_bytes (w_dev w)). reflexivity.
  - intros ->. split; reflexivity.
Qed.

(** The device with an is-empty capability of its own answers with the
    status of that capability, here 7, and is not read; the example device,
    which has none, is scanned by [hal_flash_is_ones]. *)
Lemma hal_flash_isempty_driver_or_is_ones_smart :
  hal_flash_isempty (one_dev smart_flash) 0 32768 64 (boot zeroed)
  = (Done 7,
     {| w_dev := zeroed;
        w_calls := [EvIsEmpty smart_flash 32768 64 7] |}) /\
  hal_flash_isempty (one_dev ram_flash) 0 32768 64 (boot zeroed)
  = hal_flash_is_ones ram_flash 32768 64 (boot zeroed).
Proof.
  split.
  - destruct (hal_flash_isempty_driver_or_is_ones (one_dev smart_flash) 0
                smart_flash 32768 64 (boot zeroed)) as [Hdrv _].
    + reflexivity.
    + reflexivity.
    + reflexivity.
    + exact (Hdrv _ eq_refl).
  - destruct (hal_flash_isempty_driver_or_is_ones (one_dev ram_flash) 0
                ram_flash 32768 64 (boot zeroed)) as [_ Hones].
    + reflexivity.
    + reflexivity.
    + reflexivity.
    + destruct (Hones eq_refl) as [H _]. exact H.
Defined.

(** ** hal_flash_init *)

Lemma init_loop_unfold {St} (hal_bsp_flash_dev : Z -> option (hal_flash St))
    fuel i rc :
  hal_flash_init_loop hal_bsp_flash_dev (S fuel) i rc
  = match hal_bsp_flash_dev i with
    | None => ret rc
    | Some hf =>
        bind (call_init hf)
          (fun r => hal_flash_init_loop hal_bsp_flash_dev fuel
                      (to_u8 (i + 1)) (if r =? 0 then rc else -1))
    end.
Proof. reflexivity. Qed.

Lemma init_loop_run {St} (hal_bsp_flash_dev : Z -> option (hal_flash St)) :
  forall devs k rc fuel w,
    (forall j, (j < length devs)%nat ->
       hal_bsp_flash_dev (Z.of_nat (k + j)) = nth_error devs j) ->
    hal_bsp_flash_dev (Z.of_nat (k + length devs)) = None ->
    (k + length devs <= 255)%nat -> (length devs < fuel)%nat ->
    exists w',
      hal_flash_init_loop hal_bsp_flash_dev fuel (Z.of_nat k) rc w
      = (Done (if forallb (fun r => r =? 0) (init_results devs (w_dev w))
               then rc else -1), w') /\
      extends w w' (init_calls devs (init_results devs (w_dev w))).
Proof.
  induction devs as [| hf devs IH]; intros k rc fuel w Hsome Hnone Hmax Hfuel;
    (destruct fuel as [| fuel]; [simpl in Hfuel; lia |]);
    rewrite init_loop_unfold.
  - simpl in Hnone. rewrite Nat.add_0_r in Hnone. rewrite Hnone.
    exists w. split; [reflexivity | apply extends_nil].
  - pose proof (Hsome 0%nat ltac:(simpl; lia)) as H0.
    rewrite Nat.add_0_r in H0. simpl in H0. rewrite H0.
    simpl length in Hmax, Hfuel, Hnone.
    destruct (call_init_run hf w) as (r & w1 & Hr & Hrc & Hx).
    rewrite (bind_done _ _ _ _ _ Hr).
    assert (to_u8 (Z.of_nat k + 1) = Z.of_nat (S k)) as ->.
    { rewrite to_u8_small by (unfold u8; lia). lia. }
    destruct (IH (S k) (if r =? 0 then rc else -1) fuel w1)
      as (w' & Hrun & Hx').
    + intros j Hj. pose proof (Hsome (S j) ltac:(simpl; lia)) as Hj'.
      simpl nth_error in Hj'. rewrite <- Hj'. f_equal. lia.
    + rewrite <- Hnone. f_equal. lia.
    + lia.
    + lia.
    + assert (w_dev w1 = snd (hff_init (hf_itf hf) (w_dev w))) as Hs
        by (destruct Hx as [_ Hx]; exact Hx).
      rewrite Hs in Hrun, Hx'.
      exists w'. split.
      * rewrite Hrun. cbn [init_results forallb]. rewrite <- Hrc.
        destruct (r =? 0); simpl;
          [reflexivity | destruct (forallb _ _); reflexivity].
      * cbn [init_results]. rewrite <- Hrc.
        apply (extends_app _ _ _ _ _ Hx Hx').
Qed.

Lemma forallb_zero_iff (rcs : list Z) :
  forallb (fun r => r =? 0) rcs = true <-> forall r, In r rcs -> r = 0.
Proof.
  rewrite forallb_forall. split; intros H r Hr.
  - apply Z.eqb_eq, H, Hr.
  - apply Z.eqb_eq, H, Hr.
Qed.

Lemma forallb_zero_false_iff (rcs : list Z) :
  forallb (fun r => r =? 0) rcs = false <-> exists r, In r rcs /\ r <> 0.
Proof.
  induction rcs as [| r rcs IH]; simpl.
  - split; [discriminate | intros (r & [] & _)].
  - rewrite andb_false_iff, IH, Z.eqb_neq. split.
    + intros [H | (r' & Hin & Hr')]; [exists r | exists r']; auto.
    + intros (r' & [-> | Hin] & Hr'); [left | right; exists r']; auto.
Qed.

(** C7.  When the registry knows the ids [0 .. n-1] (at most 255 devices) and
    returns nothing for [n], [hal_flash_init] returns once it has fuel for
    its [n + 1] turns; it has then called the init of each of the [n]
    devices once, in the order of the ids, whatever the earlier ones
    returned; and it returns -1 when one of these calls returned a status
    other than 0 and 0 when none did. *)
Theorem hal_flash_init_calls_every_device {St}
    (hal_bsp_flash_dev : Z -> option (hal_flash St))
    (devs : list (hal_flash St)) (fuel : nat) (w : world St) :
  (forall j, (j < length devs)%nat ->
     hal_bsp_flash_dev (Z.of_nat j) = nth_error devs j) ->
  hal_bsp_flash_dev (Z.of_nat (length devs)) = None ->
  (length devs <= 255)%nat -> (length devs < fuel)%nat ->
  exists rc w',
    hal_flash_init hal_bsp_flash_dev fuel w = (Done rc, w') /\
    extends w w' (init_calls devs (init_results devs (w_dev w))) /\
    length (init_results devs (w_dev w)) = length devs /\
    (rc = -1 <-> exists r, In r (init_results devs (w_dev w)) /\ r <> 0) /\
    (rc = 0 <-> forall r, In r (init_results devs (w_dev w)) -> r = 0).
Proof.
  intros Hsome Hnone Hmax Hfuel.
  destruct (init_loop_run hal_bsp_flash_dev devs 0%nat 0 fuel w)
    as (w' & Hrun & Hx); auto.
  eexists _, w'. split; [exact Hrun |]. split; [exact Hx |].
  split.
  { clear. generalize (w_dev w).
    induction devs as [| hf devs IH]; intros s; simpl; [| rewrite IH];
      reflexivity. }
  destruct (forallb _ _) eqn:E.
  - pose proof (proj1 (forallb_zero_iff _) E) as E'.
    split; split; auto; try discriminate.
    intros (r & Hin & Hr). elim Hr. auto.
  - pose proof (proj1 (forallb_zero_false_iff _) E) as E'.
    split; split; auto; try discriminate.
    intros Hall. destruct E' as (r & Hin & Hr). elim Hr. auto.
Qed.

(** Three devices of which the second fails to initialise: the third is
    initialised all the same and the result is -1. *)
Lemma hal_flash_init_calls_every_device_three :
  exists w',
    hal_flash_init three_devs 4 (boot zeroed) = (Done (-1), w') /\
    w_calls w' = [EvInit ram_flash 0; EvInit dead_flash (-3);
                  EvInit smart_flash 0].
Proof.
  destruct (hal_flash_init_calls_every_device three_devs
              [ram_flash; dead_flash; smart_flash] 4 (boot zeroed))
    as (rc & w' & Hrun & [Hcalls _] & _ & [_ Hfail] & _).
  - intros [| [| [| j]]] Hj; simpl in Hj; try reflexivity; lia.
  - reflexivity.
  - simpl. lia.
  - simpl. lia.
  - exists w'. split; [| exact Hcalls].
    rewrite Hrun. f_equal. f_equal. apply Hfail.
    exists (-3). split; [simpl; auto | discriminate].
Defined.

(** A registry that knows all the 256 ids keeps [hal_flash_init] in its
    loop: the 8-bit counter goes back to 0. *)
Lemma hal_flash_init_full_registry {St}
    (hal_bsp_flash_dev : Z -> option (hal_flash St)) :
  (forall i, 0 <= i <= 255 -> hal_bsp_flash_dev i <> None) ->
  forall fuel i rc w,
    0 <= i <= 255 ->
    fst (hal_flash_init_loop hal_bsp_flash_dev fuel i rc w) = OutOfFuel.
Proof.
  intros Hfull. induction fuel as [| fuel IH]; intros i rc w Hi; simpl.
  - reflexivity.
  - destruct (hal_bsp_flash_dev i) as [hf |] eqn:E;
      [| elim (Hfull i Hi E)].
    destruct (call_init_run hf w) as (r & w1 & Hr & _).
    rewrite (bind_done _ _ _ _ _ Hr). apply IH.
    pose proof (to_u8_range (i + 1)) as Hu. unfold u8 in Hu. lia.
Qed.

(** ** hal_flash_write: the verification of writes *)

Lemma add32_add32 (a o j : Z) : add32 (add32 a o) j = add32 a (o + j).
Proof.
  unfold add32. rewrite Z.add_mod_idemp_l by lia. f_equal. lia.
Qed.

Lemma memcmp_eq_true (buf src : list Z) (off n : Z) :
  memcmp_eq buf src off n = true ->
  forall j, (j < Z.to_nat n)%nat ->
    byte_at buf j = byte_at src (Z.to_nat off + j).
Proof.
  unfold memcmp_eq. rewrite forallb_forall. intros H j Hj.
  apply Z.eqb_eq, H, in_seq. lia.
Qed.

Lemma chunk_size_cases (BUF rem : Z) :
  (BUF <= rem /\ chunk_size BUF rem = BUF) \/
  (rem < BUF /\ chunk_size BUF rem = rem).
Proof.
  unfold chunk_size. rewrite Z.geb_leb.
  destruct (Z.leb_spec BUF rem); [left | right]; auto.
Qed.

Lemma cmp_loop_unfold {St} BUF fuel (hf : hal_flash St) address val
    num_bytes off :
  hal_flash_cmp_loop BUF (S fuel) hf address val num_bytes off
  = if off <? num_bytes then
      bind (call_read hf (add32 address off)
              (chunk_size BUF (num_bytes - off)))
        (fun r =>
           let '(rc, buf) := r in
           if negb (rc =? 0) then ret rc
           else if memcmp_eq buf val off (chunk_size BUF (num_bytes - off))
           then hal_flash_cmp_loop BUF fuel hf address val num_bytes
                  (add32 off BUF)
           else ret (-1))
    else ret 0.
Proof. reflexivity. Qed.

(** With a byte of the device that differs from the source at the offset
    [i], the comparison never returns 0 from an offset at or below [i], and
    it returns once it has fuel for the chunks up to [i]. *)
Lemma cmp_loop_finds_mismatch {St} BUF (hf : hal_flash St) mem address src
    num_bytes s i :
  reads_contents hf mem -> 0 < BUF -> u32 num_bytes ->
  0 <= i < num_bytes ->
  mem s (add32 address i) <> byte_at src (Z.to_nat i) ->
  forall fuel off w,
    w_dev w = s -> 0 <= off <= i ->
    exists o w',
      hal_flash_cmp_loop BUF fuel hf address src num_bytes off w = (o, w') /\
      w_dev w' = s /\
      ((o = OutOfFuel /\ (fuel <= Z.to_nat (i - off))%nat) \/
       (exists c, o = Done c /\ c <> 0)).
Proof.
  intros Hmem Hbuf Hn Hi Hdiff.
  induction fuel as [| fuel IH]; intros off w Hs Hoff.
  - exists OutOfFuel, w. split; [reflexivity |]. split; [exact Hs |].
    left. split; [reflexivity | lia].
  - rewrite cmp_loop_unfold.
    destruct (Z.ltb_spec off num_bytes); [| lia].
    destruct (call_read_run hf (add32 address off)
                (chunk_size BUF (num_bytes - off)) w)
      as (rc & buf & w1 & Hr & Hrd & [_ Hs1]).
    rewrite (bind_done _ _ _ _ _ Hr).
    destruct (Hmem (add32 address off) (chunk_size BUF (num_bytes - off))
                (w_dev w)) as [Hkeep Hdata].
    rewrite <- Hrd in Hdata. simpl in Hdata, Hs1.
    rewrite Hkeep, Hs in Hs1.
    destruct (Z.eqb_spec rc 0) as [-> | Hrc]; simpl negb; cbv iota.
    2:{ exists (Done rc), w1. split; [reflexivity |]. split; [exact Hs1 |].
        right. exists rc. auto. }
    specialize (Hdata eq_refl).
    destruct (memcmp_eq buf src off (chunk_size BUF (num_bytes - off)))
      eqn:Ecmp.
    2:{ exists (Done (-1)), w1. split; [reflexivity |]. split; [exact Hs1 |].
        right. exists (-1). split; [reflexivity | discriminate]. }
    pose proof (memcmp_eq_true _ _ _ _ Ecmp) as Heq.
    destruct (Z.lt_ge_cases i (off + chunk_size BUF (num_bytes - off)))
      as [Hin | Hout].
    + exfalso. apply Hdiff.
      assert (Z.to_nat (i - off)
              < Z.to_nat (chunk_size BUF (num_bytes - off)))%nat as Hj by lia.
      pose proof (Hdata _ Hj) as H1. pose proof (Heq _ Hj) as H2.
      rewrite Hs, add32_add32 in H1.
      replace (off + Z.of_nat (Z.to_nat (i - off))) with i in H1 by lia.
      replace (Z.to_nat off + Z.to_nat (i - off))%nat with (Z.to_nat i)
        in H2 by lia.
      congruence.
    + destruct (chunk_size_cases BUF (num_bytes - off)) as [[_ Hc] | [_ Hc]];
        rewrite Hc in Hout; [| lia].
      assert (add32 off BUF = off + BUF) as ->
        by (apply add32_small; unfold u32 in Hn; lia).
      destruct (IH (off + BUF) w1 Hs1 ltac:(lia))
        as (o & w' & Hrun & Hs' & Ho).
      exists o, w'. split; [exact Hrun |]. split; [exact Hs' |].
      destruct Ho as [[-> Hf] | Hc']; [left | right; exact Hc'].
      split; [reflexivity | lia].
Qed.

Lemma write_unfold {St} (hal_bsp_flash_dev : Z -> option (hal_flash St))
    VW BUF fuel id hf address src num_bytes :
  hal_bsp_flash_dev id = Some hf ->
  hal_flash_check_addr hf address = 0 ->
  hal_flash_check_addr hf (add32 address num_bytes) = 0 ->
  hal_flash_write hal_bsp_flash_dev VW BUF fuel id address src num_bytes
  = bind (call_write hf address src num_bytes)
      (fun rc =>
         if negb (rc =? 0) then ret rc
         else if VW then
           bind (hal_flash_cmp BUF fuel hf address src num_bytes)
             (fun c => bind (assert (c =? 0)) (fun _ => ret 0))
         else ret 0).
Proof.
  intros Hdev Hc1 Hc2. unfold hal_flash_write. rewrite Hdev.
  assert (check_range hf address num_bytes = false) as ->
    by (apply check_range_false; auto).
  reflexivity.
Qed.

(** C9.  For a write that passes the validation and that the driver reports
    as done, [s1] being the state the driver left the devices in:
    with the verification of writes on, and a driver whose read hands back
    the contents of the device, a byte of the written range that differs
    from the source makes [hal_flash_write] stop on the assertion (as soon
    as it has the fuel to reach the byte), so that it returns 0 only when
    every byte of the range reads back as the source, and it returns
    nothing but 0; with the verification off it returns 0 after the one
    driver call, with no assertion. *)
Theorem hal_flash_write_verification {St}
    (hal_bsp_flash_dev : Z -> option (hal_flash St))
    (HAL_FLASH_VERIFY_WRITES : bool) (HAL_FLASH_VERIFY_BUF_SZ : Z)
    (id : Z) (hf : hal_flash St) (address : Z) (src : list Z)
    (num_bytes : Z) (w : world St) :
  hal_bsp_flash_dev id = Some hf ->
  hal_flash_check_addr hf address = 0 ->
  hal_flash_check_addr hf (add32 address num_bytes) = 0 ->
  fst (hff_write (hf_itf hf) address src num_bytes (w_dev w)) = 0 ->
  let s1 := snd (hff_write (hf_itf hf) address src num_bytes (w_dev w)) in
  (HAL_FLASH_VERIFY_WRITES = true ->
   0 < HAL_FLASH_VERIFY_BUF_SZ -> u32 num_bytes ->
   forall mem, reads_contents hf mem ->
     (forall i, 0 <= i < num_bytes ->
        mem s1 (add32 address i) <> byte_at src (Z.to_nat i) ->
        forall fuel, (Z.to_nat i < fuel)%nat ->
          fst (hal_flash_write hal_bsp_flash_dev HAL_FLASH_VERIFY_WRITES
                 HAL_FLASH_VERIFY_BUF_SZ fuel id address src num_bytes w)
          = AssertFail) /\
     (forall fuel w',
        hal_flash_write hal_bsp_flash_dev HAL_FLASH_VERIFY_WRITES
          HAL_FLASH_VERIFY_BUF_SZ fuel id address src num_bytes w
        = (Done 0, w') ->
        forall i, 0 <= i < num_bytes ->
          mem s1 (add32 address i) = byte_at src (Z.to_nat i)) /\
     (forall fuel r w',
        hal_flash_write hal_bsp_flash_dev HAL_FLASH_VERIFY_WRITES
          HAL_FLASH_VERIFY_BUF_SZ fuel id address src num_bytes w
        = (Done r, w') -> r = 0)) /\
  (HAL_FLASH_VERIFY_WRITES = false ->
   forall fuel, exists w',
     hal_flash_write hal_bsp_flash_dev HAL_FLASH_VERIFY_WRITES
       HAL_FLASH_VERIFY_BUF_SZ fuel id address src num_bytes w
     = (Done 0, w') /\
     extends w w' [EvWrite hf address src num_bytes 0]).
Proof.
  intros Hdev Hc1 Hc2 Hok s1.
  destruct (call_write_run hf address src num_bytes w)
    as (rc & w1 & Hw & Hrc & Hx).
  rewrite Hok in Hrc. subst rc.
  assert (w_dev w1 = s1) as Hs1 by (destruct Hx as [_ Hx]; exact Hx).
  assert (forall fuel,
            hal_flash_write hal_bsp_flash_dev HAL_FLASH_VERIFY_WRITES
              HAL_FLASH_VERIFY_BUF_SZ fuel id address src num_bytes w
            = if HAL_FLASH_VERIFY_WRITES then
                bind (hal_flash_cmp HAL_FLASH_VERIFY_BUF_SZ fuel hf address
                        src num_bytes)
                  (fun c => bind (assert (c =? 0)) (fun _ => ret 0)) w1
              else (Done 0, w1)) as Hrun.
  { intros fuel. rewrite (write_unfold _ _ _ _ _ hf) by assumption.
    rewrite (bind_done _ _ _ _ _ Hw). simpl negb. cbv iota.
    destruct HAL_FLASH_VERIFY_WRITES; reflexivity. }
  split.
  - intros -> Hbuf Hn mem Hmem.
    assert (forall i, 0 <= i < num_bytes ->
              mem s1 (add32 address i) <> byte_at src (Z.to_nat i) ->
              forall fuel,
                (exists w',
                   hal_flash_write hal_bsp_flash_dev true
                     HAL_FLASH_VERIFY_BUF_SZ fuel id address src num_bytes w
                   = (OutOfFuel, w') /\ (fuel <= Z.to_nat i)%nat) \/
                (exists w',
                   hal_flash_write hal_bsp_flash_dev true
                     HAL_FLASH_VERIFY_BUF_SZ fuel id address src num_bytes w
                   = (AssertFail, w'))) as Hstop.
    { intros i Hi Hdiff fuel. rewrite !Hrun.
      destruct (cmp_loop_finds_mismatch HAL_FLASH_VERIFY_BUF_SZ hf mem
                  address src num_bytes s1 i Hmem Hbuf Hn Hi Hdiff fuel 0 w1
                  Hs1 ltac:(lia)) as (o & w' & Hcmp & _ & Ho).
      fold (hal_flash_cmp HAL_FLASH_VERIFY_BUF_SZ fuel hf address src
              num_bytes) in Hcmp.
      destruct Ho as [[-> Hf] | (c & -> & Hc)].
      - left. exists w'. split; [apply bind_out_of_fuel; exact Hcmp |].
        rewrite Z.sub_0_r in Hf. exact Hf.
      - right. exists w'. rewrite (bind_done _ _ _ _ _ Hcmp).
        unfold bind, assert.
        destruct (Z.eqb_spec c 0); [contradiction | reflexivity]. }
    split; [| split].
    + intros i Hi Hdiff fuel Hfuel.
      destruct (Hstop i Hi Hdiff fuel) as [(w' & _ & Hf) | (w' & ->)];
        [lia | reflexivity].
    + intros fuel w' Hdone i Hi.
      destruct (Z.eq_dec (mem s1 (add32 address i))
                  (byte_at src (Z.to_nat i))) as [| Hdiff]; [assumption |].
      destruct (Hstop i Hi Hdiff fuel) as [(w2 & H2 & _) | (w2 & H2)];
        rewrite H2 in Hdone; discriminate.
    + intros fuel r w' Hdone. rewrite Hrun in Hdone.
      unfold bind at 1 in Hdone.
      destruct (hal_flash_cmp _ _ _ _ _ _ w1) as [[c | |] w2];
        try discriminate.
      unfold bind, assert in Hdone.
      destruct (c =? 0); inversion Hdone; reflexivity.
  - intros Hoff fuel. exists w1. rewrite Hrun, Hoff. auto.
Qed.

(** The example devices read their contents. *)
Lemma ram_reads_contents (hf : hal_flash ram) :
  hff_read (hf_itf hf) = ram_read -> reads_contents hf (fun s x => s x).
Proof.
  intros Hread a n s. rewrite Hread. unfold ram_read. simpl.
  split; [reflexivity |]. intros _ j Hj.
  unfold byte_at, ram_bytes.
  rewrite (nth_indep _ 0 ((fun k => s (add32 a (Z.of_nat k))) 0%nat))
    by (rewrite length_map, length_seq; exact Hj).
  rewrite (map_nth (fun k => s (add32 a (Z.of_nat k)))).
  rewrite seq_nth by exact Hj. reflexivity.
Qed.

(** The device whose write stores nothing: with the verification on, the
    write of three bytes to the zeroed device stops on the assertion; with
    the verification off it returns 0 after the one driver call. *)
Lemma hal_flash_write_verification_stuck :
  fst (hal_flash_write (one_dev stuck_flash) true 16 8 0 32768 [1; 2; 3] 3
         (boot zeroed)) = AssertFail /\
  exists w',
    hal_flash_write (one_dev stuck_flash) false 16 8 0 32768 [1; 2; 3] 3
      (boot zeroed) = (Done 0, w') /\
    w_calls w' = [EvWrite stuck_flash 32768 [1; 2; 3] 3 0].
Proof.
  split.
  - destruct (hal_flash_write_verification (one_dev stuck_flash) true 16 0
                stuck_flash 32768 [1; 2; 3] 3 (boot zeroed))
      as [Hon _].
    + reflexivity.
    + reflexivity.
    + reflexivity.
    + reflexivity.
    + destruct (Hon eq_refl ltac:(lia) ltac:(unfold u32, u32_max; lia)
                  (fun s x => s x) (ram_reads_contents stuck_flash eq_refl))
        as [Hstop _].
      apply (Hstop 0).
      * lia.
      * vm_compute. discriminate.
      * lia.
  - destruct (hal_flash_write_verification (one_dev stuck_flash) false 16 0
                stuck_flash 32768 [1; 2; 3] 3 (boot zeroed))
      as [_ Hoff].
    + reflexivity.
    + reflexivity.
    + reflexivity.
    + reflexivity.
    + destruct (Hoff eq_refl 8%nat) as (w' & Hrun & [Hcalls _]).
      exists w'. split; [exact Hrun | exact Hcalls].
Defined.

(** The example device stores what it is given: the same write returns 0,
    with the verification on, after one write and one read. *)
Lemma hal_flash_write_ram_verified :
  fst (hal_flash_write (one_dev ram_flash) true 16 8 0 32768 [1; 2; 3] 3
         (boot zeroed)) = Done 0 /\
  w_calls (snd (hal_flash_write (one_dev ram_flash) true 16 8 0 32768
                  [1; 2; 3] 3 (boot zeroed)))
  = [EvWrite ram_flash 32768 [1; 2; 3] 3 0; EvRead ram_flash 32768 3 0].
Proof. split; reflexivity. Qed.

(** ** hal_flash_is_setto *)

Lemma is_setto_loop_unfold {St} fuel (hf : hal_flash St) address num_bytes
    val :
  hal_flash_is_setto_loop (S fuel) hf address num_bytes val
  = if num_bytes =? 0 then ret 1
    else
      bind (call_read hf address (if 32 >? num_bytes then num_bytes else 32))
        (fun r =>
           let '(rc, buf) := r in
           if negb (rc =? 0) then ret (-1)
           else if all_bytes buf (if 32 >? num_bytes then num_bytes else 32)
                     val
           then hal_flash_is_setto_loop fuel hf address
                  (num_bytes - (if 32 >? num_bytes then num_bytes else 32))
                  val
           else ret 0).
Proof. reflexivity. Qed.

Lemma blksz_min (num_bytes : Z) :
  (if 32 >? num_bytes then num_bytes else 32) = Z.min num_bytes 32.
Proof.
  rewrite Z.gtb_ltb. destruct (Z.ltb_spec num_bytes 32); lia.
Qed.

(** The fuel [hal_flash_is_setto] gives its loop is never used up. *)
Lemma is_setto_loop_total {St} (hf : hal_flash St) address val :
  forall fuel num_bytes w,
    0 <= num_bytes -> (Z.to_nat num_bytes < fuel)%nat ->
    fst (hal_flash_is_setto_loop fuel hf address num_bytes val w)
    <> OutOfFuel.
Proof.
  induction fuel as [| fuel IH]; intros num_bytes w Hn Hfuel; [lia |].
  rewrite is_setto_loop_unfold, blksz_min.
  destruct (Z.eqb_spec num_bytes 0); [discriminate |].
  destruct (call_read_run hf address (Z.min num_bytes 32) w)
    as (rc & buf & w1 & Hr & _).
  rewrite (bind_done _ _ _ _ _ Hr).
  destruct (negb (rc =? 0)); [discriminate |].
  destruct (all_bytes buf (Z.min num_bytes 32) val); [| discriminate].
  apply IH; lia.
Qed.

Lemma hal_flash_is_setto_returns {St} (hf : hal_flash St) address num_bytes
    val w :
  0 <= num_bytes ->
  fst (hal_flash_is_setto hf address num_bytes val w) <> OutOfFuel.
Proof.
  intros Hn. apply is_setto_loop_total; [exact Hn | lia].
Qed.

Lemma all_bytes_true (buf : list Z) (n val : Z) :
  all_bytes buf n val = true <->
  forall j, (j < Z.to_nat n)%nat -> byte_at buf j = val.
Proof.
  unfold all_bytes. rewrite forallb_forall. split; intros H j Hj.
  - apply Z.eqb_eq, H, in_seq. lia.
  - apply Z.eqb_eq, H. apply in_seq in Hj. lia.
Qed.

(** What the loop looks at.  It reads every chunk at [address], which never
    moves: for a driver whose reads succeed and hand back the contents of
    the device, the bytes at [address + 32] and above play no part in the
    result. *)
Lemma is_setto_loop_first_chunk {St} (hf : hal_flash St) mem address val s :
  reads_contents hf mem ->
  (forall a n s', fst (fst (hff_read (hf_itf hf) a n s')) = 0) ->
  forall fuel num_bytes w,
    w_dev w = s -> 0 <= num_bytes -> (Z.to_nat num_bytes < fuel)%nat ->
    (forall j, 0 <= j < Z.min num_bytes 32 -> mem s (add32 address j) = val) ->
    exists w',
      hal_flash_is_setto_loop fuel hf address num_bytes val w = (Done 1, w') /\
      w_dev w' = s.
Proof.
  intros Hmem Hok.
  induction fuel as [| fuel IH]; intros num_bytes w Hs Hn Hfuel Hall; [lia |].
  rewrite is_setto_loop_unfold, blksz_min.
  destruct (Z.eqb_spec num_bytes 0); [exists w; auto |].
  destruct (call_read_run hf address (Z.min num_bytes 32) w)
    as (rc & buf & w1 & Hr & Hrd & [_ Hs1]).
  rewrite (bind_done _ _ _ _ _ Hr).
  destruct (Hmem address (Z.min num_bytes 32) (w_dev w)) as [Hkeep Hdata].
  pose proof (Hok address (Z.min num_bytes 32) (w_dev w)) as Hrc.
  rewrite <- Hrd in Hdata, Hrc. simpl in Hdata, Hrc, Hs1. subst rc.
  rewrite Hkeep, Hs in Hs1. simpl negb. cbv iota.
  assert (all_bytes buf (Z.min num_bytes 32) val = true) as ->.
  { apply all_bytes_true. intros j Hj.
    rewrite (Hdata eq_refl j Hj), Hs. apply Hall. lia. }
  apply IH; try lia; [exact Hs1 |].
  intros j Hj. apply Hall. lia.
Qed.

Lemma hal_flash_is_setto_first_chunk {St} (hf : hal_flash St) mem address
    num_bytes val w :
  reads_contents hf mem ->
  (forall a n s', fst (fst (hff_read (hf_itf hf) a n s')) = 0) ->
  0 <= num_bytes ->
  (forall j, 0 <= j < Z.min num_bytes 32 ->
     mem (w_dev w) (add32 address j) = val) ->
  fst (hal_flash_is_setto hf address num_bytes val w) = Done 1.
Proof.
  intros Hmem Hok Hn Hall.
  destruct (is_setto_loop_first_chunk hf mem address val (w_dev w) Hmem Hok
              (S (Z.to_nat num_bytes)) num_bytes w eq_refl Hn ltac:(lia) Hall)
    as (w' & Hrun & _).
  unfold hal_flash_is_setto. rewrite Hrun. reflexivity.
Qed.

(** C4 fails on the code.  The region of 33 bytes at [0x8000] of the example
    device holds [0xFF] in its first 32 bytes and 0 in the last one;
    [hal_flash_is_setto] with the value [0xFF] reads the 32 bytes at
    [0x8000], then one byte at [0x8000] again, and returns 1. *)
Theorem hal_flash_is_setto_misses_second_chunk :
  0 <= 32800 - 32768 < 33 /\
  w_dev (boot one_byte_programmed) 32800 = 0 /\
  hal_flash_is_setto ram_flash 32768 33 255 (boot one_byte_programmed)
  = (Done 1,
     {| w_dev := one_byte_programmed;
        w_calls := [EvRead ram_flash 32768 32 0;
                    EvRead ram_flash 32768 1 0] |}).
Proof.
  split; [lia |]. split; reflexivity.
Qed.

(** The same for every region whose first chunk is uniform. *)
Lemma hal_flash_is_setto_ram_beyond_first_chunk (s : ram) (address : Z)
    (num_bytes val : Z) :
  0 <= num_bytes ->
  (forall j, 0 <= j < 32 -> s (add32 address j) = val) ->
  fst (hal_flash_is_setto ram_flash address num_bytes val (boot s)) = Done 1.
Proof.
  intros Hn Hall.
  apply (hal_flash_is_setto_first_chunk ram_flash (fun s x => s x)).
  - apply ram_reads_contents. reflexivity.
  - reflexivity.
  - exact Hn.
  - intros j Hj. apply Hall. lia.
Qed.

(** * More of the engine *)

(** ** What the validation of a request lets through *)

(** X1.  For a device whose base + size is a 32-bit address, a request that
    does not wrap passes the test of the entry points exactly when its range
    lies in the device: base <= address and
    address + num_bytes <= base + size. *)
Theorem check_range_within_device {St} (hf : hal_flash St)
    (address num_bytes : Z) :
  u32 (hf_base_addr hf) -> u32 (hf_size hf) ->
  hf_base_addr hf + hf_size hf <= u32_max ->
  u32 address -> u32 num_bytes -> address + num_bytes <= u32_max ->
  (check_range hf address num_bytes = false <->
   hf_base_addr hf <= address /\
   address + num_bytes <= hf_base_addr hf + hf_size hf).
Proof.
  unfold u32. intros Hb Hs Hfit Ha Hn Hnw.
  rewrite check_range_false, !check_addr_ok_iff, !add32_small by lia. lia.
Qed.

Lemma check_range_within_device_ram :
  check_range ram_flash 36352 512 = false /\
  check_range ram_flash 36352 513 = true.
Proof.
  pose proof (check_range_within_device ram_flash 36352 512) as H1.
  pose proof (check_range_within_device ram_flash 36352 513) as H2.
  unfold u32, u32_max in H1, H2. simpl in H1, H2.
  split.
  - apply H1; lia.
  - destruct (check_range ram_flash 36352 513) eqn:E; [reflexivity |].
    assert (32768 <= 36352 /\ 36352 + 513 <= 32768 + 4096) by (apply H2; lia).
    lia.
Defined.

(** A descriptor whose base + size leaves the 32-bit range lets no address
    through. *)
Lemma wrapped_check_addr {St} (hf : hal_flash St) (a : Z) :
  u32 (hf_base_addr hf) -> u32 (hf_size hf) ->
  u32_max < hf_base_addr hf + hf_size hf ->
  hal_flash_check_addr hf a = -1.
Proof.
  intros Hb Hs Hwrap. apply check_addr_fail_iff.
  rewrite add32_wrap by assumption. unfold u32, u32_max in *. lia.
Qed.

Lemma check_range_of_fail {St} (hf : hal_flash St) (address num_bytes : Z) :
  hal_flash_check_addr hf address = -1 ->
  check_range hf address num_bytes = true.
Proof.
  intros H. apply check_range_true. left. rewrite H. discriminate.
Qed.

(** What each entry point does with a request whose range test fails. *)
Lemma entry_points_turn_down {St}
    (hal_bsp_flash_dev : Z -> option (hal_flash St)) VW VE BUF fuel id hf
    address src num_bytes w :
  hal_bsp_flash_dev id = Some hf ->
  check_range hf address num_bytes = true ->
  hal_flash_read hal_bsp_flash_dev id address num_bytes w
  = (Done (-1, []), w) /\
  hal_flash_write hal_bsp_flash_dev VW BUF fuel id address src num_bytes w
  = (Done (-1), w) /\
  hal_flash_erase hal_bsp_flash_dev VE BUF fuel id address num_bytes w
  = (Done (-1), w) /\
  hal_flash_isempty hal_bsp_flash_dev id address num_bytes w
  = (Done (-1), w).
Proof.
  intros Hdev Hbad.
  unfold hal_flash_read, hal_flash_write, hal_flash_erase, hal_flash_isempty.
  rewrite Hdev, Hbad. repeat split.
Qed.

Lemma erase_sector_turns_down {St}
    (hal_bsp_flash_dev : Z -> option (hal_flash St)) VE BUF fuel id hf
    sector_address w :
  hal_bsp_flash_dev id = Some hf ->
  hal_flash_check_addr hf sector_address <> 0 ->
  hal_flash_erase_sector hal_bsp_flash_dev VE BUF fuel id sector_address w
  = (Done (-1), w).
Proof.
  intros Hdev Hbad. unfold hal_flash_erase_sector. rewrite Hdev.
  apply Z.eqb_neq in Hbad. rewrite Hbad. reflexivity.
Qed.

(** X2.  A device whose base + size leaves the 32-bit range cannot be used:
    [hal_flash_check_addr] rejects every address, and read, write, erase,
    erase-sector and is-empty requests all return -1 without a driver
    call. *)
Theorem wrapped_descriptor_is_unusable {St}
    (hal_bsp_flash_dev : Z -> option (hal_flash St))
    (VW VE : bool) (BUF : Z) (fuel : nat) (id : Z) (hf : hal_flash St)
    (address : Z) (src : list Z) (num_bytes : Z) (w : world St) :
  hal_bsp_flash_dev id = Some hf ->
  u32 (hf_base_addr hf) -> u32 (hf_size hf) ->
  u32_max < hf_base_addr hf + hf_size hf ->
  hal_flash_check_addr hf address = -1 /\
  hal_flash_read hal_bsp_flash_dev id address num_bytes w
  = (Done (-1, []), w) /\
  hal_flash_write hal_bsp_flash_dev VW BUF fuel id address src num_bytes w
  = (Done (-1), w) /\
  hal_flash_erase hal_bsp_flash_dev VE BUF fuel id address num_bytes w
  = (Done (-1), w) /\
  hal_flash_erase_sector hal_bsp_flash_dev VE BUF fuel id address w
  = (Done (-1), w) /\
  hal_flash_isempty hal_bsp_flash_dev id address num_bytes w
  = (Done (-1), w).
Proof.
  intros Hdev Hb Hs Hwrap.
  pose proof (wrapped_check_addr hf address Hb Hs Hwrap) as Hrej.
  destruct (entry_points_turn_down hal_bsp_flash_dev VW VE BUF fuel id hf
              address src num_bytes w Hdev
              (check_range_of_fail hf address num_bytes Hrej))
    as (Hr & Hw & He & Hi).
  repeat split; auto.
  apply (erase_sector_turns_down _ _ _ _ _ hf); [exact Hdev |].
  rewrite Hrej. discriminate.
Qed.

(** The device that ends with the address space: a read of its first byte
    and the erase of its first sector are turned down. *)
Lemma wrapped_descriptor_is_unusable_top :
  hal_flash_read (one_dev top_flash) 0 4294963200 1 (boot zeroed)
  = (Done (-1, []), boot zeroed) /\
  hal_flash_erase_sector (one_dev top_flash) false 16 0 0 4294963200
    (boot zeroed)
  = (Done (-1), boot zeroed).
Proof.
  destruct (wrapped_descriptor_is_unusable (one_dev top_flash) false false
              16 0%nat 0 top_flash 4294963200 [] 1 (boot zeroed))
    as (_ & Hr & _ & _ & Hs & _).
  - reflexivity.
  - unfold u32, u32_max. simpl. lia.
  - unfold u32, u32_max. simpl. lia.
  - unfold u32_max. simpl. lia.
  - split; [exact Hr | exact Hs].
Defined.

(** ** hal_flash_read *)

(** X3.  [hal_flash_read] reaches the driver exactly when the id is known
    and the address and the 32-bit address + num_bytes both pass
    [hal_flash_check_addr].  It then makes the one read of the requested
    address and length and returns the status and the bytes of the driver
    as they are; otherwise it returns -1 and the world is as it was. *)
Theorem hal_flash_read_delegates {St}
    (hal_bsp_flash_dev : Z -> option (hal_flash St))
    (id address num_bytes : Z) (w : world St) :
  (forall hf,
     hal_bsp_flash_dev id = Some hf ->
     hal_flash_check_addr hf address = 0 ->
     hal_flash_check_addr hf (add32 address num_bytes) = 0 ->
     hal_flash_read hal_bsp_flash_dev id address num_bytes w
     = (Done (fst (hff_read (hf_itf hf) address num_bytes (w_dev w))),
        log (snd (hff_read (hf_itf hf) address num_bytes (w_dev w)))
          (EvRead hf address num_bytes
             (fst (fst (hff_read (hf_itf hf) address num_bytes (w_dev w)))))
          w)) /\
  (hal_bsp_flash_dev id = None \/
   (exists hf, hal_bsp_flash_dev id = Some hf /\
      (hal_flash_check_addr hf address <> 0 \/
       hal_flash_check_addr hf (add32 address num_bytes) <> 0)) ->
   hal_flash_read hal_bsp_flash_dev id address num_bytes w
   = (Done (-1, []), w)).
Proof.
  split.
  - intros hf Hdev Hc1 Hc2. unfold hal_flash_read. rewrite Hdev.
    assert (check_range hf address num_bytes = false) as ->
      by (apply check_range_false; auto).
    unfold call_read.
    destruct (hff_read (hf_itf hf) address num_bytes (w_dev w))
      as [[rc buf] s]. reflexivity.
  - intros [Hnone | (hf & Hdev & Hbad)]; unfold hal_flash_read.
    + rewrite Hnone. reflexivity.
    + rewrite Hdev.
      assert (check_range hf address num_bytes = true) as ->
        by (apply check_range_true; exact Hbad).
      reflexivity.
Qed.

Lemma hal_flash_read_delegates_ram :
  hal_flash_read (one_dev ram_flash) 0 32800 2 (boot one_byte_programmed)
  = (Done (0, [0; 255]),
     {| w_dev := one_byte_programmed;
        w_calls := [EvRead ram_flash 32800 2 0] |}) /\
  hal_flash_read (one_dev ram_flash) 0 36863 2 (boot one_byte_programmed)
  = (Done (-1, []), boot one_byte_programmed).
Proof.
  destruct (hal_flash_read_delegates (one_dev ram_flash) 0 32800 2
              (boot one_byte_programmed)) as [Hok _].
  destruct (hal_flash_read_delegates (one_dev ram_flash) 0 36863 2
              (boot one_byte_programmed)) as [_ Hbad].
  split.
  - apply (Hok ram_flash); reflexivity.
  - apply Hbad. right. exists ram_flash. split; [reflexivity |].
    right. vm_compute. discriminate.
Defined.

(** ** Requests that are turned down *)

(** X4.  [hal_flash_erase], [hal_flash_erase_sector] and
    [hal_flash_isempty] return -1 and leave the world as it was, with no
    driver call, when the id is unknown or the range test (for
    [hal_flash_erase_sector]: the test of the sector address alone) fails. *)
Theorem erase_and_isempty_turn_down {St}
    (hal_bsp_flash_dev : Z -> option (hal_flash St))
    (VE : bool) (BUF : Z) (fuel : nat) (id address num_bytes : Z)
    (w : world St) :
  (hal_bsp_flash_dev id = None \/
   (exists hf, hal_bsp_flash_dev id = Some hf /\
      (hal_flash_check_addr hf address <> 0 \/
       hal_flash_check_addr hf (add32 address num_bytes) <> 0)) ->
   hal_flash_erase hal_bsp_flash_dev VE BUF fuel id address num_bytes w
   = (Done (-1), w) /\
   hal_flash_isempty hal_bsp_flash_dev id address num_bytes w
   = (Done (-1), w)) /\
  (hal_bsp_flash_dev id = None \/
   (exists hf, hal_bsp_flash_dev id = Some hf /\
      hal_flash_check_addr hf address <> 0) ->
   hal_flash_erase_sector hal_bsp_flash_dev VE BUF fuel id address w
   = (Done (-1), w)).
Proof.
  split.
  - intros [Hnone | (hf & Hdev & Hbad)].
    + unfold hal_flash_erase, hal_flash_isempty. rewrite Hnone.
      split; reflexivity.
    + apply check_range_true in Hbad.
      destruct (entry_points_turn_down hal_bsp_flash_dev false VE BUF fuel
                  id hf address [] num_bytes w Hdev Hbad)
        as (_ & _ & He & Hi).
      split; assumption.
  - intros [Hnone | (hf & Hdev & Hbad)].
    + unfold hal_flash_erase_sector. rewrite Hnone. reflexivity.
    + apply (erase_sector_turns_down _ _ _ _ _ hf); assumption.
Qed.

(** On the example device: an erase that would end at [0x9100], the
    is-empty query of the unknown id 5, and the erase of a sector at
    [0x7C00], below the device. *)
Lemma erase_and_isempty_turn_down_ram :
  hal_flash_erase (one_dev ram_flash) true 16 9 0 36608 512 (boot zeroed)
  = (Done (-1), boot zeroed) /\
  hal_flash_isempty (one_dev ram_flash) 5 32768 16 (boot zeroed)
  = (Done (-1), boot zeroed) /\
  hal_flash_erase_sector (one_dev ram_flash) true 16 9 0 31744 (boot zeroed)
  = (Done (-1), boot zeroed).
Proof.
  destruct (erase_and_isempty_turn_down (one_dev ram_flash) true 16 9 0
              36608 512 (boot zeroed)) as [Hrange _].
  destruct (erase_and_isempty_turn_down (one_dev ram_flash) true 16 9 5
              32768 16 (boot zeroed)) as [Hunknown _].
  destruct (erase_and_isempty_turn_down (one_dev ram_flash) true 16 9 0
              31744 0 (boot zeroed)) as [_ Hsector].
  split; [| split].
  - apply Hrange. right. exists ram_flash. split; [reflexivity |].
    right. vm_compute. discriminate.
  - apply Hunknown. left. reflexivity.
  - apply Hsector. right. exists ram_flash. split; [reflexivity |].
    vm_compute. discriminate.
Defined.

(** ** The comparison of hal_flash_cmp only reads *)

Lemma cmp_loop_reads {St} BUF fuel (hf : hal_flash St) address src
    num_bytes :
  forall off w o w',
    hal_flash_cmp_loop BUF fuel hf address src num_bytes off w = (o, w') ->
    exists tr, extends w w' tr /\ Forall (fun e => is_read_call e = true) tr.
Proof.
  induction fuel as [| fuel IH]; intros off w o w' H.
  - inversion H; subst. exists []. split; [apply extends_nil | constructor].
  - rewrite cmp_loop_unfold in H.
    destruct (off <? num_bytes).
    + destruct (call_read_run hf (add32 address off)
                  (chunk_size BUF (num_bytes - off)) w)
        as (rc & buf & w1 & Hr & _ & Hx).
      rewrite (bind_done _ _ _ _ _ Hr) in H.
      assert (Forall (fun e : event St => is_read_call e = true)
                [EvRead hf (add32 address off)
                   (chunk_size BUF (num_bytes - off)) rc]) as Hrd
        by (repeat constructor).
      destruct (negb (rc =? 0)).
      * inversion H; subst. eauto.
      * destruct (memcmp_eq buf src off _).
        -- apply IH in H. destruct H as (tr & Hx' & Hf).
           exists ([EvRead hf (add32 address off)
                      (chunk_size BUF (num_bytes - off)) rc] ++ tr).
           split; [eapply extends_app; eauto |].
           apply Forall_app. auto.
        -- inversion H; subst. eauto.
    + inversion H; subst. exists []. split; [apply extends_nil | constructor].
Qed.

(** With a driver whose reads leave the device as it is, so do the two
    verification scans. *)
Lemma cmp_loop_keeps_state {St} BUF (hf : hal_flash St) mem address src
    num_bytes :
  reads_contents hf mem ->
  forall fuel off w o w',
    hal_flash_cmp_loop BUF fuel hf address src num_bytes off w = (o, w') ->
    w_dev w' = w_dev w.
Proof.
  intros Hmem. induction fuel as [| fuel IH]; intros off w o w' H.
  - inversion H; subst. reflexivity.
  - rewrite cmp_loop_unfold in H.
    destruct (off <? num_bytes); [| inversion H; subst; reflexivity].
    destruct (call_read_run hf (add32 address off)
                (chunk_size BUF (num_bytes - off)) w)
      as (rc & buf & w1 & Hr & _ & [_ Hs1]).
    rewrite (bind_done _ _ _ _ _ Hr) in H.
    simpl in Hs1.
    destruct (Hmem (add32 address off) (chunk_size BUF (num_bytes - off))
                (w_dev w)) as [Hkeep _].
    rewrite Hkeep in Hs1.
    destruct (negb (rc =? 0)); [inversion H; subst; exact Hs1 |].
    destruct (memcmp_eq buf src off _);
      [| inversion H; subst; exact Hs1].
    apply IH in H. congruence.
Qed.

Lemma cmp_erased_loop_unfold {St} BUF fuel (hf : hal_flash St) address
    num_bytes off :
  hal_flash_cmp_erased_loop BUF (S fuel) hf address num_bytes off
  = if off <? num_bytes then
      bind (call_read hf (add32 address off)
              (chunk_size BUF (num_bytes - off)))
        (fun r =>
           let '(rc, buf) := r in
           if negb (rc =? 0) then ret rc
           else if all_bytes buf (chunk_size BUF (num_bytes - off)) 255
           then hal_flash_cmp_erased_loop BUF fuel hf address num_bytes
                  (add32 off BUF)
           else ret (-1))
    else ret 0.
Proof. reflexivity. Qed.

Lemma cmp_erased_loop_keeps_state {St} BUF (hf : hal_flash St) mem address
    num_bytes :
  reads_contents hf mem ->
  forall fuel off w o w',
    hal_flash_cmp_erased_loop BUF fuel hf address num_bytes off w = (o, w') ->
    w_dev w' = w_dev w.
Proof.
  intros Hmem. induction fuel as [| fuel IH]; intros off w o w' H.
  - inversion H; subst. reflexivity.
  - rewrite cmp_erased_loop_unfold in H.
    destruct (off <? num_bytes); [| inversion H; subst; reflexivity].
    destruct (call_read_run hf (add32 address off)
                (chunk_size BUF (num_bytes - off)) w)
      as (rc & buf & w1 & Hr & _ & [_ Hs1]).
    rewrite (bind_done _ _ _ _ _ Hr) in H.
    simpl in Hs1.
    destruct (Hmem (add32 address off) (chunk_size BUF (num_bytes - off))
                (w_dev w)) as [Hkeep _].
    rewrite Hkeep in Hs1.
    destruct (negb (rc =? 0)); [inversion H; subst; exact Hs1 |].
    destruct (all_bytes buf _ 255);
      [| inversion H; subst; exact Hs1].
    apply IH in H. congruence.
Qed.

(** ** Requests that wrap *)

Lemma wrapping_request_passes {St} (hf : hal_flash St) address num_bytes :
  u32 (hf_base_addr hf) -> u32 (hf_size hf) ->
  hf_base_addr hf + hf_size hf <= u32_max ->
  u32 address -> u32 num_bytes ->
  hf_base_addr hf <= address <= hf_base_addr hf + hf_size hf ->
  u32_max < address + num_bytes ->
  hf_base_addr hf <= address + num_bytes - 4294967296 ->
  check_range hf address num_bytes = false /\
  add32 address num_bytes <= address.
Proof.
  intros Hb Hs Hfit Ha Hn Hin Hwrap Hlow.
  rewrite check_range_false, !check_addr_ok_iff.
  rewrite (add32_wrap address num_bytes) by assumption.
  unfold u32, u32_max in *. rewrite add32_small by (unfold u32_max; lia).
  lia.
Qed.

(** X5.  Only [hal_flash_erase] looks for a wrap of address + num_bytes.
    A read or a write whose address is in the device and whose
    address + num_bytes is above 2^32 - 1 but lands, after the wrap, in the
    device again passes the validation: the driver is called with the
    address and the whole length, although the range runs past the end of
    the device.  The same request is turned down by [hal_flash_erase]. *)
Theorem wrapping_request_reaches_driver {St}
    (hal_bsp_flash_dev : Z -> option (hal_flash St))
    (VW VE : bool) (BUF : Z) (fuel : nat) (id : Z) (hf : hal_flash St)
    (address : Z) (src : list Z) (num_bytes : Z) (w : world St) :
  hal_bsp_flash_dev id = Some hf ->
  u32 (hf_base_addr hf) -> u32 (hf_size hf) ->
  hf_base_addr hf + hf_size hf <= u32_max ->
  u32 address -> u32 num_bytes ->
  hf_base_addr hf <= address <= hf_base_addr hf + hf_size hf ->
  u32_max < address + num_bytes ->
  hf_base_addr hf <= address + num_bytes - 4294967296 ->
  hf_base_addr hf + hf_size hf < address + num_bytes /\
  (exists tr,
     w_calls (snd (hal_flash_write hal_bsp_flash_dev VW BUF fuel id address
                     src num_bytes w))
     = w_calls w
       ++ EvWrite hf address src num_bytes
            (fst (hff_write (hf_itf hf) address src num_bytes (w_dev w)))
       :: tr) /\
  w_calls (snd (hal_flash_read hal_bsp_flash_dev id address num_bytes w))
  = w_calls w
    ++ [EvRead hf address num_bytes
          (fst (fst (hff_read (hf_itf hf) address num_bytes (w_dev w))))] /\
  hal_flash_erase hal_bsp_flash_dev VE BUF fuel id address num_bytes w
  = (Done (-1), w).
Proof.
  intros Hdev Hb Hs Hfit Ha Hn Hin Hwrap Hlow.
  destruct (wrapping_request_passes hf address num_bytes Hb Hs Hfit Ha Hn
              Hin Hwrap Hlow) as [Hpass Hend].
  split; [lia |]. split; [| split].
  - unfold hal_flash_write. rewrite Hdev, Hpass.
    destruct (call_write_run hf address src num_bytes w)
      as (rc & w1 & Hw & Hrc & [Hlog _]).
    rewrite (bind_done _ _ _ _ _ Hw). rewrite <- Hrc.
    destruct (negb (rc =? 0)); [exists []; exact Hlog |].
    destruct VW; [| exists []; exact Hlog].
    unfold bind at 1.
    destruct (hal_flash_cmp BUF fuel hf address src num_bytes w1)
      as [o w2] eqn:Ecmp.
    apply cmp_loop_reads in Ecmp. destruct Ecmp as (tr & [Hlog2 _] & _).
    exists tr.
    assert (w_calls w2
            = w_calls w ++ EvWrite hf address src num_bytes rc :: tr) as Hall
      by (rewrite Hlog2, Hlog, <- app_assoc; reflexivity).
    destruct o as [c | |]; [| exact Hall | exact Hall].
    unfold bind, assert, ret. destruct (c =? 0); exact Hall.
  - unfold hal_flash_read. rewrite Hdev, Hpass.
    destruct (call_read_run hf address num_bytes w)
      as (rc & buf & w1 & Hr & Hrc & [Hlog _]).
    rewrite Hr, <- Hrc. exact Hlog.
  - unfold hal_flash_erase. rewrite Hdev, Hpass.
    destruct (Z.leb_spec (add32 address num_bytes) address);
      [reflexivity | lia].
Qed.

(** On the device at the bottom of the address space, a write of
    [0xFFFFFFF8] bytes at [0x10] goes to the driver. *)
Lemma wrapping_request_reaches_driver_low :
  exists tr,
    w_calls (snd (hal_flash_write (one_dev low_flash) false 16 0 0 16
                    [1; 2] 4294967288 (boot zeroed)))
    = EvWrite low_flash 16 [1; 2] 4294967288 0 :: tr.
Proof.
  destruct (wrapping_request_reaches_driver (one_dev low_flash) false false
              16 0%nat 0 low_flash 16 [1; 2] 4294967288 (boot zeroed))
    as (_ & Hwrite & _).
  - reflexivity.
  - unfold u32, u32_max. simpl. lia.
  - unfold u32, u32_max. simpl. lia.
  - unfold u32_max. simpl. lia.
  - unfold u32, u32_max. lia.
  - unfold u32, u32_max. lia.
  - simpl. lia.
  - unfold u32_max. lia.
  - simpl. lia.
  - exact Hwrite.
Defined.

(** ** hal_flash_write and hal_flash_read together *)

Lemma memcmp_eq_intro (buf src : list Z) (off n : Z) :
  (forall j, (j < Z.to_nat n)%nat ->
     byte_at buf j = byte_at src (Z.to_nat off + j)) ->
  memcmp_eq buf src off n = true.
Proof.
  intros H. unfold memcmp_eq. apply forallb_forall. intros j Hj.
  apply in_seq in Hj. apply Z.eqb_eq, H. lia.
Qed.

(** When the device holds the source, the comparison returns 0, as long as
    the offset cannot wrap. *)
Lemma cmp_loop_accepts {St} BUF (hf : hal_flash St) mem address src
    num_bytes s :
  reads_contents hf mem -> reads_succeed hf ->
  0 < BUF -> num_bytes + BUF <= u32_max + 1 ->
  (forall i, 0 <= i < num_bytes ->
     mem s (add32 address i) = byte_at src (Z.to_nat i)) ->
  forall fuel off w,
    w_dev w = s -> 0 <= off -> (Z.to_nat (num_bytes - off) < fuel)%nat ->
    exists w',
      hal_flash_cmp_loop BUF fuel hf address src num_bytes off w
      = (Done 0, w') /\ w_dev w' = s.
Proof.
  intros Hmem Hok Hbuf Hfit Hsame.
  induction fuel as [| fuel IH]; intros off w Hs Hoff Hfuel; [lia |].
  rewrite cmp_loop_unfold.
  destruct (Z.ltb_spec off num_bytes); [| exists w; auto].
  destruct (call_read_run hf (add32 address off)
              (chunk_size BUF (num_bytes - off)) w)
    as (rc & buf & w1 & Hr & Hrd & [_ Hs1]).
  rewrite (bind_done _ _ _ _ _ Hr).
  destruct (Hmem (add32 address off) (chunk_size BUF (num_bytes - off))
              (w_dev w)) as [Hkeep Hdata].
  pose proof (Hok (add32 address off) (chunk_size BUF (num_bytes - off))
                (w_dev w)) as Hrc.
  rewrite <- Hrd in Hdata, Hrc. simpl in Hdata, Hrc, Hs1. subst rc.
  rewrite Hkeep, Hs in Hs1. simpl negb. cbv iota.
  assert (chunk_size BUF (num_bytes - off) <= num_bytes - off) as Hchunk
    by (destruct (chunk_size_cases BUF (num_bytes - off)) as [[? ->] | [? ->]];
        lia).
  rewrite memcmp_eq_intro.
  - assert (add32 off BUF = off + BUF) as ->
      by (apply add32_small; unfold u32_max in *; lia).
    apply IH; [exact Hs1 | lia | lia].
  - intros j Hj. rewrite (Hdata eq_refl j Hj), Hs, add32_add32.
    rewrite Hsame by lia. f_equal. lia.
Qed.

(** X6.  With the verification of writes on and a driver whose read hands
    back the contents of the device: when [hal_flash_write] has returned 0,
    a [hal_flash_read] of the same range that follows and succeeds returns
    the bytes of the source, one for one. *)
Theorem verified_write_then_read {St}
    (hal_bsp_flash_dev : Z -> option (hal_flash St))
    (BUF : Z) (fuel : nat) (id : Z) (hf : hal_flash St) (mem : St -> Z -> Z)
    (address : Z) (src : list Z) (num_bytes : Z) (w w' : world St) :
  hal_bsp_flash_dev id = Some hf ->
  reads_contents hf mem ->
  0 < BUF -> u32 num_bytes ->
  hal_flash_write hal_bsp_flash_dev true BUF fuel id address src num_bytes w
  = (Done 0, w') ->
  forall rc buf w'',
    hal_flash_read hal_bsp_flash_dev id address num_bytes w'
    = (Done (rc, buf), w'') ->
    rc = 0 ->
    forall j, (j < Z.to_nat num_bytes)%nat -> byte_at buf j = byte_at src j.
Proof.
  intros Hdev Hmem Hbuf Hn Hwrite rc buf w'' Hread Hrc j Hj.
  unfold hal_flash_read in Hread. rewrite Hdev in Hread.
  destruct (check_range hf address num_bytes) eqn:Ecr.
  { unfold hal_flash_write in Hwrite. rewrite Hdev, Ecr in Hwrite.
    discriminate. }
  pose proof (proj1 (check_range_false hf address num_bytes) Ecr)
    as [Hc1 Hc2].
  rewrite (write_unfold _ _ _ _ _ hf _ _ _ Hdev Hc1 Hc2) in Hwrite.
  destruct (call_write_run hf address src num_bytes w)
    as (wrc & w1 & Hw & _ & _).
  rewrite (bind_done _ _ _ _ _ Hw) in Hwrite.
  destruct (Z.eqb_spec wrc 0) as [-> | Hne].
  2:{ cbn [negb] in Hwrite. inversion Hwrite. contradiction. }
  cbn [negb] in Hwrite.
  unfold bind at 1 in Hwrite.
  destruct (hal_flash_cmp BUF fuel hf address src num_bytes w1)
    as [o w2] eqn:Ecmp.
  destruct o as [c | |]; try discriminate.
  unfold bind, assert, ret in Hwrite.
  destruct (Z.eqb_spec c 0) as [-> | Hc]; [| discriminate].
  inversion Hwrite; subst w2. clear Hwrite.
  pose proof (cmp_loop_keeps_state _ _ _ _ _ _ Hmem _ _ _ _ _ Ecmp) as Hs.
  assert (mem (w_dev w') (add32 address (Z.of_nat j)) = byte_at src j) as Hb.
  { destruct (Z.eq_dec (mem (w_dev w') (add32 address (Z.of_nat j)))
                (byte_at src j)) as [| Hdiff]; [assumption |].
    exfalso.
    destruct (cmp_loop_finds_mismatch BUF hf mem address src num_bytes
                (w_dev w1) (Z.of_nat j) Hmem Hbuf Hn ltac:(lia)
                ltac:(rewrite <- Hs, Nat2Z.id; exact Hdiff)
                fuel 0 w1 eq_refl ltac:(lia))
      as (o & w3 & Hrun & _ & [[-> _] | (c & -> & Hc)]);
      unfold hal_flash_cmp in Ecmp; rewrite Ecmp in Hrun;
      inversion Hrun; congruence. }
  destruct (call_read_run hf address num_bytes w')
    as (rc' & buf' & w3 & Hr & Hrd & _).
  rewrite Hr in Hread. inversion Hread; subst rc' buf' w3.
  destruct (Hmem address num_bytes (w_dev w')) as [_ Hdata].
  rewrite <- Hrd in Hdata. simpl in Hdata.
  rewrite (Hdata Hrc j Hj). exact Hb.
Qed.

(** On the example device the three bytes written at [0x8000] are read
    back. *)
Lemma verified_write_then_read_ram :
  exists buf w'',
    hal_flash_read (one_dev ram_flash) 0 32768 3
      (snd (hal_flash_write (one_dev ram_flash) true 16 8 0 32768 [1; 2; 3]
              3 (boot zeroed)))
    = (Done (0, buf), w'') /\
    forall j, (j < 3)%nat -> byte_at buf j = byte_at [1; 2; 3] j.
Proof.
  eexists _, _. split; [reflexivity |].
  apply (verified_write_then_read (one_dev ram_flash) 16 8 0 ram_flash
           (fun s x => s x) 32768 [1; 2; 3] 3 (boot zeroed)
           (snd (hal_flash_write (one_dev ram_flash) true 16 8 0 32768
                   [1; 2; 3] 3 (boot zeroed))) eq_refl
           (ram_reads_contents ram_flash eq_refl) ltac:(lia)
           ltac:(unfold u32, u32_max; lia) eq_refl 0 _ _ eq_refl eq_refl).
Defined.

(** X7.  With the verification of writes on, a driver whose reads succeed
    and hand back the contents of the device, and a length that leaves room
    for the last step of the offset (num_bytes + BUF_SZ <= 2^32): a
    validated write that the driver reports as done and after which the
    device holds the source returns 0, with no assertion, after the write
    and a run of reads that leave the device as the write left it. *)
Theorem verified_write_accepts_stored_data {St}
    (hal_bsp_flash_dev : Z -> option (hal_flash St))
    (BUF : Z) (fuel : nat) (id : Z) (hf : hal_flash St) (mem : St -> Z -> Z)
    (address : Z) (src : list Z) (num_bytes : Z) (w : world St) :
  hal_bsp_flash_dev id = Some hf ->
  hal_flash_check_addr hf address = 0 ->
  hal_flash_check_addr hf (add32 address num_bytes) = 0 ->
  reads_contents hf mem -> reads_succeed hf ->
  0 < BUF -> 0 <= num_bytes -> num_bytes + BUF <= u32_max + 1 ->
  fst (hff_write (hf_itf hf) address src num_bytes (w_dev w)) = 0 ->
  (forall i, 0 <= i < num_bytes ->
     mem (snd (hff_write (hf_itf hf) address src num_bytes (w_dev w)))
       (add32 address i)
     = byte_at src (Z.to_nat i)) ->
  (Z.to_nat num_bytes < fuel)%nat ->
  exists w' tr,
    hal_flash_write hal_bsp_flash_dev true BUF fuel id address src num_bytes w
    = (Done 0, w') /\
    w_calls w' = w_calls w ++ EvWrite hf address src num_bytes 0 :: tr /\
    Forall (fun e => is_read_call e = true) tr /\
    w_dev w' = snd (hff_write (hf_itf hf) address src num_bytes (w_dev w)).
Proof.
  intros Hdev Hc1 Hc2 Hmem Hok Hbuf Hn Hfit Hwok Hsame Hfuel.
  destruct (call_write_run hf address src num_bytes w)
    as (rc & w1 & Hw & Hrc & [Hlog Hs1]).
  rewrite Hwok in Hrc. subst rc. simpl in Hs1.
  destruct (cmp_loop_accepts BUF hf mem address src num_bytes _ Hmem Hok
              Hbuf Hfit Hsame fuel 0 w1 Hs1 ltac:(lia)
              ltac:(rewrite Z.sub_0_r; exact Hfuel))
    as (w' & Hcmp & Hs').
  pose proof (cmp_loop_reads _ _ _ _ _ _ _ _ _ _ Hcmp)
    as (tr & [Hlog2 _] & Hrd).
  fold (hal_flash_cmp BUF fuel hf address src num_bytes) in Hcmp.
  exists w', tr. split.
  - rewrite (write_unfold _ _ _ _ _ hf) by assumption.
    rewrite (bind_done _ _ _ _ _ Hw).
    change (negb (0 =? 0)) with false. cbv iota.
    rewrite (bind_done _ _ _ _ _ Hcmp). reflexivity.
  - split; [rewrite Hlog2, Hlog, <- app_assoc; reflexivity |].
    split; [exact Hrd | exact Hs'].
Qed.

Lemma ram_write_stores (hf : hal_flash ram) :
  hff_write (hf_itf hf) = ram_write ->
  forall a src n s i,
    u32 a -> 0 <= i < n -> a + n <= u32_max + 1 ->
    snd (hff_write (hf_itf hf) a src n s) (add32 a i)
    = byte_at src (Z.to_nat i).
Proof.
  intros Hw a src n s i Ha Hi Hfit. rewrite Hw. unfold ram_write. simpl.
  rewrite add32_small by (unfold u32, u32_max in *; lia).
  destruct (Z.leb_spec a (a + i)); [| lia].
  destruct (Z.ltb_spec (a + i) (a + n)); [| lia].
  simpl. f_equal. lia.
Qed.

(** On the example device the verified write of three bytes returns 0. *)
Lemma verified_write_accepts_stored_data_ram :
  exists w' tr,
    hal_flash_write (one_dev ram_flash) true 16 8 0 32768 [1; 2; 3] 3
      (boot zeroed) = (Done 0, w') /\
    w_calls w' = EvWrite ram_flash 32768 [1; 2; 3] 3 0 :: tr /\
    Forall (fun e => is_read_call e = true) tr.
Proof.
  destruct (verified_write_accepts_stored_data (one_dev ram_flash) 16 8 0
              ram_flash (fun s x => s x) 32768 [1; 2; 3] 3 (boot zeroed))
    as (w' & tr & Hrun & Hlog & Hrd & _).
  - reflexivity.
  - reflexivity.
  - reflexivity.
  - apply ram_reads_contents. reflexivity.
  - intros a n s. reflexivity.
  - lia.
  - lia.
  - unfold u32_max. lia.
  - reflexivity.
  - intros i Hi. apply (ram_write_stores ram_flash eq_refl);
      unfold u32, u32_max; lia.
  - simpl. lia.
  - exists w', tr. auto.
Defined.

(** ** hal_flash_erase: the state of the device after a scan *)

(** A turn of a scan that goes on to return 0, for a driver whose reads
    leave the device as it is: the sector was erased by the driver when the
    range meets it, and the device was not touched when it does not. *)
Lemma erase_loop_done_turn {St} VE BUF fuel (hf : hal_flash St) mem address
    end_ n i w w' :
  reads_contents hf mem ->
  hal_flash_erase_loop VE BUF fuel hf address end_ (S n) i w = (Done 0, w') ->
  exists start size w3,
    hff_sector_info (hf_itf hf) i = (0, (start, size)) /\
    hal_flash_erase_loop VE BUF fuel hf address end_ n (i + 1) w3
    = (Done 0, w') /\
    (if sector_hit address end_ start size
     then fst (hff_erase_sector (hf_itf hf) start (w_dev w)) = 0 /\
          w_dev w3 = snd (hff_erase_sector (hf_itf hf) start (w_dev w))
     else w_dev w3 = w_dev w).
Proof.
  intros Hmem H. simpl in H.
  destruct (call_sector_info_run hf i w) as (w1 & Hq & [_ Hs1]).
  rewrite (bind_done _ _ _ _ _ Hq) in H. simpl in Hs1.
  destruct (hff_sector_info (hf_itf hf) i) as [rc [start size]].
  unfold bind at 1, assert at 1 in H.
  destruct (Z.eqb_spec rc 0) as [-> | Hrc]; [| discriminate].
  exists start, size.
  destruct (sector_hit address end_ start size).
  2:{ exists w1. auto. }
  destruct (call_erase_sector_run hf start w1) as (e & w2 & He & Hev & [_ Hs2]).
  rewrite (bind_done _ _ _ _ _ He) in H. simpl in Hs2.
  rewrite Hs1 in Hev, Hs2.
  destruct (Z.eqb_spec e 0) as [-> | Hne]; cbn [negb] in H;
    [| discriminate].
  destruct VE.
  - unfold bind at 1 in H. unfold bind at 1 in H.
    destruct (hal_flash_cmp_erased BUF fuel hf start size w2)
      as [c w3] eqn:Ec.
    pose proof (cmp_erased_loop_keeps_state _ _ _ _ _ Hmem _ _ _ _ _ Ec)
      as Hs3.
    destruct c as [c | |]; try discriminate.
    unfold assert in H. destruct (c =? 0); [| discriminate].
    exists w3. repeat split; auto. congruence.
  - unfold bind at 1, ret at 1 in H. exists w2. auto.
Qed.

Lemma sector_hit_of_byte {St} (hf : hal_flash St) address end_ i x
    start size :
  0 <= address -> address <= x < end_ ->
  in_sector hf i x ->
  hff_sector_info (hf_itf hf) i = (0, (start, size)) ->
  sector_hit address end_ start size = true /\ start <= x < start + size.
Proof.
  intros Ha Hx (start' & size' & Hg & Hin & Hfit) Hg'.
  rewrite Hg in Hg'. inversion Hg'; subst start' size'.
  unfold sector_hit. rewrite add32_small by lia.
  split; [| exact Hin].
  apply andb_true_iff. split; [apply Z.ltb_lt | apply Z.gtb_gt]; lia.
Qed.

(** After a scan that returned 0, for a driver whose erase leaves a sector
    at [0xFF]: the bytes that held [0xFF] still do, and so does every byte
    of the range that lies in one of the sectors the scan went through. *)
Lemma erase_loop_sets_ones {St} VE BUF fuel (hf : hal_flash St) mem address
    end_ :
  reads_contents hf mem -> erase_sets_ones hf mem -> 0 <= address ->
  forall n i w w',
    hal_flash_erase_loop VE BUF fuel hf address end_ n i w = (Done 0, w') ->
    forall x,
      mem (w_dev w) x = 255 \/
      (address <= x < end_ /\
       exists j, i <= j < i + Z.of_nat n /\ in_sector hf j x) ->
      mem (w_dev w') x = 255.
Proof.
  intros Hmem Hers Ha.
  induction n as [| n IH]; intros i w w' H x Hx.
  - simpl in H. inversion H; subst.
    destruct Hx as [Hx | (_ & j & Hj & _)]; [exact Hx | lia].
  - destruct (erase_loop_done_turn _ _ _ _ _ _ _ _ _ _ _ Hmem H)
      as (start & size & w3 & Hg & Hrest & Hturn).
    apply (IH _ _ _ Hrest).
    destruct Hx as [Hx | (Hin & j & Hj & Hsec)].
    + left. destruct (sector_hit address end_ start size).
      * destruct Hturn as [Hok ->]. apply (Hers _ _ Hok x). exact Hx.
      * rewrite Hturn. exact Hx.
    + destruct (Z.eq_dec j i) as [-> | Hne].
      * left.
        destruct (sector_hit_of_byte hf address end_ i x start size Ha Hin
                    Hsec Hg) as [Hhit Hbyte].
        rewrite Hhit in Hturn. destruct Hturn as [Hok ->].
        apply (proj2 (Hers _ _ Hok x) i size Hg Hbyte).
      * right. split; [exact Hin |]. exists j. split; [lia | exact Hsec].
Qed.

(** What a run of [hal_flash_erase] that returned 0 was asked. *)
Lemma erase_done_was_valid {St}
    (hal_bsp_flash_dev : Z -> option (hal_flash St)) VE BUF fuel id hf
    address num_bytes w w' :
  hal_bsp_flash_dev id = Some hf ->
  u32 address -> u32 num_bytes ->
  hal_flash_erase hal_bsp_flash_dev VE BUF fuel id address num_bytes w
  = (Done 0, w') ->
  check_range hf address num_bytes = false /\
  0 < num_bytes /\ address + num_bytes <= u32_max /\
  hal_flash_erase_loop VE BUF fuel hf address (address + num_bytes)
    (Z.to_nat (hf_sector_cnt hf)) 0 w = (Done 0, w').
Proof.
  intros Hdev Ha Hn H. unfold hal_flash_erase in H. rewrite Hdev in H.
  destruct (check_range hf address num_bytes); [discriminate |].
  destruct (Z.leb_spec (add32 address num_bytes) address) as [| Hlt];
    [discriminate |].
  assert (address + num_bytes <= u32_max) as Hfit.
  { destruct (Z.le_gt_cases (address + num_bytes) u32_max) as [| Hwrap];
      [assumption |].
    rewrite add32_wrap in Hlt by (assumption || lia).
    unfold u32, u32_max in *. lia. }
  unfold u32 in *. rewrite add32_small in H, Hlt by lia.
  repeat split; auto. lia.
Qed.

Lemma erase_done_sets_ones {St}
    (hal_bsp_flash_dev : Z -> option (hal_flash St)) VE BUF fuel id hf mem
    address num_bytes w w' :
  hal_bsp_flash_dev id = Some hf ->
  reads_contents hf mem -> erase_sets_ones hf mem ->
  u32 address -> u32 num_bytes ->
  hal_flash_erase hal_bsp_flash_dev VE BUF fuel id address num_bytes w
  = (Done 0, w') ->
  forall x,
    mem (w_dev w) x = 255 \/
    (address <= x < address + num_bytes /\
     exists i, 0 <= i < hf_sector_cnt hf /\ in_sector hf i x) ->
    mem (w_dev w') x = 255.
Proof.
  intros Hdev Hmem Hers Ha Hn H x Hx.
  destruct (erase_done_was_valid _ _ _ _ _ _ _ _ _ _ Hdev Ha Hn H)
    as (_ & _ & _ & Hloop).
  assert (0 <= address) as Ha0 by (unfold u32 in Ha; lia).
  apply (erase_loop_sets_ones _ _ _ _ _ _ _ Hmem Hers Ha0 _ _ _ _ Hloop).
  destruct Hx as [Hx | (Hin & i & Hi & Hsec)]; [left; exact Hx |].
  right. split; [exact Hin |]. exists i. split; [lia | exact Hsec].
Qed.

(** X8.  For a driver whose read hands back the contents of the device and
    whose erase leaves the bytes of the sector at [0xFF] (and those that
    held [0xFF] as they are): once [hal_flash_erase] has returned 0, every
    byte of the requested range that lies in a sector of the device holds
    [0xFF], and no byte that held [0xFF] before has lost it. *)
Theorem hal_flash_erase_leaves_ones {St}
    (hal_bsp_flash_dev : Z -> option (hal_flash St))
    (VE : bool) (BUF : Z) (fuel : nat) (id : Z) (hf : hal_flash St)
    (mem : St -> Z -> Z) (address num_bytes : Z) (w w' : world St) :
  hal_bsp_flash_dev id = Some hf ->
  reads_contents hf mem -> erase_sets_ones hf mem ->
  u32 address -> u32 num_bytes ->
  hal_flash_erase hal_bsp_flash_dev VE BUF fuel id address num_bytes w
  = (Done 0, w') ->
  (forall x, address <= x < address + num_bytes ->
     (exists i, 0 <= i < hf_sector_cnt hf /\ in_sector hf i x) ->
     mem (w_dev w') x = 255) /\
  (forall x, mem (w_dev w) x = 255 -> mem (w_dev w') x = 255).
Proof.
  intros Hdev Hmem Hers Ha Hn H.
  pose proof (erase_done_sets_ones _ _ _ _ _ _ _ _ _ _ _ Hdev Hmem Hers Ha Hn
                H) as Hones.
  split.
  - intros x Hx Hsec. apply Hones. right. auto.
  - intros x Hx. apply Hones. left. exact Hx.
Qed.

Lemma ram_erase_sets_ones (hf : hal_flash ram) :
  hff_erase_sector (hf_itf hf) = ram_erase_sector ->
  (forall i a size,
     hff_sector_info (hf_itf hf) i = (0, (a, size)) -> size = 1024) ->
  erase_sets_ones hf (fun s x => s x).
Proof.
  intros He Hsz a s _ x. rewrite He. unfold ram_erase_sector. simpl.
  split.
  - intros Hx. destruct ((a <=? x) && (x <? a + 1024)); auto.
  - intros i size Hg Hin. rewrite (Hsz _ _ _ Hg) in Hin.
    destruct (Z.leb_spec a x); [| lia].
    destruct (Z.ltb_spec x (a + 1024)); [reflexivity | lia].
Qed.

Lemma ram_sector_size i a size :
  ram_sector_info i = (0, (a, size)) -> size = 1024.
Proof.
  unfold ram_sector_info. destruct ((0 <=? i) && (i <? 4)); intros H;
    inversion H; reflexivity.
Qed.

Lemma ram_in_sector (hf : hal_flash ram) (i x : Z) :
  hff_sector_info (hf_itf hf) = ram_sector_info ->
  0 <= i < 4 -> 32768 + 1024 * i <= x < 32768 + 1024 * i + 1024 ->
  in_sector hf i x.
Proof.
  intros Hg Hi Hx. exists (32768 + 1024 * i), 1024. rewrite Hg.
  unfold ram_sector_info.
  destruct (Z.leb_spec 0 i); [| lia]. destruct (Z.ltb_spec i 4); [| lia].
  split; [reflexivity |]. unfold u32_max. lia.
Qed.

(** On the example device, after the erase of [0x200] bytes at [0x8300],
    the byte at [0x8340] holds [0xFF]. *)
Lemma hal_flash_erase_leaves_ones_ram :
  w_dev (snd (hal_flash_erase (one_dev ram_flash) false 16 0 0 33536 512
                (boot zeroed))) 33600 = 255.
Proof.
  destruct (hal_flash_erase_leaves_ones (one_dev ram_flash) false 16 0%nat 0
              ram_flash (fun s x => s x) 33536 512 (boot zeroed)
              (snd (hal_flash_erase (one_dev ram_flash) false 16 0 0 33536
                      512 (boot zeroed))))
    as [Hrange _].
  - reflexivity.
  - apply ram_reads_contents. reflexivity.
  - apply ram_erase_sets_ones; [reflexivity |].
    intros i a size. apply ram_sector_size.
  - unfold u32, u32_max. lia.
  - unfold u32, u32_max. lia.
  - reflexivity.
  - apply Hrange; [lia |].
    exists 0. split; [simpl; lia |].
    apply ram_in_sector; [reflexivity | lia | lia].
Defined.

(** X9.  Erase, then ask.  For a driver without an is-empty capability of
    its own, whose reads succeed and hand back the contents of the device
    and whose erase leaves a sector at [0xFF]: once [hal_flash_erase] has
    returned 0 on a range that the sectors of the device cover,
    [hal_flash_isempty] on the same range returns 1. *)
Theorem erase_then_isempty {St}
    (hal_bsp_flash_dev : Z -> option (hal_flash St))
    (VE : bool) (BUF : Z) (fuel : nat) (id : Z) (hf : hal_flash St)
    (mem : St -> Z -> Z) (address num_bytes : Z) (w w' : world St) :
  hal_bsp_flash_dev id = Some hf ->
  hff_is_empty (hf_itf hf) = None ->
  reads_contents hf mem -> reads_succeed hf -> erase_sets_ones hf mem ->
  u32 address -> u32 num_bytes ->
  sectors_cover hf address num_bytes ->
  hal_flash_erase hal_bsp_flash_dev VE BUF fuel id address num_bytes w
  = (Done 0, w') ->
  fst (hal_flash_isempty hal_bsp_flash_dev id address num_bytes w') = Done 1.
Proof.
  intros Hdev Hnone Hmem Hok Hers Ha Hn Hcover H.
  destruct (erase_done_was_valid _ _ _ _ _ _ _ _ _ _ Hdev Ha Hn H)
    as (Hpass & Hpos & Hfit & _).
  unfold hal_flash_isempty. rewrite Hdev, Hpass, Hnone.
  unfold hal_flash_is_ones.
  apply (hal_flash_is_setto_first_chunk hf mem); auto; [lia |].
  intros j Hj. unfold u32 in *. rewrite add32_small by lia.
  apply (erase_done_sets_ones _ _ _ _ _ _ _ _ _ _ _ Hdev Hmem Hers Ha Hn H).
  right. split; [lia |]. apply Hcover. lia.
Qed.

(** On the example device: the erase of [0x200] bytes at [0x8300], then the
    query of the same range. *)
Lemma erase_then_isempty_ram :
  fst (hal_flash_isempty (one_dev ram_flash) 0 33536 512
         (snd (hal_flash_erase (one_dev ram_flash) false 16 0 0 33536 512
                 (boot zeroed)))) = Done 1.
Proof.
  apply (erase_then_isempty (one_dev ram_flash) false 16 0%nat 0 ram_flash
           (fun s x => s x) 33536 512 (boot zeroed)).
  - reflexivity.
  - reflexivity.
  - apply ram_reads_contents. reflexivity.
  - intros a n s. reflexivity.
  - apply ram_erase_sets_ones; [reflexivity |].
    intros i a size. apply ram_sector_size.
  - unfold u32, u32_max. lia.
  - unfold u32, u32_max. lia.
  - intros x Hx. destruct (Z.lt_ge_cases x 33792).
    + exists 0. split; [simpl; lia |].
      apply ram_in_sector; [reflexivity | lia | lia].
    + exists 1. split; [simpl; lia |].
      apply ram_in_sector; [reflexivity | lia | lia].
  - reflexivity.
Defined.

(** ** hal_flash_is_setto, hal_flash_is_ones, hal_flash_is_zeroes *)

Lemma is_setto_loop_behaviour {St} (hf : hal_flash St) address val :
  forall fuel num_bytes w,
    0 <= num_bytes -> (Z.to_nat num_bytes < fuel)%nat ->
    exists r w' tr,
      hal_flash_is_setto_loop fuel hf address num_bytes val w = (Done r, w') /\
      (r = -1 \/ r = 0 \/ r = 1) /\
      extends w w' tr /\
      Forall (is_chunk_read hf address) tr /\
      Z.of_nat (length tr) * 32 < num_bytes + 32 /\
      (r = -1 <-> Exists (fun e => call_status e <> 0) tr).
Proof.
  induction fuel as [| fuel IH]; intros num_bytes w Hn Hfuel; [lia |].
  rewrite is_setto_loop_unfold, blksz_min.
  destruct (Z.eqb_spec num_bytes 0) as [-> | Hnz].
  { exists 1, w, []. split; [reflexivity |]. split; [auto |].
    split; [apply extends_nil |]. split; [constructor |].
    split; [simpl; lia |].
    split; [discriminate | intros HE; inversion HE]. }
  destruct (call_read_run hf address (Z.min num_bytes 32) w)
    as (rc & buf & w1 & Hr & _ & Hx).
  rewrite (bind_done _ _ _ _ _ Hr).
  assert (is_chunk_read hf address
            (EvRead hf address (Z.min num_bytes 32) rc)) as Hchunk
    by (simpl; repeat split; lia).
  destruct (Z.eqb_spec rc 0) as [-> | Hrc]; cbn [negb].
  2:{ exists (-1), w1, [EvRead hf address (Z.min num_bytes 32) rc].
      split; [reflexivity |]. split; [auto |]. split; [exact Hx |].
      split; [constructor; [exact Hchunk | constructor] |].
      split; [simpl; lia |].
      split; [intros _; constructor; exact Hrc | reflexivity]. }
  destruct (all_bytes buf (Z.min num_bytes 32) val).
  2:{ exists 0, w1, [EvRead hf address (Z.min num_bytes 32) 0].
      split; [reflexivity |]. split; [auto |]. split; [exact Hx |].
      split; [constructor; [exact Hchunk | constructor] |].
      split; [simpl; lia |].
      split; [discriminate |].
      intros HE. inversion HE as [? ? H0 | ? ? H0]; subst;
        [simpl in H0; contradiction | inversion H0]. }
  destruct (IH (num_bytes - Z.min num_bytes 32) w1 ltac:(lia) ltac:(lia))
    as (r & w' & tr & Hrun & Hr3 & Hx' & Hreads & Hlen & Hfail).
  exists r, w', ([EvRead hf address (Z.min num_bytes 32) 0] ++ tr).
  split; [exact Hrun |]. split; [exact Hr3 |].
  split; [apply (extends_app _ _ _ _ _ Hx Hx') |].
  split; [constructor; [exact Hchunk | exact Hreads] |].
  split.
  - simpl length. destruct (Z.le_gt_cases 32 num_bytes).
    + rewrite Z.min_r in Hlen by lia. lia.
    + rewrite Z.min_l in Hlen by lia.
      replace (num_bytes - num_bytes) with 0 in Hlen by lia. lia.
  - rewrite Hfail. simpl. rewrite Exists_cons. simpl. split; [auto |].
    intros [Hbad | HE]; [contradiction | exact HE].
Qed.

(** X10.  [hal_flash_is_setto] always returns, and returns -1, 0 or 1.  All
    it does to the device is read: each call is a read of 1 to 32 bytes at
    the start address of the region, and there are at most one per started
    chunk of 32 bytes (none for an empty region, which gives 1).  It
    returns -1 exactly when a read has failed. *)
Theorem hal_flash_is_setto_reads_in_chunks {St} (hf : hal_flash St)
    (address num_bytes val : Z) (w : world St) :
  0 <= num_bytes ->
  exists r w' tr,
    hal_flash_is_setto hf address num_bytes val w = (Done r, w') /\
    (r = -1 \/ r = 0 \/ r = 1) /\
    extends w w' tr /\
    Forall (is_chunk_read hf address) tr /\
    Z.of_nat (length tr) * 32 < num_bytes + 32 /\
    (r = -1 <-> Exists (fun e => call_status e <> 0) tr) /\
    (num_bytes = 0 -> r = 1 /\ tr = []).
Proof.
  intros Hn.
  destruct (is_setto_loop_behaviour hf address val (S (Z.to_nat num_bytes))
              num_bytes w Hn ltac:(lia))
    as (r & w' & tr & Hrun & Hr3 & Hx & Hreads & Hlen & Hfail).
  exists r, w', tr.
  split; [exact Hrun |]. split; [exact Hr3 |]. split; [exact Hx |].
  split; [exact Hreads |]. split; [exact Hlen |]. split; [exact Hfail |].
  intros ->. split.
  - unfold hal_flash_is_setto in Hrun. simpl in Hrun.
    inversion Hrun. reflexivity.
  - destruct tr; [reflexivity | simpl length in Hlen; lia].
Qed.

(** 100 bytes of the example device are looked at with at most four reads. *)
Lemma hal_flash_is_setto_reads_in_chunks_ram :
  exists r w' tr,
    hal_flash_is_setto ram_flash 32768 100 255 (boot blank) = (Done r, w') /\
    w_calls w' = tr /\ (length tr <= 4)%nat.
Proof.
  destruct (hal_flash_is_setto_reads_in_chunks ram_flash 32768 100 255
              (boot blank)) as (r & w' & tr & Hrun & _ & [Hlog _] & _ & Hlen & _).
  - lia.
  - exists r, w', tr. split; [exact Hrun |]. split; [exact Hlog | lia].
Defined.

(** The first turn of [hal_flash_is_setto] on a region that is not empty. *)
Lemma is_setto_first_turn {St} (hf : hal_flash St) address num_bytes val w :
  0 < num_bytes ->
  exists rc buf w1,
    (rc, buf) = fst (hff_read (hf_itf hf) address (Z.min num_bytes 32)
                       (w_dev w)) /\
    extends w w1 [EvRead hf address (Z.min num_bytes 32) rc] /\
    hal_flash_is_setto hf address num_bytes val w
    = if negb (rc =? 0) then (Done (-1), w1)
      else if all_bytes buf (Z.min num_bytes 32) val
      then hal_flash_is_setto_loop (Z.to_nat num_bytes) hf address
             (num_bytes - Z.min num_bytes 32) val w1
      else (Done 0, w1).
Proof.
  intros Hn. unfold hal_flash_is_setto.
  rewrite is_setto_loop_unfold, blksz_min.
  destruct (Z.eqb_spec num_bytes 0); [lia |].
  destruct (call_read_run hf address (Z.min num_bytes 32) w)
    as (rc & buf & w1 & Hr & Hrd & Hx).
  exists rc, buf, w1. split; [exact Hrd |]. split; [exact Hx |].
  rewrite (bind_done _ _ _ _ _ Hr).
  destruct (negb (rc =? 0)); [reflexivity |].
  destruct (all_bytes buf (Z.min num_bytes 32) val); reflexivity.
Qed.

(** X11.  On a region of 1 to 32 bytes, read in one chunk by a driver whose
    read succeeds and hands back the contents of the device,
    [hal_flash_is_setto] is exact: it returns 1 when every byte of the
    region holds the value and 0 when one does not. *)
Theorem hal_flash_is_setto_single_chunk {St} (hf : hal_flash St)
    (mem : St -> Z -> Z) (address num_bytes val : Z) (w : world St) :
  reads_contents hf mem ->
  0 < num_bytes <= 32 ->
  fst (fst (hff_read (hf_itf hf) address num_bytes (w_dev w))) = 0 ->
  (fst (hal_flash_is_setto hf address num_bytes val w) = Done 1 <->
   forall j, 0 <= j < num_bytes -> mem (w_dev w) (add32 address j) = val) /\
  (fst (hal_flash_is_setto hf address num_bytes val w) = Done 1 \/
   fst (hal_flash_is_setto hf address num_bytes val w) = Done 0).
Proof.
  intros Hmem Hn Hok.
  destruct (is_setto_first_turn hf address num_bytes val w ltac:(lia))
    as (rc & buf & w1 & Hrd & _ & Hrun).
  rewrite Z.min_l in Hrd, Hrun by lia.
  destruct (Hmem address num_bytes (w_dev w)) as [_ Hdata].
  rewrite <- Hrd in Hok, Hdata. simpl in Hok, Hdata. subst rc.
  specialize (Hdata eq_refl). cbn [negb] in Hrun.
  replace (num_bytes - num_bytes) with 0 in Hrun by lia.
  destruct (Z.to_nat num_bytes) as [| m] eqn:Em; [lia |].
  rewrite is_setto_loop_unfold in Hrun. simpl (0 =? 0) in Hrun.
  cbv iota in Hrun. rewrite Hrun.
  destruct (all_bytes buf num_bytes val) eqn:Eall.
  - split; [| left; reflexivity]. split; [| reflexivity].
    intros _ j Hj. rewrite all_bytes_true in Eall.
    rewrite <- (Eall (Z.to_nat j)) by lia.
    rewrite (Hdata (Z.to_nat j)) by lia. f_equal. f_equal. lia.
  - split; [| right; reflexivity]. split; [discriminate |].
    intros Hall. exfalso.
    assert (all_bytes buf num_bytes val = true) as Habs; [| congruence].
    apply all_bytes_true. intros j Hj. rewrite (Hdata j) by lia.
    apply Hall. lia.
Qed.

Lemma one_byte_programmed_elsewhere (x : Z) :
  x <> 32800 -> one_byte_programmed x = 255.
Proof.
  intros H. unfold one_byte_programmed. apply Z.eqb_neq in H. rewrite H.
  reflexivity.
Qed.

(** The 32 bytes at [0x8000] of the example device hold [0xFF]; with the
    byte at [0x8020] added, the region of 33 bytes starting one byte later
    does not: asked in one chunk, this is seen. *)
Lemma hal_flash_is_setto_single_chunk_ram :
  fst (hal_flash_is_setto ram_flash 32768 32 255 (boot one_byte_programmed))
  = Done 1 /\
  fst (hal_flash_is_setto ram_flash 32769 32 255 (boot one_byte_programmed))
  = Done 0.
Proof.
  destruct (hal_flash_is_setto_single_chunk ram_flash (fun s x => s x)
              32768 32 255 (boot one_byte_programmed)) as [Hyes _].
  { apply ram_reads_contents. reflexivity. }
  { lia. }
  { reflexivity. }
  destruct (hal_flash_is_setto_single_chunk ram_flash (fun s x => s x)
              32769 32 255 (boot one_byte_programmed)) as [Hno Hcases].
  { apply ram_reads_contents. reflexivity. }
  { lia. }
  { reflexivity. }
  split.
  - apply Hyes. intros j Hj. simpl. apply one_byte_programmed_elsewhere.
    rewrite add32_small by (unfold u32_max; lia). lia.
  - destruct Hcases as [Hone | Hzero]; [| exact Hzero].
    exfalso. pose proof (proj1 Hno Hone 31 ltac:(lia)) as Hbyte.
    vm_compute in Hbyte. discriminate.
Defined.

(** X12.  A region that is not empty cannot be all ones and all zeroes:
    from the same world, when [hal_flash_is_ones] returns 1,
    [hal_flash_is_zeroes] returns 0, and the other way round, whatever the
    driver. *)
Theorem is_ones_excludes_is_zeroes {St} (hf : hal_flash St)
    (address num_bytes : Z) (w : world St) :
  0 < num_bytes ->
  (fst (hal_flash_is_ones hf address num_bytes w) = Done 1 ->
   fst (hal_flash_is_zeroes hf address num_bytes w) = Done 0) /\
  (fst (hal_flash_is_zeroes hf address num_bytes w) = Done 1 ->
   fst (hal_flash_is_ones hf address num_bytes w) = Done 0).
Proof.
  intros Hn. unfold hal_flash_is_ones, hal_flash_is_zeroes.
  destruct (is_setto_first_turn hf address num_bytes 255 w Hn)
    as (rc & buf & w1 & Hrd & _ & Hones).
  destruct (is_setto_first_turn hf address num_bytes 0 w Hn)
    as (rc' & buf' & w1' & Hrd' & _ & Hzeroes).
  rewrite <- Hrd in Hrd'. inversion Hrd'; subst rc' buf'. clear Hrd'.
  rewrite Hones, Hzeroes.
  assert (0 < Z.to_nat (Z.min num_bytes 32))%nat as Hfirst by lia.
  destruct (negb (rc =? 0)); [split; discriminate |].
  destruct (all_bytes buf (Z.min num_bytes 32) 255) eqn:E1;
    destruct (all_bytes buf (Z.min num_bytes 32) 0) eqn:E0.
  - rewrite all_bytes_true in E1, E0.
    pose proof (E1 0%nat Hfirst). pose proof (E0 0%nat Hfirst). congruence.
  - split; [intros _; reflexivity | discriminate].
  - split; [discriminate | intros _; reflexivity].
  - split; discriminate.
Qed.

Lemma is_ones_excludes_is_zeroes_ram :
  fst (hal_flash_is_ones ram_flash 32768 64 (boot blank)) = Done 1 /\
  fst (hal_flash_is_zeroes ram_flash 32768 64 (boot blank)) = Done 0.
Proof.
  assert (fst (hal_flash_is_ones ram_flash 32768 64 (boot blank)) = Done 1)
    as Hones by reflexivity.
  split; [exact Hones |].
  apply (is_ones_excludes_is_zeroes ram_flash 32768 64 (boot blank));
    [lia | exact Hones].
Defined.

(** ** hal_flash_cmp_erased *)

Lemma all_bytes_intro (buf : list Z) (n val : Z) :
  (forall j, (j < Z.to_nat n)%nat -> byte_at buf j = val) ->
  all_bytes buf n val = true.
Proof. apply all_bytes_true. Qed.

(** With a byte of the range that does not hold [0xFF] at the offset [i],
    the scan never returns 0 from an offset at or below [i], and it returns
    once it has fuel for the chunks up to [i]. *)
Lemma cmp_erased_loop_finds_byte {St} BUF (hf : hal_flash St) mem address
    num_bytes s i :
  reads_contents hf mem -> 0 < BUF -> u32 num_bytes ->
  0 <= i < num_bytes ->
  mem s (add32 address i) <> 255 ->
  forall fuel off w,
    w_dev w = s -> 0 <= off <= i ->
    exists o w',
      hal_flash_cmp_erased_loop BUF fuel hf address num_bytes off w = (o, w') /\
      w_dev w' = s /\
      ((o = OutOfFuel /\ (fuel <= Z.to_nat (i - off))%nat) \/
       (exists c, o = Done c /\ c <> 0)).
Proof.
  intros Hmem Hbuf Hn Hi Hdiff.
  induction fuel as [| fuel IH]; intros off w Hs Hoff.
  - exists OutOfFuel, w. split; [reflexivity |]. split; [exact Hs |].
    left. split; [reflexivity | lia].
  - rewrite cmp_erased_loop_unfold.
    destruct (Z.ltb_spec off num_bytes); [| lia].
    destruct (call_read_run hf (add32 address off)
                (chunk_size BUF (num_bytes - off)) w)
      as (rc & buf & w1 & Hr & Hrd & [_ Hs1]).
    rewrite (bind_done _ _ _ _ _ Hr).
    destruct (Hmem (add32 address off) (chunk_size BUF (num_bytes - off))
                (w_dev w)) as [Hkeep Hdata].
    rewrite <- Hrd in Hdata. simpl in Hdata, Hs1.
    rewrite Hkeep, Hs in Hs1.
    destruct (Z.eqb_spec rc 0) as [-> | Hrc]; cbn [negb].
    2:{ exists (Done rc), w1. split; [reflexivity |]. split; [exact Hs1 |].
        right. exists rc. auto. }
    specialize (Hdata eq_refl).
    destruct (all_bytes buf (chunk_size BUF (num_bytes - off)) 255) eqn:Eall.
    2:{ exists (Done (-1)), w1. split; [reflexivity |]. split; [exact Hs1 |].
        right. exists (-1). split; [reflexivity | discriminate]. }
    rewrite all_bytes_true in Eall.
    destruct (Z.lt_ge_cases i (off + chunk_size BUF (num_bytes - off)))
      as [Hin | Hout].
    + exfalso. apply Hdiff.
      assert (Z.to_nat (i - off)
              < Z.to_nat (chunk_size BUF (num_bytes - off)))%nat as Hj by lia.
      pose proof (Hdata _ Hj) as H1. pose proof (Eall _ Hj) as H2.
      rewrite Hs, add32_add32 in H1.
      replace (off + Z.of_nat (Z.to_nat (i - off))) with i in H1 by lia.
      congruence.
    + destruct (chunk_size_cases BUF (num_bytes - off)) as [[_ Hc] | [_ Hc]];
        rewrite Hc in Hout; [| lia].
      assert (add32 off BUF = off + BUF) as ->
        by (apply add32_small; unfold u32 in Hn; lia).
      destruct (IH (off + BUF) w1 Hs1 ltac:(lia))
        as (o & w' & Hrun & Hs' & Ho).
      exists o, w'. split; [exact Hrun |]. split; [exact Hs' |].
      destruct Ho as [[-> Hf] | Hc']; [left | right; exact Hc'].
      split; [reflexivity | lia].
Qed.

(** When the range holds [0xFF], the scan returns 0, as long as the offset
    cannot wrap. *)
Lemma cmp_erased_loop_accepts {St} BUF (hf : hal_flash St) mem address
    num_bytes s :
  reads_contents hf mem -> reads_succeed hf ->
  0 < BUF -> num_bytes + BUF <= u32_max + 1 ->
  (forall i, 0 <= i < num_bytes -> mem s (add32 address i) = 255) ->
  forall fuel off w,
    w_dev w = s -> 0 <= off -> (Z.to_nat (num_bytes - off) < fuel)%nat ->
    exists w',
      hal_flash_cmp_erased_loop BUF fuel hf address num_bytes off w
      = (Done 0, w') /\ w_dev w' = s.
Proof.
  intros Hmem Hok Hbuf Hfit Hsame.
  induction fuel as [| fuel IH]; intros off w Hs Hoff Hfuel; [lia |].
  rewrite cmp_erased_loop_unfold.
  destruct (Z.ltb_spec off num_bytes); [| exists w; auto].
  destruct (call_read_run hf (add32 address off)
              (chunk_size BUF (num_bytes - off)) w)
    as (rc & buf & w1 & Hr & Hrd & [_ Hs1]).
  rewrite (bind_done _ _ _ _ _ Hr).
  destruct (Hmem (add32 address off) (chunk_size BUF (num_bytes - off))
              (w_dev w)) as [Hkeep Hdata].
  pose proof (Hok (add32 address off) (chunk_size BUF (num_bytes - off))
                (w_dev w)) as Hrc.
  rewrite <- Hrd in Hdata, Hrc. simpl in Hdata, Hrc, Hs1. subst rc.
  rewrite Hkeep, Hs in Hs1. cbn [negb].
  assert (chunk_size BUF (num_bytes - off) <= num_bytes - off) as Hchunk
    by (destruct (chunk_size_cases BUF (num_bytes - off)) as [[? ->] | [? ->]];
        lia).
  rewrite all_bytes_intro.
  - assert (add32 off BUF = off + BUF) as ->
      by (apply add32_small; unfold u32_max in *; lia).
    apply IH; [exact Hs1 | lia | lia].
  - intros j Hj. rewrite (Hdata eq_refl j Hj), Hs, add32_add32.
    apply Hsame. lia.
Qed.

(** ** hal_flash_erase_sector *)

(** The search of the verification walks past the sectors that do not start
    at the address. *)
Lemma erase_sector_verify_skips {St} BUF fuel (hf : hal_flash St) address :
  forall n k w,
    (forall j, Z.of_nat k <= j < Z.of_nat k + Z.of_nat n ->
       exists start size,
         hff_sector_info (hf_itf hf) j = (0, (start, size)) /\
         start <> address) ->
    exists w',
      erase_sector_verify BUF fuel hf address n (Z.of_nat k) w = (Done tt, w')
      /\ extends w w'
           (map (fun j => EvSectorInfo hf j 0) (map Z.of_nat (seq k n))).
Proof.
  induction n as [| n IH]; intros k w Hgeo.
  - exists w. split; [reflexivity | apply extends_nil].
  - simpl erase_sector_verify.
    destruct (call_sector_info_run hf (Z.of_nat k) w) as (w1 & Hq & Hx).
    rewrite (bind_done _ _ _ _ _ Hq).
    destruct (Hgeo (Z.of_nat k) ltac:(lia)) as (start & size & Hg & Hne).
    rewrite Hg in *. simpl in Hx.
    unfold bind at 1, assert at 1. simpl (0 =? 0). cbv iota beta.
    destruct (Z.eqb_spec address start) as [| _]; [congruence |].
    replace (Z.of_nat k + 1) with (Z.of_nat (S k)) by lia.
    destruct (IH (S k) w1) as (w' & Hrun & Hx').
    { intros j Hj. apply Hgeo. lia. }
    exists w'. split; [exact Hrun |].
    apply (extends_app _ _ _ _ _ Hx Hx').
Qed.

(** The search stops at the first sector that starts at the address and
    goes to the scan of that sector. *)
Lemma erase_sector_verify_at {St} BUF fuel (hf : hal_flash St) address size
    k :
  hff_sector_info (hf_itf hf) (Z.of_nat k) = (0, (address, size)) ->
  forall n i w,
    (i <= k < i + n)%nat ->
    (forall j, Z.of_nat i <= j < Z.of_nat k ->
       exists start size',
         hff_sector_info (hf_itf hf) j = (0, (start, size')) /\
         start <> address) ->
    exists wk,
      w_dev wk = w_dev w /\
      erase_sector_verify BUF fuel hf address n (Z.of_nat i) w
      = bind (hal_flash_cmp_erased BUF fuel hf address size)
          (fun c => assert (c =? 0)) wk.
Proof.
  intros Hk. induction n as [| n IH]; intros i w Hik Hgeo; [lia |].
  simpl erase_sector_verify.
  destruct (call_sector_info_run hf (Z.of_nat i) w) as (w1 & Hq & [_ Hs1]).
  rewrite (bind_done _ _ _ _ _ Hq). simpl in Hs1.
  destruct (Nat.eq_dec i k) as [-> | Hne].
  - rewrite Hk. unfold bind at 1, assert at 1. simpl (0 =? 0).
    cbv iota beta. rewrite Z.eqb_refl. exists w1. auto.
  - destruct (Hgeo (Z.of_nat i) ltac:(lia)) as (start & size' & Hg & Hst).
    rewrite Hg. unfold bind at 1, assert at 1. simpl (0 =? 0).
    cbv iota beta.
    destruct (Z.eqb_spec address start) as [| _]; [congruence |].
    replace (Z.of_nat i + 1) with (Z.of_nat (S i)) by lia.
    destruct (IH (S i) w1 ltac:(lia)) as (wk & Hs & Hrun).
    { intros j Hj. apply Hgeo. lia. }
    exists wk. split; [congruence | exact Hrun].
Qed.

Lemma erase_sector_unfold {St}
    (hal_bsp_flash_dev : Z -> option (hal_flash St)) VE BUF fuel id hf
    sector_address :
  hal_bsp_flash_dev id = Some hf ->
  hal_flash_check_addr hf sector_address = 0 ->
  hal_flash_erase_sector hal_bsp_flash_dev VE BUF fuel id sector_address
  = bind (call_erase_sector hf sector_address)
      (fun rc =>
         if negb (rc =? 0) then ret rc
         else if VE then
           bind (erase_sector_verify BUF fuel hf sector_address
                   (Z.to_nat (hf_sector_cnt hf)) 0)
             (fun _ => ret 0)
         else ret 0).
Proof.
  intros Hdev Hc. unfold hal_flash_erase_sector. rewrite Hdev, Hc.
  reflexivity.
Qed.

(** X13.  [hal_flash_erase_sector] tests the address against the bounds of
    the device and nothing else, then hands it to the driver as it is, in
    one call.  A status of the driver other than 0 is returned unchanged,
    with no further call.  With the verification of erases off a status 0
    is returned at once.  With the verification on, when the address is
    not the start of any sector, nothing is read back: the geometry of
    every sector is queried and 0 is returned. *)
Theorem hal_flash_erase_sector_status {St}
    (hal_bsp_flash_dev : Z -> option (hal_flash St))
    (VE : bool) (BUF : Z) (fuel : nat) (id : Z) (hf : hal_flash St)
    (sector_address : Z) (w : world St) :
  hal_bsp_flash_dev id = Some hf ->
  hal_flash_check_addr hf sector_address = 0 ->
  (fst (hff_erase_sector (hf_itf hf) sector_address (w_dev w)) <> 0 \/
   VE = false ->
   hal_flash_erase_sector hal_bsp_flash_dev VE BUF fuel id sector_address w
   = (Done (fst (hff_erase_sector (hf_itf hf) sector_address (w_dev w))),
      log (snd (hff_erase_sector (hf_itf hf) sector_address (w_dev w)))
        (EvEraseSector hf sector_address
           (fst (hff_erase_sector (hf_itf hf) sector_address (w_dev w))))
        w)) /\
  (fst (hff_erase_sector (hf_itf hf) sector_address (w_dev w)) = 0 ->
   VE = true ->
   (forall j, 0 <= j < hf_sector_cnt hf ->
      exists start size,
        hff_sector_info (hf_itf hf) j = (0, (start, size)) /\
        start <> sector_address) ->
   exists w',
     hal_flash_erase_sector hal_bsp_flash_dev VE BUF fuel id sector_address w
     = (Done 0, w') /\
     w_dev w' = snd (hff_erase_sector (hf_itf hf) sector_address (w_dev w)) /\
     w_calls w'
     = w_calls w
       ++ EvEraseSector hf sector_address 0
       :: map (fun j => EvSectorInfo hf j 0)
            (sector_indices (hf_sector_cnt hf))).
Proof.
  intros Hdev Hc. rewrite (erase_sector_unfold _ _ _ _ _ hf) by assumption.
  assert (call_erase_sector hf sector_address w
          = (Done (fst (hff_erase_sector (hf_itf hf) sector_address
                          (w_dev w))),
             log (snd (hff_erase_sector (hf_itf hf) sector_address (w_dev w)))
               (EvEraseSector hf sector_address
                  (fst (hff_erase_sector (hf_itf hf) sector_address
                          (w_dev w)))) w)) as Hcall.
  { unfold call_erase_sector.
    destruct (hff_erase_sector (hf_itf hf) sector_address (w_dev w)).
    reflexivity. }
  rewrite (bind_done _ _ _ _ _ Hcall). clear Hcall.
  destruct (hff_erase_sector (hf_itf hf) sector_address (w_dev w))
    as [rc s1]. cbv beta. cbn [fst snd].
  split.
  - intros [Hrc | ->].
    + apply Z.eqb_neq in Hrc. rewrite Hrc. reflexivity.
    + destruct (Z.eqb_spec rc 0) as [-> | _]; reflexivity.
  - intros -> -> Hgeo. cbn [negb Z.eqb]. cbv iota.
    destruct (erase_sector_verify_skips BUF fuel hf sector_address
                (Z.to_nat (hf_sector_cnt hf)) 0%nat
                (log s1 (EvEraseSector hf sector_address 0) w))
      as (w' & Hrun & [Hlog Hs]).
    { intros j Hj. apply Hgeo. lia. }
    simpl Z.of_nat in Hrun.
    rewrite (bind_done _ _ _ _ _ Hrun). exists w'.
    split; [reflexivity |]. split.
    + rewrite Hs. simpl w_dev. clear.
      induction (map Z.of_nat (seq 0 (Z.to_nat (hf_sector_cnt hf))))
        as [| j l IH]; simpl; auto.
    + rewrite Hlog. simpl w_calls. rewrite <- app_assoc. reflexivity.
Qed.

(** On the worn device the status -5 of the driver comes back as it is; on
    the example device, with the verification on, the erase at [0x8410],
    inside the second sector, is followed by the four queries and no
    read. *)
Lemma hal_flash_erase_sector_status_ram :
  fst (hal_flash_erase_sector (one_dev worn_flash) true 16 4 0 33792
         (boot zeroed)) = Done (-5) /\
  exists w',
    hal_flash_erase_sector (one_dev ram_flash) true 16 4 0 33808
      (boot zeroed) = (Done 0, w') /\
    w_calls w'
    = [EvEraseSector ram_flash 33808 0; EvSectorInfo ram_flash 0 0;
       EvSectorInfo ram_flash 1 0; EvSectorInfo ram_flash 2 0;
       EvSectorInfo ram_flash 3 0].
Proof.
  destruct (hal_flash_erase_sector_status (one_dev worn_flash) true 16 4 0
              worn_flash 33792 (boot zeroed) eq_refl eq_refl) as [Hfail _].
  destruct (hal_flash_erase_sector_status (one_dev ram_flash) true 16 4 0
              ram_flash 33808 (boot zeroed) eq_refl eq_refl) as [_ Hskip].
  split.
  - rewrite Hfail; [reflexivity |]. left. simpl. discriminate.
  - destruct Hskip as (w' & Hrun & _ & Hlog).
    + reflexivity.
    + reflexivity.
    + intros j Hj. simpl in Hj. exists (32768 + 1024 * j), 1024.
      change (hff_sector_info (hf_itf ram_flash) j) with (ram_sector_info j).
      unfold ram_sector_info.
      destruct (Z.leb_spec 0 j); [| lia]. destruct (Z.ltb_spec j 4); [| lia].
      split; [reflexivity | lia].
    + exists w'. split; [exact Hrun | exact Hlog].
Defined.

Lemma bind_run_eq {St A B} (m m' : world St -> outcome A * world St)
    (f : A -> world St -> outcome B * world St) w w' :
  m w = m' w' -> bind m f w = bind m' f w'.
Proof. unfold bind. intros ->. reflexivity. Qed.

Lemma verify_outcome {St} (m : world St -> outcome Z * world St) wk :
  bind (bind m (fun c => assert (c =? 0))) (fun _ => ret 0) wk
  = match m wk with
    | (Done c, w') => if c =? 0 then (Done 0, w') else (AssertFail, w')
    | (AssertFail, w') => (AssertFail, w')
    | (OutOfFuel, w') => (OutOfFuel, w')
    end.
Proof.
  unfold bind, assert, ret. destruct (m wk) as [[c | |] w']; try reflexivity.
  destruct (c =? 0); reflexivity.
Qed.

(** The erase of the sector of index [k], the first that starts at the
    address, with the verification on: after the driver call and the
    queries, the result is that of the scan of the sector. *)
Lemma erase_sector_at_start {St}
    (hal_bsp_flash_dev : Z -> option (hal_flash St)) BUF fuel id hf
    sector_address size k w :
  hal_bsp_flash_dev id = Some hf ->
  hal_flash_check_addr hf sector_address = 0 ->
  fst (hff_erase_sector (hf_itf hf) sector_address (w_dev w)) = 0 ->
  0 <= k < hf_sector_cnt hf ->
  hff_sector_info (hf_itf hf) k = (0, (sector_address, size)) ->
  (forall j, 0 <= j < k ->
     exists start size',
       hff_sector_info (hf_itf hf) j = (0, (start, size')) /\
       start <> sector_address) ->
  exists wk,
    w_dev wk = snd (hff_erase_sector (hf_itf hf) sector_address (w_dev w)) /\
    hal_flash_erase_sector hal_bsp_flash_dev true BUF fuel id sector_address w
    = match hal_flash_cmp_erased BUF fuel hf sector_address size wk with
      | (Done c, w') => if c =? 0 then (Done 0, w') else (AssertFail, w')
      | (AssertFail, w') => (AssertFail, w')
      | (OutOfFuel, w') => (OutOfFuel, w')
      end.
Proof.
  intros Hdev Hc Hok Hk Hg Hbefore.
  rewrite (erase_sector_unfold _ _ _ _ _ hf) by assumption.
  destruct (call_erase_sector_run hf sector_address w)
    as (rc & w1 & He & Hrc & [_ Hs1]).
  rewrite Hok in Hrc. subst rc. simpl in Hs1.
  rewrite (bind_done _ _ _ _ _ He). cbn [negb Z.eqb]. cbv iota.
  destruct (erase_sector_verify_at BUF fuel hf sector_address size
              (Z.to_nat k) ltac:(rewrite Z2Nat.id by lia; exact Hg)
              (Z.to_nat (hf_sector_cnt hf)) 0%nat w1 ltac:(lia))
    as (wk & Hs & Hrun).
  { intros j Hj. apply Hbefore. lia. }
  exists wk. split; [congruence |].
  simpl Z.of_nat in Hrun. rewrite (bind_run_eq _ _ _ _ _ Hrun).
  apply verify_outcome.
Qed.

(** X14.  The verification of [hal_flash_erase_sector], for an address that
    is the start of a sector, a driver erase that reported success and a
    driver whose read hands back the contents of the device: a byte of the
    sector that does not hold [0xFF] stops the program on the assertion, so
    that 0 is returned only when the whole sector holds [0xFF]; and when it
    does (the reads succeeding and size + BUF_SZ <= 2^32), 0 is returned
    and the device is as the erase left it. *)
Theorem hal_flash_erase_sector_verified {St}
    (hal_bsp_flash_dev : Z -> option (hal_flash St))
    (BUF : Z) (id : Z) (hf : hal_flash St) (mem : St -> Z -> Z)
    (sector_address size k : Z) (w : world St) :
  hal_bsp_flash_dev id = Some hf ->
  hal_flash_check_addr hf sector_address = 0 ->
  reads_contents hf mem -> 0 < BUF ->
  fst (hff_erase_sector (hf_itf hf) sector_address (w_dev w)) = 0 ->
  0 <= k < hf_sector_cnt hf ->
  hff_sector_info (hf_itf hf) k = (0, (sector_address, size)) ->
  (forall j, 0 <= j < k ->
     exists start size',
       hff_sector_info (hf_itf hf) j = (0, (start, size')) /\
       start <> sector_address) ->
  u32 size ->
  let s1 := snd (hff_erase_sector (hf_itf hf) sector_address (w_dev w)) in
  (forall i, 0 <= i < size -> mem s1 (add32 sector_address i) <> 255 ->
     forall fuel, (Z.to_nat i < fuel)%nat ->
       fst (hal_flash_erase_sector hal_bsp_flash_dev true BUF fuel id
              sector_address w) = AssertFail) /\
  (forall fuel w',
     hal_flash_erase_sector hal_bsp_flash_dev true BUF fuel id
       sector_address w = (Done 0, w') ->
     forall i, 0 <= i < size -> mem s1 (add32 sector_address i) = 255) /\
  (reads_succeed hf -> size + BUF <= u32_max + 1 ->
   (forall i, 0 <= i < size -> mem s1 (add32 sector_address i) = 255) ->
   forall fuel, (Z.to_nat size < fuel)%nat ->
     exists w',
       hal_flash_erase_sector hal_bsp_flash_dev true BUF fuel id
         sector_address w = (Done 0, w') /\
       w_dev w' = s1).
Proof.
  intros Hdev Hc Hmem Hbuf Hok Hk Hg Hbefore Hsz s1.
  assert (forall i, 0 <= i < size ->
            mem s1 (add32 sector_address i) <> 255 ->
            forall fuel,
              (exists w',
                 hal_flash_erase_sector hal_bsp_flash_dev true BUF fuel id
                   sector_address w = (OutOfFuel, w') /\
                 (fuel <= Z.to_nat i)%nat) \/
              (exists w',
                 hal_flash_erase_sector hal_bsp_flash_dev true BUF fuel id
                   sector_address w = (AssertFail, w'))) as Hstop.
  { intros i Hi Hdiff fuel.
    destruct (erase_sector_at_start hal_bsp_flash_dev BUF fuel id hf
                sector_address size k w Hdev Hc Hok Hk Hg Hbefore)
      as (wk & Hs & Hrun).
    destruct (cmp_erased_loop_finds_byte BUF hf mem sector_address size s1 i
                Hmem Hbuf Hsz Hi Hdiff fuel 0 wk Hs ltac:(lia))
      as (o & w' & Hcmp & _ & Ho).
    unfold hal_flash_cmp_erased in Hrun. rewrite Hcmp in Hrun.
    destruct Ho as [[-> Hf] | (c & -> & Hne)].
    - left. exists w'. split; [exact Hrun |].
      rewrite Z.sub_0_r in Hf. exact Hf.
    - right. exists w'. apply Z.eqb_neq in Hne. rewrite Hne in Hrun.
      exact Hrun. }
  split; [| split].
  - intros i Hi Hdiff fuel Hfuel.
    destruct (Hstop i Hi Hdiff fuel) as [(w' & _ & Hf) | (w' & ->)];
      [lia | reflexivity].
  - intros fuel w' Hdone i Hi.
    destruct (Z.eq_dec (mem s1 (add32 sector_address i)) 255) as [| Hdiff];
      [assumption |].
    destruct (Hstop i Hi Hdiff fuel) as [(w2 & H2 & _) | (w2 & H2)];
      rewrite H2 in Hdone; discriminate.
  - intros Hreads Hfit Hones fuel Hfuel.
    destruct (erase_sector_at_start hal_bsp_flash_dev BUF fuel id hf
                sector_address size k w Hdev Hc Hok Hk Hg Hbefore)
      as (wk & Hs & Hrun).
    destruct (cmp_erased_loop_accepts BUF hf mem sector_address size s1
                Hmem Hreads Hbuf Hfit Hones fuel 0 wk Hs ltac:(lia)
                ltac:(rewrite Z.sub_0_r; exact Hfuel))
      as (w' & Hcmp & Hs').
    unfold hal_flash_cmp_erased in Hrun. rewrite Hcmp in Hrun.
    exists w'. split; [exact Hrun | exact Hs'].
Qed.

(** The device whose erase does nothing: the verified erase of the sector
    at [0x8400] of the zeroed device stops on the assertion.  The example
    device: it returns 0. *)
Lemma hal_flash_erase_sector_verified_ram :
  fst (hal_flash_erase_sector (one_dev lazy_flash) true 16 4 0 33792
         (boot zeroed)) = AssertFail /\
  exists w',
    hal_flash_erase_sector (one_dev ram_flash) true 16 1025 0 33792
      (boot zeroed) = (Done 0, w').
Proof.
  split.
  - destruct (hal_flash_erase_sector_verified (one_dev lazy_flash) 16 0
                lazy_flash (fun s x => s x) 33792 1024 1 (boot zeroed))
      as [Hstop _].
    + reflexivity.
    + reflexivity.
    + apply ram_reads_contents. reflexivity.
    + lia.
    + reflexivity.
    + simpl. lia.
    + reflexivity.
    + intros j Hj. assert (j = 0) as -> by lia.
      exists 32768, 1024. split; [reflexivity | lia].
    + unfold u32, u32_max. lia.
    + apply (Hstop 0); [lia | | lia]. vm_compute. discriminate.
  - destruct (hal_flash_erase_sector_verified (one_dev ram_flash) 16 0
                ram_flash (fun s x => s x) 33792 1024 1 (boot zeroed))
      as (_ & _ & Hdone).
    + reflexivity.
    + reflexivity.
    + apply ram_reads_contents. reflexivity.
    + lia.
    + reflexivity.
    + simpl. lia.
    + reflexivity.
    + intros j Hj. assert (j = 0) as -> by lia.
      exists 32768, 1024. split; [reflexivity | lia].
    + unfold u32, u32_max. lia.
    + destruct (Hdone (fun a n s => eq_refl) ltac:(unfold u32_max; lia))
        with (fuel := 1025%nat) as (w' & Hrun & _).
      * intros i Hi.
        apply (proj2 (ram_erase_sets_ones ram_flash eq_refl
                        (fun i a size => ram_sector_size i a size)
                        33792 zeroed eq_refl (add32 33792 i)) 1 1024).
        -- reflexivity.
        -- rewrite add32_small by (unfold u32_max; lia). lia.
      * lia.
      * exists w'. exact Hrun.
Defined.

(** ** hal_flash_erase with the verification of erases *)

(** The scan walks past the sectors that the range does not meet, with one
    query each, and leaves the device as it is. *)
Lemma erase_loop_skips {St} VE BUF fuel (hf : hal_flash St) address end_ n :
  forall m i w,
    (forall j, Z.of_nat i <= j < Z.of_nat i + Z.of_nat m ->
       exists start size,
         hff_sector_info (hf_itf hf) j = (0, (start, size)) /\
         sector_hit address end_ start size = false) ->
    exists wk,
      w_dev wk = w_dev w /\
      w_calls wk
      = w_calls w
        ++ map (fun j => EvSectorInfo hf j 0) (map Z.of_nat (seq i m)) /\
      hal_flash_erase_loop VE BUF fuel hf address end_ (m + n) (Z.of_nat i) w
      = hal_flash_erase_loop VE BUF fuel hf address end_ n
          (Z.of_nat (i + m)) wk.
Proof.
  induction m as [| m IH]; intros i w Hmiss.
  - exists w. rewrite Nat.add_0_r. simpl. rewrite app_nil_r. auto.
  - simpl Nat.add. simpl hal_flash_erase_loop.
    destruct (call_sector_info_run hf (Z.of_nat i) w)
      as (w1 & Hq & [Hlog1 Hs1]).
    rewrite (bind_done _ _ _ _ _ Hq). simpl in Hs1.
    destruct (Hmiss (Z.of_nat i) ltac:(lia)) as (start & size & Hg & Hh).
    rewrite Hg in *. simpl in Hlog1.
    unfold bind at 1, assert at 1. simpl (0 =? 0).
    cbv iota beta. rewrite Hh.
    replace (Z.of_nat i + 1) with (Z.of_nat (S i)) by lia.
    destruct (IH (S i) w1) as (wk & Hs & Hlog & Hrun).
    { intros j Hj. apply Hmiss. lia. }
    exists wk. split; [congruence |]. split.
    + rewrite Hlog, Hlog1, <- app_assoc. reflexivity.
    + rewrite Hrun. f_equal. f_equal. lia.
Qed.

(** The turn of a sector that the range meets, with the verification on and
    a driver erase that reported success. *)
Lemma erase_loop_verified_turn {St} BUF fuel (hf : hal_flash St) address
    end_ n i start size w :
  hff_sector_info (hf_itf hf) i = (0, (start, size)) ->
  sector_hit address end_ start size = true ->
  fst (hff_erase_sector (hf_itf hf) start (w_dev w)) = 0 ->
  exists w2,
    w_dev w2 = snd (hff_erase_sector (hf_itf hf) start (w_dev w)) /\
    hal_flash_erase_loop true BUF fuel hf address end_ (S n) i w
    = match hal_flash_cmp_erased BUF fuel hf start size w2 with
      | (Done c, w') =>
          if c =? 0
          then hal_flash_erase_loop true BUF fuel hf address end_ n (i + 1) w'
          else (AssertFail, w')
      | (AssertFail, w') => (AssertFail, w')
      | (OutOfFuel, w') => (OutOfFuel, w')
      end.
Proof.
  intros Hg Hh Hok. simpl hal_flash_erase_loop.
  destruct (call_sector_info_run hf i w) as (w1 & Hq & [_ Hs1]).
  rewrite (bind_done _ _ _ _ _ Hq). simpl in Hs1.
  rewrite Hg. unfold bind at 1, assert at 1. simpl (0 =? 0).
  cbv iota beta. rewrite Hh.
  destruct (call_erase_sector_run hf start w1) as (e & w2 & He & Hrc & [_ Hs2]).
  rewrite (bind_done _ _ _ _ _ He). simpl in Hs2.
  rewrite Hs1 in Hrc, Hs2. rewrite Hok in Hrc. subst e.
  cbn [negb Z.eqb]. cbv iota.
  exists w2. split; [exact Hs2 |].
  unfold bind, assert.
  destruct (hal_flash_cmp_erased BUF fuel hf start size w2) as [[c | |] w'];
    try reflexivity.
  destruct (c =? 0); reflexivity.
Qed.

(** X15.  With the verification of erases on and a driver whose read hands
    back the contents of the device: when the first sector that a valid
    request meets has been erased by the driver with success and a byte of
    it does not read [0xFF], [hal_flash_erase] stops on the assertion; it
    does not return. *)
Theorem hal_flash_erase_verified {St}
    (hal_bsp_flash_dev : Z -> option (hal_flash St))
    (BUF : Z) (id : Z) (hf : hal_flash St) (mem : St -> Z -> Z)
    (address num_bytes k start size i : Z) (w : world St) :
  hal_bsp_flash_dev id = Some hf ->
  reads_contents hf mem -> 0 < BUF ->
  u32 address -> u32 num_bytes ->
  hal_flash_check_addr hf address = 0 ->
  hal_flash_check_addr hf (add32 address num_bytes) = 0 ->
  0 < num_bytes -> address + num_bytes <= u32_max ->
  0 <= k < hf_sector_cnt hf ->
  hff_sector_info (hf_itf hf) k = (0, (start, size)) ->
  sector_hit address (address + num_bytes) start size = true ->
  (forall j, 0 <= j < k ->
     exists start' size',
       hff_sector_info (hf_itf hf) j = (0, (start', size')) /\
       sector_hit address (address + num_bytes) start' size' = false) ->
  fst (hff_erase_sector (hf_itf hf) start (w_dev w)) = 0 ->
  u32 size -> 0 <= i < size ->
  mem (snd (hff_erase_sector (hf_itf hf) start (w_dev w))) (add32 start i)
  <> 255 ->
  forall fuel, (Z.to_nat i < fuel)%nat ->
    fst (hal_flash_erase hal_bsp_flash_dev true BUF fuel id address
           num_bytes w) = AssertFail.
Proof.
  intros Hdev Hmem Hbuf Ha Hn Hc1 Hc2 Hpos Hfit Hk Hg Hh Hmiss Hok Hsz Hi
    Hdiff fuel Hfuel.
  rewrite (erase_valid_goes_to_scan hal_bsp_flash_dev true BUF fuel id hf
             address num_bytes w) by assumption.
  replace (Z.to_nat (hf_sector_cnt hf))
    with (Z.to_nat k + S (Z.to_nat (hf_sector_cnt hf - k - 1)))%nat by lia.
  destruct (erase_loop_skips true BUF fuel hf address (address + num_bytes)
              (S (Z.to_nat (hf_sector_cnt hf - k - 1))) (Z.to_nat k) 0%nat w)
    as (wk & Hs & _ & Hrun).
  { intros j Hj. apply Hmiss. lia. }
  simpl Z.of_nat in Hrun at 1. rewrite Hrun. clear Hrun.
  simpl Nat.add. rewrite Z2Nat.id by lia.
  destruct (erase_loop_verified_turn BUF fuel hf address
              (address + num_bytes) (Z.to_nat (hf_sector_cnt hf - k - 1)) k
              start size wk Hg Hh ltac:(rewrite Hs; exact Hok))
    as (w2 & Hs2 & Hturn).
  rewrite Hturn. rewrite Hs in Hs2.
  destruct (cmp_erased_loop_finds_byte BUF hf mem start size _ i Hmem Hbuf
              Hsz Hi Hdiff fuel 0 w2 Hs2 ltac:(lia))
    as (o & w' & Hcmp & _ & Ho).
  unfold hal_flash_cmp_erased. rewrite Hcmp.
  destruct Ho as [[-> Hf] | (c & -> & Hne)]; [lia |].
  apply Z.eqb_neq in Hne. rewrite Hne. reflexivity.
Qed.

(** The device whose erase does nothing: the verified erase of [0x200]
    bytes at [0x8300] of the zeroed device stops at the first sector. *)
Lemma hal_flash_erase_verified_lazy :
  fst (hal_flash_erase (one_dev lazy_flash) true 16 4 0 33536 512
         (boot zeroed)) = AssertFail.
Proof.
  apply (hal_flash_erase_verified (one_dev lazy_flash) 16 0 lazy_flash
           (fun s x => s x) 33536 512 0 32768 1024 0 (boot zeroed)).
  - reflexivity.
  - apply ram_reads_contents. reflexivity.
  - lia.
  - unfold u32, u32_max. lia.
  - unfold u32, u32_max. lia.
  - reflexivity.
  - reflexivity.
  - lia.
  - unfold u32_max. lia.
  - simpl. lia.
  - reflexivity.
  - reflexivity.
  - intros j Hj. lia.
  - reflexivity.
  - unfold u32, u32_max. lia.
  - lia.
  - vm_compute. discriminate.
  - lia.
Defined.

(** ** hal_flash_write: a write the driver fails *)

(** X16.  A validated write that the driver fails is returned with the
    status of the driver as it is, after that one call: nothing is read
    back, with the verification of writes on or off. *)
Theorem hal_flash_write_failure_returned {St}
    (hal_bsp_flash_dev : Z -> option (hal_flash St))
    (VW : bool) (BUF : Z) (fuel : nat) (id : Z) (hf : hal_flash St)
    (address : Z) (src : list Z) (num_bytes : Z) (w : world St) :
  hal_bsp_flash_dev id = Some hf ->
  hal_flash_check_addr hf address = 0 ->
  hal_flash_check_addr hf (add32 address num_bytes) = 0 ->
  fst (hff_write (hf_itf hf) address src num_bytes (w_dev w)) <> 0 ->
  hal_flash_write hal_bsp_flash_dev VW BUF fuel id address src num_bytes w
  = (Done (fst (hff_write (hf_itf hf) address src num_bytes (w_dev w))),
     log (snd (hff_write (hf_itf hf) address src num_bytes (w_dev w)))
       (EvWrite hf address src num_bytes
          (fst (hff_write (hf_itf hf) address src num_bytes (w_dev w))))
       w).
Proof.
  intros Hdev Hc1 Hc2 Hfail.
  rewrite (write_unfold _ _ _ _ _ hf) by assumption.
  unfold bind, call_write.
  destruct (hff_write (hf_itf hf) address src num_bytes (w_dev w))
    as [rc s1]. cbn [fst snd] in *.
  apply Z.eqb_neq in Hfail. rewrite Hfail. reflexivity.
Qed.

(** On the device whose write fails with -7: the status comes back and the
    log holds the write alone, with the verification on. *)
Lemma hal_flash_write_failure_returned_locked :
  hal_flash_write (one_dev locked_flash) true 16 4 0 32768 [1; 2] 2
    (boot zeroed)
  = (Done (-7),
     {| w_dev := zeroed;
        w_calls := [EvWrite locked_flash 32768 [1; 2] 2 (-7)] |}).
Proof.
  apply (hal_flash_write_failure_returned (one_dev locked_flash) true 16 4 0
           locked_flash 32768 [1; 2] 2 (boot zeroed)).
  - reflexivity.
  - reflexivity.
  - reflexivity.
  - simpl. discriminate.
Defined.

(** ** The offset of the verification scans *)

(** The offset of [hal_flash_cmp_erased] is a 32-bit multiple of the chunk
    size; when the chunk size divides 2^32 and the length is above
    2^32 - BUF_SZ, the offset goes back to 0 before it reaches the length. *)
Lemma cmp_erased_loop_cycles {St} BUF (hf : hal_flash St) mem address
    num_bytes s p :
  reads_contents hf mem -> reads_succeed hf ->
  0 < BUF -> 4294967296 = BUF * p ->
  4294967296 - BUF < num_bytes ->
  (forall i, 0 <= i -> mem s (add32 address i) = 255) ->
  forall fuel q w,
    w_dev w = s -> 0 <= q < p ->
    fst (hal_flash_cmp_erased_loop BUF fuel hf address num_bytes (BUF * q) w)
    = OutOfFuel.
Proof.
  intros Hmem Hok Hbuf Hp Hbig Hones.
  induction fuel as [| fuel IH]; intros q w Hs Hq; [reflexivity |].
  rewrite cmp_erased_loop_unfold.
  assert (BUF * q <= 4294967296 - BUF) as Hoff by nia.
  destruct (Z.ltb_spec (BUF * q) num_bytes); [| lia].
  destruct (call_read_run hf (add32 address (BUF * q))
              (chunk_size BUF (num_bytes - BUF * q)) w)
    as (rc & buf & w1 & Hr & Hrd & [_ Hs1]).
  rewrite (bind_done _ _ _ _ _ Hr).
  destruct (Hmem (add32 address (BUF * q))
              (chunk_size BUF (num_bytes - BUF * q)) (w_dev w))
    as [Hkeep Hdata].
  pose proof (Hok (add32 address (BUF * q))
                (chunk_size BUF (num_bytes - BUF * q)) (w_dev w)) as Hrc.
  rewrite <- Hrd in Hdata, Hrc. simpl in Hdata, Hrc, Hs1. subst rc.
  rewrite Hkeep, Hs in Hs1. cbn [negb].
  rewrite all_bytes_intro.
  - destruct (Z.eq_dec (q + 1) p) as [Hlast | Hmore].
    + assert (add32 (BUF * q) BUF = BUF * 0) as ->.
      { unfold add32. replace (BUF * q + BUF) with (0 + 1 * 4294967296) by nia.
        rewrite Z.mod_add by lia. rewrite Z.mul_0_r. reflexivity. }
      apply IH; [exact Hs1 | nia].
    + assert (add32 (BUF * q) BUF = BUF * (q + 1)) as ->
        by (rewrite add32_small by (unfold u32_max; nia); lia).
      apply IH; [exact Hs1 | lia].
  - intros j Hj. rewrite (Hdata eq_refl j Hj), Hs, add32_add32.
    apply Hones. nia.
Qed.

(** X17.  The offset of [hal_flash_cmp_erased] is a 32-bit counter that
    goes up by the chunk size.  For a chunk size that divides 2^32 and a
    length above 2^32 - BUF_SZ, on a device that reads [0xFF] throughout,
    the offset wraps to 0 before it reaches the length and the scan never
    returns, whatever the fuel. *)
Theorem hal_flash_cmp_erased_huge_length {St} (BUF : Z) (hf : hal_flash St)
    (mem : St -> Z -> Z) (address num_bytes : Z) (w : world St) :
  reads_contents hf mem -> reads_succeed hf ->
  0 < BUF -> 4294967296 mod BUF = 0 ->
  4294967296 - BUF < num_bytes ->
  (forall i, 0 <= i -> mem (w_dev w) (add32 address i) = 255) ->
  forall fuel,
    fst (hal_flash_cmp_erased BUF fuel hf address num_bytes w) = OutOfFuel.
Proof.
  intros Hmem Hok Hbuf Hdiv Hbig Hones fuel.
  assert (4294967296 = BUF * (4294967296 / BUF)) as Hp
    by (apply Z_div_exact_full_2; lia).
  unfold hal_flash_cmp_erased.
  replace 0 with (BUF * 0) at 1 by lia.
  apply (cmp_erased_loop_cycles BUF hf mem address num_bytes (w_dev w)
           (4294967296 / BUF) Hmem Hok Hbuf Hp Hbig Hones fuel 0 w eq_refl).
  generalize dependent (4294967296 / BUF). intros p Hp. nia.
Qed.

(** Chunks of 16 bytes, a blank device and the length [0xFFFFFFFF]. *)
Lemma hal_flash_cmp_erased_huge_length_ram :
  fst (hal_flash_cmp_erased 16 1000 ram_flash 0 4294967295 (boot blank))
  = OutOfFuel.
Proof.
  apply (hal_flash_cmp_erased_huge_length 16 ram_flash (fun s x => s x)).
  - apply ram_reads_contents. reflexivity.
  - intros a n s. reflexivity.
  - lia.
  - reflexivity.
  - lia.
  - intros i Hi. reflexivity.
Defined.

(** ** A geometry query that the driver fails *)

(** The turn of a sector whose geometry the driver cannot tell. *)
Lemma erase_loop_blind_turn {St} VE BUF fuel (hf : hal_flash St) address
    end_ n i w :
  fst (hff_sector_info (hf_itf hf) i) <> 0 ->
  hal_flash_erase_loop VE BUF fuel hf address end_ (S n) i w
  = (AssertFail,
     log (w_dev w)
       (EvSectorInfo hf i (fst (hff_sector_info (hf_itf hf) i))) w).
Proof.
  intros Hbad. simpl hal_flash_erase_loop.
  unfold bind, call_sector_info, assert.
  destruct (hff_sector_info (hf_itf hf) i) as [rc [start size]].
  cbn [fst] in *. apply Z.eqb_neq in Hbad. rewrite Hbad. reflexivity.
Qed.

(** X18.  A failed geometry query is an answer for
    [hal_flash_sector_size] and the end of the program for
    [hal_flash_erase].  [hal_flash_sector_size] makes the one query and
    returns the size of the sector when the driver reports one and 0 when
    the query fails, with no assertion.  [hal_flash_erase], on a valid
    request, stops on the assertion at the first index whose query fails,
    when the range meets none of the sectors before it: it has queried the
    indices up to that one, erased nothing and left the device as it
    was. *)
Theorem failed_geometry_query {St}
    (hal_bsp_flash_dev : Z -> option (hal_flash St))
    (VE : bool) (BUF : Z) (fuel : nat) (id : Z) (hf : hal_flash St)
    (address num_bytes k : Z) (w : world St) :
  (forall i,
     hal_flash_sector_size hf i w
     = (Done (if fst (hff_sector_info (hf_itf hf) i) =? 0
              then snd (snd (hff_sector_info (hf_itf hf) i)) else 0),
        log (w_dev w)
          (EvSectorInfo hf i (fst (hff_sector_info (hf_itf hf) i))) w)) /\
  (hal_bsp_flash_dev id = Some hf ->
   u32 address -> u32 num_bytes ->
   hal_flash_check_addr hf address = 0 ->
   hal_flash_check_addr hf (add32 address num_bytes) = 0 ->
   0 < num_bytes -> address + num_bytes <= u32_max ->
   0 <= k < hf_sector_cnt hf ->
   fst (hff_sector_info (hf_itf hf) k) <> 0 ->
   (forall j, 0 <= j < k ->
      exists start size,
        hff_sector_info (hf_itf hf) j = (0, (start, size)) /\
        sector_hit address (address + num_bytes) start size = false) ->
   exists w',
     hal_flash_erase hal_bsp_flash_dev VE BUF fuel id address num_bytes w
     = (AssertFail, w') /\
     w_dev w' = w_dev w /\
     w_calls w'
     = w_calls w
       ++ map (fun j => EvSectorInfo hf j 0) (sector_indices k)
       ++ [EvSectorInfo hf k (fst (hff_sector_info (hf_itf hf) k))]).
Proof.
  split.
  - intros i. unfold hal_flash_sector_size, bind, call_sector_info.
    destruct (hff_sector_info (hf_itf hf) i) as [rc [start size]].
    cbn [fst snd]. destruct (rc =? 0); reflexivity.
  - intros Hdev Ha Hn Hc1 Hc2 Hpos Hfit Hk Hbad Hmiss.
    rewrite (erase_valid_goes_to_scan hal_bsp_flash_dev VE BUF fuel id hf
               address num_bytes w) by assumption.
    replace (Z.to_nat (hf_sector_cnt hf))
      with (Z.to_nat k + S (Z.to_nat (hf_sector_cnt hf - k - 1)))%nat by lia.
    destruct (erase_loop_skips VE BUF fuel hf address (address + num_bytes)
                (S (Z.to_nat (hf_sector_cnt hf - k - 1))) (Z.to_nat k)
                0%nat w) as (wk & Hs & Hlog & Hrun).
    { intros j Hj. apply Hmiss. lia. }
    simpl Z.of_nat in Hrun at 1. rewrite Hrun.
    simpl Nat.add. rewrite Z2Nat.id by lia.
    rewrite erase_loop_blind_turn by exact Hbad.
    eexists. split; [reflexivity |]. split; [exact Hs |].
    simpl w_calls. rewrite Hlog, <- app_assoc. reflexivity.
Qed.

(** The device whose driver cannot tell its geometry: the size of sector 1
    is reported as 0, and a valid erase stops at its first query.  On the
    example device sector 1 has [0x400] bytes. *)
Lemma failed_geometry_query_blind :
  fst (hal_flash_sector_size blind_flash 1 (boot zeroed)) = Done 0 /\
  fst (hal_flash_sector_size ram_flash 1 (boot zeroed)) = Done 1024 /\
  hal_flash_erase (one_dev blind_flash) false 16 0 0 33536 512 (boot zeroed)
  = (AssertFail,
     {| w_dev := zeroed; w_calls := [EvSectorInfo blind_flash 0 (-2)] |}).
Proof.
  destruct (failed_geometry_query (one_dev blind_flash) false 16 0%nat 0
              blind_flash 33536 512 0 (boot zeroed)) as [Hsize Hstop].
  destruct (failed_geometry_query (one_dev ram_flash) false 16 0%nat 0
              ram_flash 33536 512 0 (boot zeroed)) as [Hsize' _].
  split; [rewrite Hsize; reflexivity |].
  split; [rewrite Hsize'; reflexivity |].
  destruct Hstop as (w' & Hrun & Hdev & Hlog).
  - reflexivity.
  - unfold u32, u32_max. lia.
  - unfold u32, u32_max. lia.
  - reflexivity.
  - reflexivity.
  - lia.
  - unfold u32_max. lia.
  - simpl. lia.
  - simpl. discriminate.
  - intros j Hj. lia.
  - rewrite Hrun. f_equal. destruct w' as [s calls].
    simpl in Hdev, Hlog. subst. reflexivity.
Defined.
